(** * Earnings simulation and wallet/ledger consistency engine

    A shallow embedding of the plan builder and order emitter
    (hooks/useRunOrderEngine.ts), the wallet/ledger store
    (store/appStore.ts), the run control panel (components/run/
    RunControlPanel.tsx) and the payout-status projection
    (components/WalletKPIGroup.tsx), followed by the properties proved
    about them.

    Number model.  A JavaScript [number] that holds a minor-unit amount, a
    counter or a time stamp is an integer [Z], exact below 2^53.  A
    [number] that holds an amount in major units, a rate, a crypto
    quantity or a price is the rational value of a binary64 double: every
    [+], [-], [*] and [/] the plan builder, the amount parser, the crypto
    side of the store and the assisted counts perform on such values is
    [Double.add], [Double.sub], [Double.mul], [Double.div], the exact
    result rounded to the nearest double ([Double.rnd], ties to even,
    gradual underflow), and a decimal literal is the double nearest to it
    ([Double.lit]).  Overflow to an infinity is not modelled: magnitudes
    stay below 2^1024.  A value that fails [isFinite] is the separate
    constructor [NotFinite] of [number] where the source tests for it.
    The 32-bit operators ([^], [|], [>>>], [Math.imul]) are written out on
    [Z] with their wrap-around.

    Local time.  The local fields of a [Date] follow ECMAScript's
    LocalTZA: a time zone is a function that gives the offset of local
    time from UTC at a UTC instant or at a local time, so that days of 23
    and 25 hours are covered. *)

From Stdlib Require Import ZArith QArith Qround Qabs Qpower Lia Lqa List String Ascii Bool.
From Stdlib Require Import DecimalString.
Import ListNotations.

Local Open Scope Z_scope.

(** ** JavaScript primitives used by the sources *)

(** A [number] argument that the source guards with [isFinite]:
    [NotFinite] is NaN or an infinity, the values [isFinite] rejects. *)
Inductive number (A : Type) : Type :=
| Finite (a : A)
| NotFinite.
Arguments Finite {A} a.
Arguments NotFinite {A}.

Module Math.

(** [Math.floor]. *)
Definition floor (x : Q) : Z := Qfloor x.

(** [Math.round]: nearest integer, halves towards plus infinity. *)
Definition round (x : Q) : Z := Qfloor (x + (1 # 2))%Q.

(** [Math.max] and [Math.min] on rationals. *)
Definition max (a b : Q) : Q := if Qle_bool a b then b else a.
Definition min (a b : Q) : Q := if Qle_bool a b then a else b.

End Math.

(** Binary64 arithmetic on the rational values of the doubles. *)
Module Double.

Definition pow2 (e : Z) : Q := (2 ^ e)%Q.

(** floor(log2 x) of a positive rational. *)
Definition ilog2 (x : Q) : Z :=
  let k := Z.log2 (Qnum x) - Z.log2 (Z.pos (Qden x)) in
  if Qle_bool (pow2 k) x then k else k - 1.

(** The nearest integer, a tie going to the even one. *)
Definition rne (x : Q) : Z :=
  let f := Qfloor x in
  match (x - inject_Z f ?= 1 # 2)%Q with
  | Lt => f
  | Gt => f + 1
  | Eq => if Z.even f then f else f + 1
  end.

(** The exponent of the last place of the double nearest to [x]: 53
    significant bits, and never below that of the subnormals. *)
Definition expOf (x : Q) : Z := Z.max (ilog2 (Qabs x) - 52) (-1074).

(** The double nearest to [x]. *)
Definition rnd (x : Q) : Q :=
  if Qeq_bool x 0 then 0%Q
  else Qred (inject_Z (rne (x / pow2 (expOf x))) * pow2 (expOf x)).

Definition add (x y : Q) : Q := rnd (x + y).
Definition sub (x y : Q) : Q := rnd (x - y).
Definition mul (x y : Q) : Q := rnd (x * y).
Definition div (x y : Q) : Q := rnd (x / y).

(** The decimal literal [n/d]. *)
Definition lit (n : Z) (d : positive) : Q := rnd (n # d).

End Double.

Arguments Double.rnd : simpl never.
Strategy 1000 [Double.rnd].

Module Int32.

Definition two32 : Z := 4294967296.

(** ToUint32 and ToInt32 of an integral number. *)
Definition toUint32 (z : Z) : Z := z mod two32.
Definition toInt32 (z : Z) : Z := (z + 2147483648) mod two32 - 2147483648.

(** [a ^ b], [a | b], [a >>> n] and [Math.imul(a, b)]. *)
Definition xor (a b : Z) : Z := toInt32 (Z.lxor (toInt32 a) (toInt32 b)).
Definition or (a b : Z) : Z := toInt32 (Z.lor (toInt32 a) (toInt32 b)).
Definition ushr (a n : Z) : Z := Z.shiftr (toUint32 a) n.
Definition imul (a b : Z) : Z := toInt32 (toInt32 a * toInt32 b).

End Int32.

(** [parseInt(s, 10)] on a string of decimal digits: the leading digits are
    read, [None] stands for NaN (no digit at the front). *)
Definition digitOf (c : ascii) : option Z :=
  let n := Z.of_nat (nat_of_ascii c) in
  if (48 <=? n) && (n <=? 57) then Some (n - 48) else None.

Fixpoint parseDigits (s : string) (acc : option Z) : option Z :=
  match s with
  | EmptyString => acc
  | String c rest =>
      match digitOf c with
      | Some d => parseDigits rest (Some (10 * match acc with Some a => a | None => 0 end + d))
      | None => acc
      end
  end.

Definition parseInt (s : string) : option Z := parseDigits s None.

(** The template literal [`${n}`] of an integer and [padStart(2, '0')]. *)
Definition showInt (z : Z) : string := NilZero.string_of_int (Z.to_int z).

Definition padStart2 (s : string) : string :=
  match String.length s with
  | O => "00"
  | S O => String "0" s
  | _ => s
  end%string.

(** A [Date]: its epoch milliseconds and the local calendar fields its
    getters return ([getMonth] counts from 0). *)
Record Date : Type := mkDate {
  getTime : Z;
  getFullYear : Z;
  getMonth : Z;
  getDate : Z
}.

(** ** hooks/useRunOrderEngine.ts *)

Module Engine.

(** [RunPlatform]. *)
Inductive RunPlatform : Type := Binance | OKX | Bybit.

Inductive Symbol : Type := BTC_USDT | ETH_USDT.

Record OrderPayload : Type := mkOrder {
  platform : option RunPlatform;
  profitUsd : Q;
  symbol : Symbol;
  ts : Z
}.

(** The object kept in [planRef.current]. *)
Record Plan : Type := mkPlan {
  day : string;
  ordersPlanned : Z;
  ordersDone : Z;
  targetSumMinor : Z;
  producedMinor : Z
}.

(** What the hook's closures read and write: the clock behind
    [new Date()], the results [Math.random()] will give next, the plan
    ref, and the orders handed to [onOrder] so far (newest first). *)
Record World : Type := mkWorld {
  clock : Date;
  randoms : list Q;
  planRef : option Plan;
  emitted : list OrderPayload
}.

Definition todayKey (d : Date) : string :=
  let y := getFullYear d in
  let m := padStart2 (showInt (getMonth d + 1)) in
  let dd := padStart2 (showInt (getDate d)) in
  (showInt y ++ m ++ dd)%string.

(** The unsigned 32-bit word whose quotient by 2^32 [seededRand01]
    returns. *)
Definition seededWord (seed : Z) : Z :=
  let t := seed + 1831565813 (* 0x6D2B79F5 *) in
  let t := Int32.imul (Int32.xor t (Int32.ushr t 15)) (Int32.or t 1) in
  let t := Int32.xor t (t + Int32.imul (Int32.xor t (Int32.ushr t 7)) (Int32.or t 61)) in
  Int32.toUint32 (Int32.xor t (Int32.ushr t 14)).

(** The quotient of a 32-bit word by 2^32 is a double, so the division
    rounds nothing. *)
Definition seededRand01 (seed : Z) : Q := Qmake (seededWord seed) 4294967296.

Definition pickSymbol (r : Q) : Symbol :=
  if Qle_bool (1 # 2)%Q r then ETH_USDT else BTC_USDT.

(** [Math.random()]: the next scripted draw (0 once the script is empty). *)
Definition random (w : World) : Q * World :=
  match randoms w with
  | [] => (0%Q, w)
  | r :: rs => (r, mkWorld (clock w) rs (planRef w) (emitted w))
  end.

Definition setPlan (p : Plan) (w : World) : World :=
  mkWorld (clock w) (randoms w) (Some p) (emitted w).

Definition onOrder (o : OrderPayload) (w : World) : World :=
  mkWorld (clock w) (randoms w) (planRef w) (o :: emitted w).

Section Hook.

(** The hook's arguments and the platform list it memoises. *)
Variable running : bool.
Variable investMinor : Z.
Variable platforms : list RunPlatform.

Definition invMainOf : Q :=
  Double.div (inject_Z (Z.max 0 (Math.floor (inject_Z investMinor)))) 100.

Definition daySeedOf (dayKey : string) : Z :=
  Int32.xor (match parseInt dayKey with Some n => n | None => 0 end)
            (Math.floor (Double.mul invMainOf 100)).

Definition jitterOf (daySeed : Z) : Q :=
  Double.add (Double.lit 9 10) (Double.mul (seededRand01 daySeed) (Double.lit 2 10)).

(** The plan [buildPlan] stores for the day key [dayKey]. *)
Definition planFor (dayKey : string) : Plan :=
  let invMain := invMainOf in
  if Qle_bool invMain 0%Q then mkPlan dayKey 0 0 0 0
  else
    let lowTier := negb (Qle_bool 10000%Q invMain) in
    let baseMonthly := if lowTier then Double.lit 30 100 else Double.lit 60 100 in
    let capMonthly := if lowTier then Double.lit 40 100 else Double.lit 80 100 in
    let daySeed := daySeedOf dayKey in
    let jitter := jitterOf daySeed in
    let monthlyForToday := Math.min capMonthly (Double.mul baseMonthly jitter) in
    let dailyTargetMain := Double.div (Double.mul invMain monthlyForToday) 30 in
    let targetSumMinor := Z.max 0 (Math.round (Double.mul dailyTargetMain 100)) in
    let ordersPlanned := 50 + Math.floor (Double.mul (seededRand01 (daySeed + 77)) 51) in
    mkPlan dayKey ordersPlanned 0 targetSumMinor 0.

Definition buildPlan (w : World) : World :=
  setPlan (planFor (todayKey (clock w))) w.

Definition ensurePlan (w : World) : World :=
  let dayKey := todayKey (clock w) in
  match planRef w with
  | None => buildPlan w
  | Some p => if String.eqb (day p) dayKey then w else buildPlan w
  end.

(** The amount [makeOneOrder] emits from [plan] for the noise draw [r]. *)
Definition sampleFor (plan : Plan) (r : Q) : Z :=
  let remainingOrders := ordersPlanned plan - ordersDone plan in
  let remainingMinor := Z.max 0 (targetSumMinor plan - producedMinor plan) in
  let expected :=
    if 0 <? remainingOrders then (inject_Z remainingMinor / inject_Z remainingOrders)%Q else 0%Q in
  let sample := Math.round (expected * ((7 # 10) + r * (6 # 10)))%Q in
  let minCents := 1 in
  let maxAllowed := Z.max minCents (remainingMinor - (remainingOrders - 1) * minCents) in
  let sample := if sample <? minCents then minCents else sample in
  let sample := if maxAllowed <? sample then maxAllowed else sample in
  sample.

Definition makeOneOrder (w : World) : World :=
  let w := ensurePlan w in
  match planRef w with
  | None => w
  | Some plan =>
      if ordersPlanned plan =? 0 then w
      else
        let remainingOrders := ordersPlanned plan - ordersDone plan in
        if remainingOrders <=? 0 then w
        else
          let (r, w) := random w in
          let sample := sampleFor plan r in
          let w := setPlan (mkPlan (day plan) (ordersPlanned plan) (ordersDone plan + 1)
                                   (targetSumMinor plan) (producedMinor plan + sample)) w in
          let (rp, w) := random w in
          let platIdx := Math.floor (rp * inject_Z (Z.of_nat (List.length platforms)))%Q in
          let platform := if platIdx <? 0 then None else nth_error platforms (Z.to_nat platIdx) in
          let (rs, w) := random w in
          let symbol := pickSymbol rs in
          let profitUsd := (inject_Z sample / 100)%Q in
          onOrder (mkOrder platform profitUsd symbol (getTime (clock w))) w
  end.

(** The delay draw of [scheduleNext] (the timer itself is the caller's
    next [timerFired]). *)
Definition scheduleNext (w : World) : World := snd (random w).

(** The callback [scheduleNext] arms. *)
Definition timerFired (w : World) : World :=
  if negb running || (investMinor <=? 0) then w
  else
    let w := ensurePlan w in
    match planRef w with
    | None => w
    | Some plan =>
        if ordersPlanned plan <=? ordersDone plan then w
        else scheduleNext (makeOneOrder w)
    end.

(** The effect on [running] and [investMinor]: make sure of the plan and,
    when running with something invested, arm the timer. *)
Definition runEffect (w : World) : World :=
  let w := ensurePlan w in
  if running && (0 <? investMinor) then scheduleNext w else w.

(** The once-a-minute day-rollover check. *)
Definition minuteCheck (w : World) : World :=
  let key := todayKey (clock w) in
  let stale := match planRef w with
               | None => true
               | Some p => negb (String.eqb (day p) key)
               end in
  if stale then
    let w := buildPlan w in
    if running && (0 <? investMinor) then scheduleNext w else w
  else w.

End Hook.

End Engine.

(** ** store/appStore.ts *)

Module Store.

Inductive EntryType : Type :=
| EARN | PAYOUT | COMMISSION | WITHDRAWAL_REQUEST | WITHDRAWAL_FEE | WITHDRAWAL_PAID | ADJUSTMENT.

Inductive CryptoSymbol : Type := BTC | ETH.

Inductive Direction : Type := CRYPTO_TO_USDT | USDT_TO_CRYPTO.

Record Wallet : Type := mkWallet {
  availableMinor : Z;
  pendingMinor : Z;
  currency : string;
  updatedAt : Z
}.

Record AssetBalances : Type := mkAssets {
  usdtMinor : Z;
  btc : Q;
  eth : Q
}.

(** The two shapes of [meta] the sources write. *)
Inductive Meta : Type :=
| CryptoMeta (amountCrypto fee : Q)
| OrderMeta (platform : option Engine.RunPlatform) (symbol : Engine.Symbol).

(** [LedgerEntry]; [createdAt] is the instant of its ISO string in epoch
    milliseconds, [entryCurrency] is its [currency] field. *)
Record LedgerEntry : Type := mkEntry {
  id : string;
  type : EntryType;
  amountMinor : Z;
  entryCurrency : string;
  createdAt : Z;
  refId : option string;
  meta : option Meta
}.

(** The fields of [AppState] the money actions read or write ([user],
    [monthTargetMinor] and [earningsSchedule] are touched by none of
    them). *)
Record AppState : Type := mkState {
  wallet : Wallet;
  assets : AssetBalances;
  accruedMinor : Z;
  ledger : list LedgerEntry
}.

Record Result : Type := mkResult {
  ok : bool;
  message : option string
}.

Definition success : Result := mkResult true None.
Definition failure (msg : string) : Result := mkResult false (Some msg).

Definition symbolName (s : CryptoSymbol) : string :=
  match s with BTC => "BTC" | ETH => "ETH" end.

(** [createId(prefix)]: [suffix] is the random base-36 tail. *)
Definition createId (prefix suffix : string) : string :=
  (prefix ++ "_" ++ suffix)%string.

(** The store as created: the demo wallet, holdings and accrued amount
    (the three seeded ledger rows are given by the caller, their ids and
    dates being drawn at load time). *)
Definition initialState (seedLedger : list LedgerEntry) (now : Z) : AppState :=
  mkState (mkWallet 12000 0 "USD" now)
          (mkAssets 12000 (Double.lit 15423 1000000) (Double.lit 4201 10000))
          4235
          seedLedger.

Section Actions.

(** [formatNowISO()] and the suffixes the successive [createId] calls of
    one action draw. *)
Variable now : Z.
Variable suffix : nat -> string.

Definition manualPayout (s : AppState) : AppState :=
  let accrued := accruedMinor s in
  let w := wallet s in
  if accrued <=? 0 then s
  else
    mkState (mkWallet (availableMinor w + accrued) (pendingMinor w) (currency w) now)
            (assets s)
            0
            (mkEntry (createId "l" (suffix 0)) PAYOUT accrued (currency w) now
                     (Some (createId "payout" (suffix 1))) None
             :: ledger s).

Definition requestWithdrawal (amountMinor : Z) (s : AppState) : Result * AppState :=
  let w := wallet s in
  if amountMinor <=? 0 then (failure "Invalid amount.", s)
  else if amountMinor >? availableMinor w then (failure "Insufficient balance.", s)
  else
    let feeMinor := Math.round (Double.mul (inject_Z amountMinor) (Double.lit 1 100)) in
    (success,
     mkState (mkWallet (availableMinor w - amountMinor - feeMinor)
                       (pendingMinor w + amountMinor) (currency w) now)
             (assets s)
             (accruedMinor s)
             (mkEntry (createId "l" (suffix 0)) WITHDRAWAL_REQUEST (- amountMinor) (currency w) now
                      (Some (createId "wd" (suffix 1))) None
              :: mkEntry (createId "l" (suffix 2)) WITHDRAWAL_FEE (- feeMinor) (currency w) now
                         (Some "fee"%string) None
              :: ledger s)).

Definition holding (symbol : CryptoSymbol) (a : AssetBalances) : Q :=
  match symbol with BTC => btc a | ETH => eth a end.

Definition setHolding (symbol : CryptoSymbol) (v : Q) (a : AssetBalances) : AssetBalances :=
  match symbol with
  | BTC => mkAssets (usdtMinor a) v (eth a)
  | ETH => mkAssets (usdtMinor a) (btc a) v
  end.

(** The tolerance [1e-12]. *)
Definition epsilon : Q := Double.lit 1 1000000000000.

Definition requestCryptoWithdrawal (symbol : CryptoSymbol) (amountCrypto : number Q)
           (s : AppState) : Result * AppState :=
  match amountCrypto with
  | NotFinite => (failure "Invalid amount.", s)
  | Finite amountCrypto =>
      if Qle_bool amountCrypto 0 then (failure "Invalid amount.", s)
      else
        let assets0 := assets s in
        let available := holding symbol assets0 in
        let fee := Double.mul amountCrypto (Double.lit 1 100) in
        let total := Double.add amountCrypto fee in
        if negb (Qle_bool total (Double.add available epsilon))
        then (failure ("Insufficient " ++ symbolName symbol ++ "."), s)
        else
          let assets1 := setHolding symbol (Math.max 0 (Double.sub available total)) assets0 in
          (success,
           mkState (wallet s) assets1 (accruedMinor s)
                   (mkEntry (createId "l" (suffix 0)) WITHDRAWAL_REQUEST 0 (symbolName symbol) now
                            (Some (createId ("wd_" ++ symbolName symbol) (suffix 1)))
                            (Some (CryptoMeta amountCrypto fee))
                    :: ledger s))
  end.

Record ExchangeParams : Type := mkParams {
  direction : Direction;
  symbol : CryptoSymbol;
  priceUsdtPerCrypto : number Q;
  amountCrypto : option (number Q);
  amountUsdtMinor : option (number Z)
}.

Definition exchange (params : ExchangeParams) (s : AppState) : Result * AppState :=
  let sym := symbol params in
  match priceUsdtPerCrypto params with
  | NotFinite => (failure "Invalid price.", s)
  | Finite price =>
      if Qle_bool price 0 then (failure "Invalid price.", s)
      else
        let assets0 := assets s in
        let w := wallet s in
        match direction params with
        | CRYPTO_TO_USDT =>
            match match amountCrypto params with Some a => a | None => Finite 0%Q end with
            | NotFinite => (failure "Invalid amount.", s)
            | Finite amt =>
                if Qle_bool amt 0 then (failure "Invalid amount.", s)
                else
                  let availableCrypto := holding sym assets0 in
                  if negb (Qle_bool amt (Double.add availableCrypto epsilon))
                  then (failure ("Insufficient " ++ symbolName sym ++ "."), s)
                  else
                    let usdtToAddMinor := Math.round (Double.mul (Double.mul amt price) 100) in
                    let assets1 := setHolding sym (Math.max 0 (Double.sub availableCrypto amt)) assets0 in
                    let assets2 := mkAssets (usdtMinor assets1 + usdtToAddMinor) (btc assets1) (eth assets1) in
                    let w1 := mkWallet (availableMinor w + usdtToAddMinor) (pendingMinor w) (currency w) now in
                    (success,
                     mkState w1 assets2 (accruedMinor s)
                             (mkEntry (createId "l" (suffix 0)) ADJUSTMENT usdtToAddMinor "USD" now
                                      (Some ("EX_" ++ symbolName sym ++ "_TO_USDT")%string) None
                              :: ledger s))
            end
        | USDT_TO_CRYPTO =>
            match match amountUsdtMinor params with Some a => a | None => Finite 0 end with
            | NotFinite => (failure "Invalid amount.", s)
            | Finite amtMinor =>
                if amtMinor <=? 0 then (failure "Invalid amount.", s)
                else if (amtMinor >? usdtMinor assets0) || (amtMinor >? availableMinor w)
                then (failure "Insufficient USDT.", s)
                else
                  let cryptoToAdd := Double.div (Double.div (inject_Z amtMinor) 100) price in
                  let assets1 := mkAssets (usdtMinor assets0 - amtMinor) (btc assets0) (eth assets0) in
                  let w1 := mkWallet (availableMinor w - amtMinor) (pendingMinor w) (currency w) now in
                  let assets2 := setHolding sym (Double.add (holding sym assets1) cryptoToAdd) assets1 in
                  (success,
                   mkState w1 assets2 (accruedMinor s)
                           (mkEntry (createId "l" (suffix 0)) ADJUSTMENT (- amtMinor) "USD" now
                                    (Some ("EX_USDT_TO_" ++ symbolName sym)%string) None
                            :: ledger s))
            end
        end
  end.

End Actions.

End Store.

(** ** pages/Run.tsx *)

Module RunPage.

Import Store.

(** The ledger half of the [onOrder] callback given to the engine:
    one EARN row per order, the wallet is not touched. *)
Definition onOrder (suffix : string) (o : Engine.OrderPayload) (s : AppState) : AppState :=
  let amountMinor := Math.round (Engine.profitUsd o * 100)%Q in
  mkState (wallet s) (assets s) (accruedMinor s)
          (mkEntry ("l_" ++ suffix) EARN amountMinor "USD" (Engine.ts o) (Some "run-order"%string)
                   (Some (OrderMeta (Engine.platform o) (Engine.symbol o)))
           :: ledger s).

End RunPage.

(** ** Local calendar days

    [isSameDay] and [startOfDay] of both components, for a local zone at a
    fixed offset from UTC: two instants have the same year, month and date
    exactly when they fall in the same local day number. *)

Module LocalDay.

Definition dayMs : Z := 24 * 60 * 60 * 1000.

(** LocalTZA(t, isUTC): local time minus UTC, in milliseconds, at the UTC
    instant [t] when [isUTC] is true and at the local time [t] when it is
    false. *)
Definition Zone : Type := Z -> bool -> Z.

(** A zone that never changes its clocks. *)
Definition fixed (offsetMs : Z) : Zone := fun _ _ => offsetMs.

Section Zone.

Variable tza : Zone.

(** LocalTime(t) and UTC(t). *)
Definition localTime (t : Z) : Z := t + tza t true.
Definition utc (t : Z) : Z := t - tza t false.

(** Day(LocalTime(t)): the local calendar date, as a count of days. *)
Definition localDay (t : Z) : Z := localTime t / dayMs.

(** Same year, month and day of the month. *)
Definition isSameDay (a b : Z) : bool := localDay a =? localDay b.

(** [new Date(y, m, d)] of a date: the instant of its local midnight. *)
Definition midnight (day : Z) : Z := utc (day * dayMs).

Definition startOfDay (d : Z) : Z := midnight (localDay d).

(** Local midnight is the first instant of its date: the instants from
    it on, and no others, have that date or a later one. *)
Definition orderly : Prop :=
  forall (day t : Z), day <= localDay t <-> midnight day <= t.

End Zone.

(** A zone that changes its clocks once, at the UTC instant [change],
    from the offset [before] to the offset [after].  A local time that the
    change skips or repeats is read with the offset before the change. *)
Definition clockChange (before after change : Z) : Zone :=
  fun t isUTC =>
    if isUTC then (if t <? change then before else after)
    else (if t <? change + Z.max before after then before else after).

(** New York around 10 March 2024, when 2:00 EST became 3:00 EDT at 7:00
    UTC, and around 3 November 2024, when 2:00 EDT became 1:00 EST at 6:00
    UTC. *)
Definition newYorkSpring2024 : Zone := clockChange (-18000000) (-14400000) 1710054000000.
Definition newYorkAutumn2024 : Zone := clockChange (-14400000) (-18000000) 1730613600000.

End LocalDay.

(** ** components/run/RunControlPanel.tsx *)

Module RunControlPanel.

Import Store.

(** The component state the two handlers write. *)
Record Panel : Type := mkPanel {
  running : bool;
  startedAt : Z
}.

(** A toast, by the i18n key of its text. *)
Inductive Toast : Type :=
| toastError (key : string)
| toastSuccess (key : string).

(** [parseInvestMinor], from the value [parseFloat(input)] gave; [None]
    is its NaN. *)
Definition parseInvestMinor (v : number Q) : option Z :=
  match v with
  | NotFinite => None
  | Finite v => if Qle_bool v 0 then None else Some (Math.round (Double.mul v 100))
  end.

Definition MIN_MAIN : Z := 100.
Definition MIN_MINOR : Z := MIN_MAIN * 100.

Definition doStop (p : Panel) (s : AppState) : Toast * Panel * AppState :=
  (toastSuccess "run.stopped", mkPanel false (startedAt p), s).

Section Start.

(** The [hasAddress] prop, [parseFloat(investInput)], the clock reading
    and the random tail of the ledger id. *)
Variable hasAddress : bool.
Variable investInput : number Q.
Variable now : Z.
Variable suffix : string.

Definition handleStart (p : Panel) (s : AppState) : Toast * Panel * AppState :=
  if negb hasAddress then (toastError "run.needAddress", p, s)
  else
    match parseInvestMinor investInput with
    | None => (toastError "run.investInvalid", p, s)
    | Some investMinor =>
        if investMinor <? MIN_MINOR then (toastError "run.min100", p, s)
        else if investMinor >? availableMinor (wallet s) then (toastError "run.investExceed", p, s)
        else
          let w := wallet s in
          let s' :=
            mkState (mkWallet (availableMinor w - investMinor) (pendingMinor w + investMinor)
                              (currency w) now)
                    (assets s) (accruedMinor s)
                    (mkEntry ("l_" ++ suffix) ADJUSTMENT (- investMinor) (currency w) now
                             (Some "run-invest"%string) None
                     :: ledger s) in
          (toastSuccess "run.running", mkPanel true now, s')
    end.

End Start.

End RunControlPanel.

(** ** components/WalletKPIGroup.tsx *)

Module WalletKPIGroup.

Import Store.

Inductive PayoutStatus : Type := SENT | PARTIAL | PENDING.

Record YesterdayNumbers : Type := mkNumbers {
  grossMinor : Z;
  feeMinor : Z;
  netMinor : Z;
  yesterdayDate : Z;
  today : Z
}.

Record PayoutInfo : Type := mkInfo {
  status : PayoutStatus;
  paidMinorToday : Z
}.

Definition isEarning (e : LedgerEntry) : bool :=
  match type e with EARN | COMMISSION => true | _ => false end.

Definition isPayout (e : LedgerEntry) : bool :=
  match type e with PAYOUT => true | _ => false end.

Section Zone.

Variable tza : LocalDay.Zone.

(** [now] is the instant [new Date()] reads. *)
Definition getYesterdayNumbers (now : Z) (ledger : list LedgerEntry) : YesterdayNumbers :=
  let today := now in
  let y := LocalDay.startOfDay tza today - 24 * 60 * 60 * 1000 in
  let grossMinor :=
    fold_left (fun sum e => sum + amountMinor e)
              (filter (fun e => isEarning e && LocalDay.isSameDay tza (createdAt e) y) ledger)
              0 in
  let feeMinor := Math.round (Double.mul (inject_Z grossMinor) (Double.lit 2 10)) in
  let netMinor := Z.max 0 (grossMinor - feeMinor) in
  mkNumbers grossMinor feeMinor netMinor y today.

Definition getYesterdayPayoutStatus (ledger : list LedgerEntry) (today : Z)
           (yesterdayNetMinor : Z) : PayoutInfo :=
  let paidMinorToday :=
    fold_left (fun s e => s + Z.max 0 (amountMinor e))
              (filter (fun e => isPayout e && LocalDay.isSameDay tza (createdAt e) today) ledger)
              0 in
  if (paidMinorToday >=? yesterdayNetMinor) && (yesterdayNetMinor >? 0)
  then mkInfo SENT paidMinorToday
  else if (paidMinorToday >? 0) && (paidMinorToday <? yesterdayNetMinor)
  then mkInfo PARTIAL paidMinorToday
  else mkInfo PENDING paidMinorToday.

(** The status the yesterday card shows for a ledger at instant [now]. *)
Definition yesterdayStatus (now : Z) (ledger : list LedgerEntry) : PayoutStatus :=
  let n := getYesterdayNumbers now ledger in
  status (getYesterdayPayoutStatus ledger (today n) (netMinor n)).

End Zone.

End WalletKPIGroup.

(** ** The operations of one session

    The handlers above, as the steps of one state machine over the panel
    and the store.  Every step comes with the clock reading and the random
    id tails its handler draws. *)

Module Session.

Import Store.

Record Env : Type := mkEnv {
  now : Z;
  suffix : nat -> string
}.

Inductive Op : Type :=
| StartRun (hasAddress : bool) (investInput : number Q)
| StopRun
| EmitOrder (o : Engine.OrderPayload)
| ManualPayout
| Withdraw (amountMinor : Z)
| CryptoWithdraw (symbol : CryptoSymbol) (amountCrypto : number Q)
| Exchange (params : ExchangeParams).

Definition State : Type := (RunControlPanel.Panel * AppState)%type.

Definition step (st : State) (eo : Env * Op) : State :=
  let (p, s) := st in
  let (env, op) := eo in
  match op with
  | StartRun hasAddress investInput =>
      let '(_, p', s') :=
        RunControlPanel.handleStart hasAddress investInput (now env) (suffix env 0%nat) p s in
      (p', s')
  | StopRun =>
      let '(_, p', s') := RunControlPanel.doStop p s in (p', s')
  | EmitOrder o => (p, RunPage.onOrder (suffix env 0%nat) o s)
  | ManualPayout => (p, manualPayout (now env) (suffix env) s)
  | Withdraw amountMinor => (p, snd (requestWithdrawal (now env) (suffix env) amountMinor s))
  | CryptoWithdraw symbol amountCrypto =>
      (p, snd (requestCryptoWithdrawal (now env) (suffix env) symbol amountCrypto s))
  | Exchange params => (p, snd (exchange (now env) (suffix env) params s))
  end.

Definition run (ops : list (Env * Op)) (st : State) : State := fold_left step ops st.

(** The balances the wallet and the holdings must keep non-negative. *)
Definition nonNegative (s : AppState) : Prop :=
  0 <= availableMinor (wallet s) /\ 0 <= pendingMinor (wallet s) /\
  0 <= usdtMinor (assets s) /\ (0 <= btc (assets s))%Q /\ (0 <= eth (assets s))%Q.

End Session.

(** ** A day of the engine

    The callbacks of the hook as events, with the clock moving between
    them. *)

Module EngineRun.

Import Engine.

Inductive Event : Type :=
| ClockTo (d : Date)
| EffectRan
| MakeOneOrder
| TimerFired
| MinuteCheck.

Section Hook.

Variable running : bool.
Variable investMinor : Z.
Variable platforms : list RunPlatform.

Definition step (w : World) (e : Event) : World :=
  match e with
  | ClockTo d => mkWorld d (randoms w) (planRef w) (emitted w)
  | EffectRan => runEffect running investMinor w
  | MakeOneOrder => makeOneOrder investMinor platforms w
  | TimerFired => timerFired running investMinor platforms w
  | MinuteCheck => minuteCheck running investMinor w
  end.

Definition run (es : list Event) (w : World) : World := fold_left step es w.

End Hook.

(** A plan with room: every order still to come can get one minor unit
    without passing the target. *)
Definition hasRoom (plan : Plan) : Prop :=
  0 <= ordersDone plan <= ordersPlanned plan /\
  producedMinor plan <= targetSumMinor plan /\
  ordersPlanned plan - ordersDone plan <= targetSumMinor plan - producedMinor plan.

(** [ordersDone] within [ordersPlanned], for the plan of a world. *)
Definition doneWithinPlanned (w : World) : Prop :=
  forall p, planRef w = Some p -> 0 <= ordersDone p <= ordersPlanned p.

(** The plan of a world plans no order. *)
Definition plansNothing (w : World) : Prop :=
  exists p, planRef w = Some p /\ ordersPlanned p = 0.

End EngineRun.

(** ** Definitions in the words of the specification

    The formulas of the design document, to be compared with what the
    sources compute. *)

Module Spec.

(** Monthly base rate and cap by capital tier (amount in major units). *)
Definition rateBand (amount : Q) : Q * Q :=
  if Qlt_le_dec amount 10000
  then (Double.lit 30 100, Double.lit 40 100)
  else (Double.lit 60 100, Double.lit 80 100).

(** The scaled amount: the whole part of amount x 100. *)
Definition scaledAmount (amount : Q) : Z := Math.floor (Double.mul amount 100).

(** The day jitter, a seeded value scaled into 0.9 .. 1.1. *)
Definition jitter (daySeed : Z) : Q :=
  Double.add (Double.lit 9 10) (Double.mul (Engine.seededRand01 daySeed) (Double.lit 2 10)).

(** min(cap, base x jitter). *)
Definition effectiveMonthlyRate (amount : Q) (daySeed : Z) : Q :=
  let (base, cap) := rateBand amount in
  Math.min cap (Double.mul base (jitter daySeed)).

(** round(investedAmount x effectiveMonthlyRate / 30 x 100), the
    operations taken from left to right. *)
Definition targetSumMinor (amount : Q) (daySeed : Z) : Z :=
  Math.round
    (Double.mul (Double.div (Double.mul amount (effectiveMonthlyRate amount daySeed)) 30) 100).

(** The sum of the signed amounts of the entries that satisfy [keep]. *)
Fixpoint sumWhere (keep : Store.LedgerEntry -> bool) (l : list Store.LedgerEntry) : Z :=
  match l with
  | [] => 0
  | e :: rest => (if keep e then Store.amountMinor e else 0) + sumWhere keep rest
  end.

(** The same sum with every negative amount counted as zero. *)
Fixpoint sumPositiveWhere (keep : Store.LedgerEntry -> bool) (l : list Store.LedgerEntry) : Z :=
  match l with
  | [] => 0
  | e :: rest => (if keep e then Z.max 0 (Store.amountMinor e) else 0) + sumPositiveWhere keep rest
  end.

(** fee = round(gross * 20%) and net = gross - fee. *)
Definition serviceFee (gross : Z) : Z :=
  Math.round (Double.mul (inject_Z gross) (Double.lit 20 100)).
Definition net (gross : Z) : Z := gross - serviceFee gross.


End Spec.

(** ** services/platforms.ts *)

Module Platforms.

Import Engine.

(** A value of type [unknown] as far as the module looks into it: an
    array, of whose items only the strings count, a string, or anything
    else, of which only the truthiness matters. *)
Inductive element : Type :=
| EString (s : string)
| EOther.

Inductive unknown : Type :=
| UArray (items : list element)
| UString (s : string)
| UOther (truthy : bool).

Definition truthy (u : unknown) : bool :=
  match u with
  | UArray _ => true
  | UString s => negb (String.eqb s "")
  | UOther b => b
  end.

Definition sup : list RunPlatform := [Binance; OKX; Bybit].

Definition platformName (p : RunPlatform) : string :=
  match p with Binance => "Binance" | OKX => "OKX" | Bybit => "Bybit" end.

(** The member of [sup] a name denotes, if [sup.includes(name)]. *)
Definition supported (name : string) : option RunPlatform :=
  find (fun p => String.eqb (platformName p) name) sup.

Definition samePlatform (a b : RunPlatform) : bool :=
  String.eqb (platformName a) (platformName b).

(** [set.add(name)] on a [Set] kept in insertion order. *)
Definition setAdd (p : RunPlatform) (set : list RunPlatform) : list RunPlatform :=
  if existsb (samePlatform p) set then set else set ++ [p].

Section Normalize.

(** [String.prototype.trim] and [JSON.parse] ([None] when it throws). *)
Variable trim : string -> string.
Variable parse : string -> option unknown.

(** One turn of the loop over the array. *)
Definition collect (set : list RunPlatform) (v : element) : list RunPlatform :=
  match v with
  | EString s =>
      match supported (trim s) with
      | Some p => setAdd p set
      | None => set
      end
  | EOther => set
  end.

Definition normalizePlatforms (arr : unknown) : list RunPlatform :=
  match arr with
  | UArray items =>
      let list := fold_left collect items [] in
      match list with [] => sup | _ => list end
  | _ => sup
  end.

(** [winList] is [window.__runPlatforms] ([None] for undefined) and [raw]
    is [localStorage.getItem('run_platforms')] ([None] for null). *)
Definition getRunPlatforms (winList : option unknown) (raw : option string) : list RunPlatform :=
  let fromStorage :=
    match raw with
    | Some r =>
        if negb (String.eqb r "") then
          match parse r with
          | Some arr => normalizePlatforms arr
          | None => [Binance; OKX; Bybit]
          end
        else [Binance; OKX; Bybit]
    | None => [Binance; OKX; Bybit]
    end in
  match winList with
  | Some w => if truthy w then normalizePlatforms w else fromStorage
  | None => fromStorage
  end.

(** A string item of the array names the platform [p] once trimmed. *)
Definition named (items : list element) (p : RunPlatform) : Prop :=
  exists s, In (EString s) items /\ supported (trim s) = Some p.

End Normalize.

End Platforms.

(** ** pages/Run.tsx, the list of orders on screen *)

Module RunList.

Import Engine.

Record Order : Type := mkItem {
  id : string;
  ts : Z;
  profit : Q;
  platform : option RunPlatform;
  symbol : Symbol
}.

Section List.

(** [+(x.toFixed(2))]. *)
Variable toFixed2 : Q -> Q.

(** The [setOrders] half of the [onOrder] callback; [mockId] is what
    [createMockId()] returns. *)
Definition pushOrder (prev : list Order) (mo : string * OrderPayload) : list Order :=
  let (mockId, o) := mo in
  let item := mkItem mockId (Engine.ts o) (toFixed2 (profitUsd o)) (Engine.platform o)
                     (Engine.symbol o) in
  let list := item :: prev in
  firstn 100 list.

(** The item the callback builds for an order. *)
Definition listed (mo : string * OrderPayload) : Order :=
  mkItem (fst mo) (Engine.ts (snd mo)) (toFixed2 (profitUsd (snd mo)))
         (Engine.platform (snd mo)) (Engine.symbol (snd mo)).

End List.



End RunList.

(** ** Events of one calendar day of the engine *)

Module EngineDay.

Import Engine EngineRun.

(** The clock, when it moves, stays on the day of key [key]. *)
Definition onDay (key : string) (e : Event) : Prop :=
  match e with
  | ClockTo d => todayKey d = key
  | _ => True
  end.


(** A string of decimal digits only, and the number it spells. *)
Fixpoint allDigits (s : string) : bool :=
  match s with
  | EmptyString => true
  | String c rest => match digitOf c with Some _ => allDigits rest | None => false end
  end.

Definition spelled (s : string) : Z :=
  match parseDigits s (Some 0) with Some v => v | None => 0 end.

(** [showInt z] is [width] digits that spell [z], also when read first. *)
Definition printsAs (width : nat) (pad : string -> string) (z : Z) : bool :=
  allDigits (pad (showInt z)) && Nat.eqb (String.length (pad (showInt z))) width
  && (spelled (pad (showInt z)) =? z)
  && match parseDigits (pad (showInt z)) None with Some v => v =? z | None => false end.

Definition upFrom (lo count : Z) : list Z :=
  map (fun k => lo + Z.of_nat k) (seq 0 (Z.to_nat count)).

(** The plan after one more order of [sample] minor units. *)
Definition advance (p : Plan) (sample : Z) : Plan :=
  mkPlan (day p) (ordersPlanned p) (ordersDone p + 1) (targetSumMinor p)
         (producedMinor p + sample).

(** What one event can do to a world [w] whose plan [p] is of the day
    the clock shows: nothing to the plan and the emitted orders, or the
    emission of one order [o]. *)
Definition quiet (w w' : World) : Prop :=
  planRef w' = planRef w /\ emitted w' = emitted w.

Definition emission (p : Plan) (w w' : World) : Prop :=
  ordersDone p < ordersPlanned p /\
  exists (sample : Z) (o : OrderPayload),
    1 <= sample <=
    Z.max 1 (Z.max 0 (targetSumMinor p - producedMinor p)
             - (ordersPlanned p - ordersDone p - 1) * 1) /\
    planRef w' = Some (advance p sample) /\
    emitted w' = o :: emitted w /\
    profitUsd o = (inject_Z sample / 100)%Q.


(** The plan is of the day [key] and has room. *)
Definition roomy (key : string) (w : World) : Prop :=
  todayKey (clock w) = key /\
  exists p : Plan, planRef w = Some p /\ day p = key /\ hasRoom p.

(** A date whose fields are a four-digit year, a month 0..11 and a day of
    month 1..31. *)
Definition calendarDate (d : Date) : Prop :=
  1000 <= getFullYear d <= 9999 /\ 0 <= getMonth d <= 11 /\ 1 <= getDate d <= 31.

End EngineDay.

(** ** components/run/RunControlPanel.tsx, the figures it derives *)

Module PanelView.

Import Store.

Inductive RateSign : Type := pos | neg | zero | none.

(** [yesterdayRatePct]; [None] is its NaN. *)
Definition yesterdayRatePct (runningBaseMinor yesterdayEarningsMinor : Z) : option Q :=
  if runningBaseMinor >? 0
  then Some (inject_Z yesterdayEarningsMinor / inject_Z runningBaseMinor * 100)%Q
  else None.

Definition rateSign (yesterdayRatePct : option Q) : RateSign :=
  match yesterdayRatePct with
  | Some r =>
      if negb (Qle_bool r 0) then pos
      else if negb (Qle_bool 0 r) then neg
      else zero
  | None => none
  end.

(** [showBelowMinTip]: [nonBlank] is [investInput.trim().length > 0] and
    [parsed] is [parseFloat(investInput)]. *)
Definition showBelowMinTip (nonBlank : bool) (parsed : number Q) : bool :=
  nonBlank &&
  match RunControlPanel.parseInvestMinor parsed with
  | Some investMinorCandidate => investMinorCandidate <? RunControlPanel.MIN_MINOR
  | None => false
  end.

(** [handleFillAll] followed by the [parseFloat] every reader of
    [investInput] starts with: the balance in major units, which two
    decimals write exactly. *)
Definition handleFillAll (s : AppState) : number Q :=
  Finite (Double.div (inject_Z (availableMinor (wallet s))) 100).

Section Zone.

Variable tza : LocalDay.Zone.

(** The loop over the ledger that adds up [todayEarningsMinor] and
    [yesterdayEarningsMinor], in this order. *)
Definition earnings (now : Z) (ledger : list LedgerEntry) : Z * Z :=
  let today := now in
  let yesterday := LocalDay.startOfDay tza today - 24 * 60 * 60 * 1000 in
  fold_left
    (fun (acc : Z * Z) (e : LedgerEntry) =>
       let (todayEarningsMinor, yesterdayEarningsMinor) := acc in
       let eligible := WalletKPIGroup.isEarning e in
       if negb eligible then acc
       else if LocalDay.isSameDay tza (createdAt e) today
       then (todayEarningsMinor + amountMinor e, yesterdayEarningsMinor)
       else if LocalDay.isSameDay tza (createdAt e) yesterday
       then (todayEarningsMinor, yesterdayEarningsMinor + amountMinor e)
       else acc)
    ledger (0, 0).

End Zone.

End PanelView.

(** ** components/WalletKPIGroup.tsx, the other figures *)

Module KPIView.

Import Store.

Definition isIncome (e : LedgerEntry) : bool :=
  match type e with EARN | COMMISSION | PAYOUT => true | _ => false end.

(** [totalEarningsMinor]; [visible] is [includes('total')]. *)
Definition totalEarningsMinor (visible : bool) (ledger : list LedgerEntry) : Z :=
  if visible
  then fold_left (fun sum e => sum + Z.max 0 (amountMinor e)) (filter isIncome ledger) 0
  else 0.

Inductive Kind : Type := pos | neg | neutral.

(** [PercentBadge]: the rate ([None] is NaN) and the style chosen by its
    sign. *)
Definition badgeRate (baseMinor netMinor : Z) : option Q :=
  if baseMinor >? 0 then Some (inject_Z netMinor / inject_Z baseMinor * 100)%Q else None.

Definition badgeKind (rate : option Q) : Kind :=
  match rate with
  | None => neutral
  | Some r =>
      if negb (Qle_bool r 0) then pos
      else if negb (Qle_bool 0 r) then neg
      else neutral
  end.

Section Zone.

Variable tza : LocalDay.Zone.

(** [todayEarningsMinor] and [yesterdayEarningsMinor]; the flags are
    [includes('today')] and [includes('yesterday')]. *)
Definition todayEarningsMinor (visible : bool) (now : Z) (ledger : list LedgerEntry) : Z :=
  let today := now in
  if visible
  then fold_left (fun sum e => sum + amountMinor e)
                 (filter (fun e => WalletKPIGroup.isEarning e
                                   && LocalDay.isSameDay tza (createdAt e) today) ledger)
                 0
  else 0.

Definition yesterdayEarningsMinor (visible : bool) (now : Z) (ledger : list LedgerEntry) : Z :=
  let today := now in
  let yesterday := LocalDay.startOfDay tza today - 24 * 60 * 60 * 1000 in
  if visible
  then fold_left (fun sum e => sum + amountMinor e)
                 (filter (fun e => WalletKPIGroup.isEarning e
                                   && LocalDay.isSameDay tza (createdAt e) yesterday) ledger)
                 0
  else 0.

End Zone.

End KPIView.

(** ** Ledger bookkeeping of a session *)

Module Books.

Import Store.

(** The rows that move [availableMinor]: all but the EARN rows. *)
Definition movesAvailable (e : LedgerEntry) : bool :=
  match type e with EARN => false | _ => true end.

(** What of [availableMinor] the ledger does not account for. *)
Definition unexplained (s : AppState) : Z :=
  availableMinor (wallet s) - Spec.sumWhere movesAvailable (ledger s).

(** [old] is what is left of [new] after dropping its newest rows. *)
Definition extends (old new : list LedgerEntry) : Prop :=
  exists added, new = added ++ old.

(** A fiat withdrawal request whose amount plus fee the balance covers
    (any other operation counts as covered), and a run all of whose
    requests are covered when they are made. *)
Definition covered (s : AppState) (op : Session.Op) : Prop :=
  match op with
  | Session.Withdraw amountMinor =>
      amountMinor + Math.round (Double.mul (inject_Z amountMinor) (Double.lit 1 100)) <= availableMinor (wallet s)
  | _ => True
  end.

Fixpoint allCovered (st : Session.State) (ops : list (Session.Env * Session.Op)) : Prop :=
  match ops with
  | [] => True
  | eo :: rest => covered (snd st) (snd eo) /\ allCovered (Session.step st eo) rest
  end.

(** The instant a row written by an operation is dated: the order's own
    [ts] for an emitted order, the clock reading for everything else. *)
Definition stamp (eo : Session.Env * Session.Op) : Z :=
  match snd eo with
  | Session.EmitOrder o => Engine.ts o
  | _ => Session.now (fst eo)
  end.

(** How far a payout has got. *)
Definition rank (st : WalletKPIGroup.PayoutStatus) : Z :=
  match st with
  | WalletKPIGroup.PENDING => 0
  | WalletKPIGroup.PARTIAL => 1
  | WalletKPIGroup.SENT => 2
  end.

End Books.

(** ** hooks/useAssistedCounts.ts *)

Module AssistedCounts.

(** [seededRandom01], the text of the engine's [seededRand01]. *)
Definition seededRandom01 (seed : Z) : Q := Qmake (Engine.seededWord seed) 4294967296.

Definition getDailyTargetTotal (index totalPlatforms daySeed : Z) : Z :=
  let hi := 2200%Q in
  let lo := 900%Q in
  let ratio := if totalPlatforms >? 1
               then Double.div (inject_Z index) (inject_Z (totalPlatforms - 1)) else 0%Q in
  let linear := Math.round (Double.sub hi (Double.mul (Double.sub hi lo) ratio)) in
  let noise := Double.add (Double.lit 9 10)
                          (Double.mul (seededRandom01 (daySeed + index * 97)) (Double.lit 2 10)) in
  Z.max 1 (Math.round (Double.mul (inject_Z linear) noise)).

Section Zone.

Variable tza : LocalDay.Zone.

Definition getLocalStartOfDay (ts : Z) : Z := LocalDay.startOfDay tza ts.

(** The two quotients are of integers below 2^53 by 60000 and by 10,
    which [Math.floor] floors exactly. *)
Definition getCurrentTenMinSlot (now : Z) : Z :=
  let sod := getLocalStartOfDay now in
  let passed := now - sod in
  let minutes := Math.floor (inject_Z passed / 60000)%Q in
  let slot := Math.floor (inject_Z minutes / 10)%Q in
  Z.min (Z.max slot 0) 144.

(** [Date.prototype.getMinutes], and [setMinutes(m, 0, 0)]: the local
    hour of the date with [m] minutes past it, carried over when [m] is
    60, taken back to UTC. *)
Definition getMinutes (d : Z) : Z := (LocalDay.localTime tza d / 60000) mod 60.

Definition setMinutes (d m : Z) : Z :=
  LocalDay.utc tza (LocalDay.localTime tza d / 3600000 * 3600000 + m * 60000).

Definition msToNextTenMinute (now : Z) : Z :=
  let m := getMinutes now in
  let next10 := Math.floor (inject_Z m / 10)%Q * 10 + 10 in
  let next := setMinutes now next10 in
  Z.max 0 (next - now).

(** The array [useAssistedCounts(count)] returns while the slot state is
    [slot] and the clock reads [now]. *)
Definition values (count : nat) (slot now : Z) : list Z :=
  let dayStart := getLocalStartOfDay now in
  let daySeed := Math.floor (inject_Z dayStart / 86400000)%Q * 131542 in
  let totalSlots := 144 in
  let progress := Math.min 1 (Math.max 0 (Double.div (inject_Z slot) (inject_Z totalSlots))) in
  map (fun i =>
         let dailyTarget := getDailyTargetTotal (Z.of_nat i) (Z.of_nat count) daySeed in
         Math.floor (Double.mul (inject_Z dailyTarget) progress))
      (seq 0 count).

End Zone.

End AssistedCounts.

(** * Properties *)

(** ** Arithmetic of the primitives *)

Section Primitives.

Lemma round_nonneg (x : Q) : (0 <= x)%Q -> 0 <= Math.round x.
Proof.
  intros Hx. unfold Math.round.
  change 0 with (Qfloor 0). apply Qfloor_resp_le. lra.
Qed.

Lemma round_comp (x y : Q) : (x == y)%Q -> Math.round x = Math.round y.
Proof. intros E. unfold Math.round. now rewrite E. Qed.

Lemma floor_nonneg (x : Q) : (0 <= x)%Q -> 0 <= Math.floor x.
Proof.
  intros Hx. unfold Math.floor.
  change 0 with (Qfloor 0). now apply Qfloor_resp_le.
Qed.


Lemma floor_unique (x : Q) (n : Z) :
  (inject_Z n <= x)%Q -> (x < inject_Z (n + 1))%Q -> Math.floor x = n.
Proof.
  intros Hlo Hhi. unfold Math.floor.
  pose proof (Qfloor_le x) as H1. pose proof (Qlt_floor x) as H2.
  assert (Qfloor x < n + 1) by (rewrite Zlt_Qlt; lra).
  assert (n < Qfloor x + 1) by (rewrite Zlt_Qlt; lra).
  lia.
Qed.

Lemma floor_inject (z : Z) : Math.floor (inject_Z z) = z.
Proof. apply Qfloor_Z. Qed.

Lemma max_nonneg (x : Q) : (0 <= Math.max 0 x)%Q.
Proof.
  unfold Math.max. destruct (Qle_bool 0 x) eqn:E.
  - now apply Qle_bool_iff.
  - lra.
Qed.

Lemma Qle_bool_false (a b : Q) : Qle_bool a b = false <-> (b < a)%Q.
Proof.
  split; intros H.
  - apply Qnot_le_lt. intros Hle. apply Qle_bool_iff in Hle. congruence.
  - destruct (Qle_bool a b) eqn:E; [apply Qle_bool_iff in E; lra | reflexivity].
Qed.

Lemma toUint32_range (z : Z) : 0 <= Int32.toUint32 z < Int32.two32.
Proof. unfold Int32.toUint32. apply Z.mod_pos_bound. reflexivity. Qed.

End Primitives.

(** ** Rounding to the nearest double *)

Section DoubleFacts.

Import Double.

Lemma pow2_pos (e : Z) : (0 < pow2 e)%Q.
Proof. apply Qpower_0_lt. reflexivity. Qed.

Lemma pow2_le (a b : Z) : a <= b -> (pow2 a <= pow2 b)%Q.
Proof. intros H. apply Qpower_le_compat_l; [exact H | discriminate]. Qed.

Lemma pow2_lt (a b : Z) : a < b -> (pow2 a < pow2 b)%Q.
Proof. intros H. apply Qpower_lt_compat_l; [exact H | reflexivity]. Qed.

Lemma pow2_add (a b : Z) : (pow2 (a + b) == pow2 a * pow2 b)%Q.
Proof. apply Qpower_plus. discriminate. Qed.

Lemma pow2_succ (a : Z) : (pow2 (a + 1) == 2 * pow2 a)%Q.
Proof. rewrite pow2_add. change (pow2 1) with 2%Q. ring. Qed.

Lemma pow2_Z (e : Z) : 0 <= e -> (pow2 e == inject_Z (2 ^ e))%Q.
Proof. intros H. unfold pow2. now rewrite Zpower_Qpower. Qed.

Lemma rne_bounds (x : Q) :
  (inject_Z (rne x) - (1 # 2) <= x)%Q /\ (x <= inject_Z (rne x) + (1 # 2))%Q.
Proof.
  unfold rne. pose proof (Qfloor_le x) as H1. pose proof (Qlt_floor x) as H2.
  rewrite inject_Z_plus in H2. change (inject_Z 1) with 1%Q in H2.
  destruct (Qcompare_spec (x - inject_Z (Qfloor x)) (1 # 2)) as [E|E|E].
  - destruct (Z.even (Qfloor x)).
    + split; lra.
    + rewrite inject_Z_plus. change (inject_Z 1) with 1%Q. split; lra.
  - split; lra.
  - rewrite inject_Z_plus. change (inject_Z 1) with 1%Q. split; lra.
Qed.

Lemma rne_comp (x y : Q) : (x == y)%Q -> rne x = rne y.
Proof.
  intros E. unfold rne.
  assert (F : Qfloor x = Qfloor y) by (apply Qfloor_comp; exact E).
  assert (C : (x - inject_Z (Qfloor x) ?= 1 # 2)%Q = (y - inject_Z (Qfloor y) ?= 1 # 2)%Q).
  { apply Qcompare_comp; [|reflexivity]. rewrite F. now rewrite E. }
  now rewrite C, F.
Qed.

Lemma rne_Z (k : Z) : rne (inject_Z k) = k.
Proof.
  unfold rne. rewrite Qfloor_Z.
  destruct (Qcompare_spec (inject_Z k - inject_Z k) (1 # 2)) as [E|E|E]; [lra | reflexivity | lra].
Qed.

Lemma rne_mono (x y : Q) : (x <= y)%Q -> rne x <= rne y.
Proof.
  intros H. destruct (Z_le_gt_dec (rne x) (rne y)) as [Hle|Hgt]; [exact Hle|].
  destruct (rne_bounds x) as [Hx _]. destruct (rne_bounds y) as [_ Hy].
  assert (Hz : (inject_Z (rne y) + 1 <= inject_Z (rne x))%Q).
  { change 1%Q with (inject_Z 1). rewrite <- inject_Z_plus, <- Zle_Qle. lia. }
  assert (E : (x == y)%Q) by lra.
  rewrite (rne_comp x y E). lia.
Qed.

Lemma floor_unique_Q (x : Q) (n : Z) :
  (inject_Z n <= x)%Q -> (x < inject_Z n + 1)%Q -> Qfloor x = n.
Proof.
  intros Hlo Hhi.
  pose proof (Qfloor_le x) as H1. pose proof (Qlt_floor x) as H2.
  rewrite inject_Z_plus in H2. change (inject_Z 1) with 1%Q in H2.
  assert (A : (inject_Z (Qfloor x) < inject_Z (n + 1))%Q)
    by (rewrite inject_Z_plus; change (inject_Z 1) with 1%Q; lra).
  assert (B : (inject_Z n < inject_Z (Qfloor x + 1))%Q)
    by (rewrite inject_Z_plus; change (inject_Z 1) with 1%Q; lra).
  rewrite <- Zlt_Qlt in A, B. lia.
Qed.

Lemma inject_Z_sub (a b : Z) : (inject_Z (a - b) == inject_Z a - inject_Z b)%Q.
Proof. unfold Z.sub. rewrite inject_Z_plus, inject_Z_opp. reflexivity. Qed.

Lemma rne_opp (x : Q) : rne (- x) = - rne x.
Proof.
  pose proof (Qfloor_le x) as H1. pose proof (Qlt_floor x) as H2.
  rewrite inject_Z_plus in H2. change (inject_Z 1) with 1%Q in H2.
  destruct (Qeq_dec x (inject_Z (Qfloor x))) as [E|N].
  - rewrite (rne_comp x _ E), rne_Z.
    assert (E' : (- x == inject_Z (- Qfloor x))%Q) by (rewrite inject_Z_opp; lra).
    now rewrite (rne_comp _ _ E'), rne_Z.
  - assert (Hlt : (inject_Z (Qfloor x) < x)%Q) by (apply Qle_lteq in H1; destruct H1 as [H|H]; [exact H | symmetry in H; contradiction]).
    assert (F : Qfloor (- x) = - Qfloor x - 1).
    { apply floor_unique_Q.
      - rewrite inject_Z_sub, inject_Z_opp. change (inject_Z 1) with 1%Q. lra.
      - rewrite inject_Z_sub, inject_Z_opp. change (inject_Z 1) with 1%Q. lra. }
    unfold rne. rewrite F.
    assert (I : (inject_Z (- Qfloor x - 1) == - inject_Z (Qfloor x) - 1)%Q).
    { rewrite inject_Z_sub, inject_Z_opp. change (inject_Z 1) with 1%Q. ring. }
    destruct (Qcompare_spec (x - inject_Z (Qfloor x)) (1 # 2)) as [E|E|E];
      destruct (Qcompare_spec (- x - inject_Z (- Qfloor x - 1)) (1 # 2)) as [E'|E'|E'];
      rewrite I in E'; try lra.
    + rewrite Z.even_sub, Z.even_opp. change (Z.even 1) with false.
      destruct (Z.even (Qfloor x)); cbn; lia.
    + lia.
    + lia.
Qed.

Lemma Qmake_as_div (n : Z) (d : positive) : (n # d == inject_Z n / inject_Z (Z.pos d))%Q.
Proof. apply Qmake_Qdiv. Qed.

Lemma ilog2_spec (x : Q) :
  (0 < x)%Q -> (pow2 (ilog2 x) <= x)%Q /\ (x < pow2 (ilog2 x + 1))%Q.
Proof.
  intros Hx. destruct x as [n d]. unfold ilog2. cbn [Qnum Qden].
  assert (Hn : 0 < n) by (unfold Qlt in Hx; cbn in Hx; lia).
  pose proof (Z.log2_spec n Hn) as [Ln Un].
  pose proof (Z.log2_spec (Z.pos d) (Pos2Z.is_pos d)) as [Ld Ud].
  pose proof (Z.log2_nonneg n) as Pa. pose proof (Z.log2_nonneg (Z.pos d)) as Pb.
  set (a := Z.log2 n) in *. set (b := Z.log2 (Z.pos d)) in *.
  rewrite Zle_Qle in Ln, Ld. rewrite Zlt_Qlt in Un, Ud.
  rewrite <- (pow2_Z a Pa) in Ln. rewrite <- (pow2_Z b Pb) in Ld.
  rewrite <- (pow2_Z (Z.succ a)) in Un by lia. rewrite <- (pow2_Z (Z.succ b)) in Ud by lia.
  unfold Z.succ in Un, Ud. rewrite pow2_succ in Un, Ud.
  assert (Ek : (pow2 (a - b) * pow2 b == pow2 a)%Q).
  { rewrite <- pow2_add. now replace (a - b + b) with a by lia. }
  assert (Ex : ((n # d) * inject_Z (Z.pos d) == inject_Z n)%Q).
  { rewrite Qmake_as_div. field. intros E. apply (Qlt_irrefl 0).
    rewrite <- E at 2. change 0%Q with (inject_Z 0). now rewrite <- Zlt_Qlt. }
  pose proof (pow2_pos a) as PA. pose proof (pow2_pos b) as PB. pose proof (pow2_pos (a - b)) as PK.
  assert (PD : (0 < inject_Z (Z.pos d))%Q) by (change 0%Q with (inject_Z 0); now rewrite <- Zlt_Qlt).
  set (X := (n # d)%Q) in *. set (D := inject_Z (Z.pos d)) in *. set (N := inject_Z n) in *.
  set (A := pow2 a) in *. set (B := pow2 b) in *. set (K := pow2 (a - b)) in *.
  assert (Up : (X < 2 * K)%Q).
  { apply (Qmult_lt_r _ _ (D * B)); [nra|].
    setoid_replace (X * (D * B))%Q with (N * B)%Q by (rewrite <- Ex; ring).
    setoid_replace (2 * K * (D * B))%Q with (2 * A * D)%Q by (rewrite <- Ek; ring).
    nra. }
  assert (Lo : (K < 2 * X)%Q).
  { apply (Qmult_lt_r _ _ (D * B)); [nra|].
    setoid_replace (2 * X * (D * B))%Q with (2 * N * B)%Q by (rewrite <- Ex; ring).
    setoid_replace (K * (D * B))%Q with (A * D)%Q by (rewrite <- Ek; ring).
    nra. }
  destruct (Qle_bool K X) eqn:E.
  - apply Qle_bool_iff in E. split; [exact E|]. fold (pow2 (a - b + 1)). rewrite pow2_succ. exact Up.
  - assert (E' : (X < K)%Q).
    { apply Qnot_le_lt. intros H. apply Qle_bool_iff in H. congruence. }
    replace (a - b - 1 + 1) with (a - b) by lia. split; [|exact E'].
    assert (Ek1 : (pow2 (a - b) == 2 * pow2 (a - b - 1))%Q).
    { rewrite <- pow2_succ. now replace (a - b - 1 + 1) with (a - b) by lia. }
    fold K in Ek1. lra.
Qed.

Lemma pow2_lt_inv (a b : Z) : (pow2 a < pow2 b)%Q -> a < b.
Proof. intros H. apply (Qpower_lt_compat_l_inv 2); [exact H | reflexivity]. Qed.

Lemma ilog2_unique (x : Q) (k : Z) :
  (pow2 k <= x)%Q -> (x < pow2 (k + 1))%Q -> ilog2 x = k.
Proof.
  intros Hlo Hhi.
  assert (Hx : (0 < x)%Q) by (pose proof (pow2_pos k); lra).
  destruct (ilog2_spec x Hx) as [Slo Shi].
  assert (A : ilog2 x < k + 1) by (apply pow2_lt_inv; lra).
  assert (B : k < ilog2 x + 1) by (apply pow2_lt_inv; lra).
  lia.
Qed.

Lemma ilog2_comp (x y : Q) : (0 < x)%Q -> (x == y)%Q -> ilog2 x = ilog2 y.
Proof.
  intros Hx E. destruct (ilog2_spec x Hx) as [Slo Shi].
  symmetry. apply ilog2_unique; rewrite <- E; assumption.
Qed.

Lemma ilog2_mono (x y : Q) : (0 < x)%Q -> (x <= y)%Q -> ilog2 x <= ilog2 y.
Proof.
  intros Hx H. destruct (ilog2_spec x Hx) as [Slo _].
  destruct (ilog2_spec y) as [_ Shi]; [lra|].
  assert (A : ilog2 x < ilog2 y + 1) by (apply pow2_lt_inv; lra). lia.
Qed.

Lemma Qabs_pos_lt (x : Q) : ~ (x == 0)%Q -> (0 < Qabs x)%Q.
Proof.
  intros N. pose proof (Qabs_nonneg x) as H.
  apply Qle_lteq in H. destruct H as [H|H]; [exact H|].
  exfalso. apply N. symmetry in H.
  apply Qabs_Qle_condition with (y := 0%Q) in H || idtac.
  destruct (Qlt_le_dec x 0) as [L|L].
  - rewrite Qabs_neg in H by lra. lra.
  - rewrite Qabs_pos in H by lra. lra.
Qed.

Lemma expOf_comp (x y : Q) : ~ (x == 0)%Q -> (x == y)%Q -> expOf x = expOf y.
Proof.
  intros N E. unfold expOf. f_equal. f_equal.
  apply ilog2_comp; [now apply Qabs_pos_lt | now rewrite E].
Qed.

Lemma expOf_pos (x : Q) : (0 < x)%Q -> expOf x = Z.max (ilog2 x - 52) (-1074).
Proof.
  intros Hx. unfold expOf. f_equal. f_equal.
  apply ilog2_comp; [apply Qabs_pos_lt; lra | apply Qabs_pos; lra].
Qed.

Lemma rnd_zero (x : Q) : (x == 0)%Q -> rnd x = 0%Q.
Proof.
  intros E. unfold rnd. apply Qeq_bool_iff in E. now rewrite E.
Qed.

Lemma rnd_val (x : Q) :
  ~ (x == 0)%Q -> (rnd x == inject_Z (rne (x / pow2 (expOf x))) * pow2 (expOf x))%Q.
Proof.
  intros N. unfold rnd. destruct (Qeq_bool x 0) eqn:E.
  - apply Qeq_bool_iff in E. contradiction.
  - apply Qred_correct.
Qed.

Lemma rnd_comp (x y : Q) : (x == y)%Q -> rnd x = rnd y.
Proof.
  intros E. destruct (Qeq_dec x 0) as [Hz|N].
  - rewrite (rnd_zero x Hz), (rnd_zero y); [reflexivity | now rewrite <- E].
  - assert (Ny : ~ (y == 0)%Q) by (now rewrite <- E).
    unfold rnd.
    destruct (Qeq_bool x 0) eqn:Ex; [apply Qeq_bool_iff in Ex; contradiction|].
    destruct (Qeq_bool y 0) eqn:Ey; [apply Qeq_bool_iff in Ey; contradiction|].
    apply Qred_complete. rewrite (expOf_comp x y N E).
    assert (T : (x / pow2 (expOf y) == y / pow2 (expOf y))%Q) by (now rewrite E).
    now rewrite (rne_comp _ _ T).
Qed.

Lemma rnd_within (x : Q) :
  (x - pow2 (expOf x) * (1 # 2) <= rnd x)%Q /\ (rnd x <= x + pow2 (expOf x) * (1 # 2))%Q.
Proof.
  pose proof (pow2_pos (expOf x)) as HP.
  destruct (Qeq_dec x 0) as [Hz|N].
  - rewrite (rnd_zero x Hz). split; lra.
  - rewrite (rnd_val x N).
    destruct (rne_bounds (x / pow2 (expOf x))) as [Lo Hi].
    set (P := pow2 (expOf x)) in *. set (R := inject_Z (rne (x / P))) in *.
    assert (Ex : (x == x / P * P)%Q) by (field; lra).
    set (t := (x / P)%Q) in *.
    assert (A : (0 <= (R + (1 # 2) - t) * P)%Q) by (apply Qmult_le_0_compat; lra).
    assert (B : (0 <= (t - (R - (1 # 2))) * P)%Q) by (apply Qmult_le_0_compat; lra).
    split; nra.
Qed.

(** Away from the subnormal range the error is at most 2^-53 of the
    value. *)
Lemma rnd_near (x : Q) :
  (pow2 (-1022) <= x)%Q ->
  (x * (1 - pow2 (-53)) <= rnd x)%Q /\ (rnd x <= x * (1 + pow2 (-53)))%Q.
Proof.
  intros Hx. pose proof (pow2_pos (-1022)) as H0.
  assert (Px : (0 < x)%Q) by lra.
  destruct (ilog2_spec x Px) as [Slo Shi].
  assert (HE : -1022 <= ilog2 x).
  { assert (A : -1022 < ilog2 x + 1) by (apply pow2_lt_inv; lra). lia. }
  destruct (rnd_within x) as [Lo Hi].
  rewrite (expOf_pos x Px) in Lo, Hi.
  rewrite Z.max_l in Lo, Hi by lia.
  assert (EP : (pow2 (ilog2 x - 52) * (1 # 2) == pow2 (ilog2 x) * pow2 (-53))%Q).
  { replace (ilog2 x - 52) with (ilog2 x + -53 + 1) by lia.
    rewrite pow2_succ, pow2_add. ring. }
  rewrite EP in Lo, Hi.
  pose proof (pow2_pos (-53)) as H53.
  set (P := pow2 (ilog2 x)) in *. set (u := pow2 (-53)) in *.
  split; nra.
Qed.

Lemma rnd_nonneg (x : Q) : (0 <= x)%Q -> (0 <= rnd x)%Q.
Proof.
  intros Hx. destruct (Qeq_dec x 0) as [Hz|N].
  - rewrite (rnd_zero x Hz). lra.
  - rewrite (rnd_val x N). pose proof (pow2_pos (expOf x)) as HP.
    assert (T : (0 <= x / pow2 (expOf x))%Q).
    { apply Qle_shift_div_l; [exact HP | lra]. }
    pose proof (rne_mono (inject_Z 0) _ T) as R. rewrite (rne_Z 0) in R.
    rewrite Zle_Qle in R. change (inject_Z 0) with 0%Q in R.
    apply Qmult_le_0_compat; lra.
Qed.

Lemma rnd_opp (x : Q) : (rnd (- x) == - rnd x)%Q.
Proof.
  destruct (Qeq_dec x 0) as [Hz|N].
  - rewrite (rnd_zero x Hz), (rnd_zero (- x)); [reflexivity | rewrite Hz; reflexivity].
  - assert (N' : ~ (- x == 0)%Q) by (intros E; apply N; lra).
    rewrite (rnd_val x N), (rnd_val (- x) N').
    assert (EE : expOf (- x) = expOf x).
    { unfold expOf. f_equal. f_equal.
      apply ilog2_comp; [now apply Qabs_pos_lt | apply Qabs_opp]. }
    rewrite EE.
    pose proof (pow2_pos (expOf x)) as HP.
    assert (T : (- x / pow2 (expOf x) == - (x / pow2 (expOf x)))%Q) by (field; lra).
    rewrite (rne_comp _ _ T), rne_opp, inject_Z_opp. ring.
Qed.

Lemma rnd_mono_pos (x y : Q) : (0 < x)%Q -> (x <= y)%Q -> (rnd x <= rnd y)%Q.
Proof.
  intros Px H. assert (Py : (0 < y)%Q) by lra.
  assert (Nx : ~ (x == 0)%Q) by lra. assert (Ny : ~ (y == 0)%Q) by lra.
  rewrite (rnd_val x Nx), (rnd_val y Ny), (expOf_pos x Px), (expOf_pos y Py).
  pose proof (ilog2_mono x y Px H) as HE.
  destruct (ilog2_spec x Px) as [_ Xhi]. destruct (ilog2_spec y Py) as [Ylo _].
  set (Ex := ilog2 x) in *. set (Ey := ilog2 y) in *.
  set (ex := Z.max (Ex - 52) (-1074)). set (ey := Z.max (Ey - 52) (-1074)).
  pose proof (pow2_pos ex) as Pex. pose proof (pow2_pos ey) as Pey.
  destruct (Z.eq_dec ex ey) as [Eq|Ne].
  - rewrite <- Eq.
    assert (T : (x / pow2 ex <= y / pow2 ex)%Q).
    { apply Qle_shift_div_l; [exact Pex|].
      setoid_replace (x / pow2 ex * pow2 ex)%Q with x by (field; lra). exact H. }
    pose proof (rne_mono _ _ T) as R. rewrite Zle_Qle in R.
    apply Qmult_le_compat_r; [exact R | lra].
  - assert (Hlt : ex < ey) by lia.
    assert (Hey : ey = Ey - 52) by lia.
    set (M := Z.max (Ex + 1 - ex) 0).
    assert (HM : 0 <= M) by lia.
    assert (Ux : (inject_Z (rne (x / pow2 ex)) * pow2 ex <= pow2 (M + ex))%Q).
    { assert (T : (x / pow2 ex <= inject_Z (2 ^ M))%Q).
      { rewrite <- (pow2_Z M HM). apply Qle_shift_div_r; [exact Pex|].
        rewrite <- pow2_add.
        apply Qle_trans with (pow2 (Ex + 1)); [lra | apply pow2_le; lia]. }
      pose proof (rne_mono _ _ T) as R. rewrite rne_Z, Zle_Qle in R.
      rewrite <- (pow2_Z M HM) in R. rewrite pow2_add.
      apply Qmult_le_compat_r; [exact R | lra]. }
    assert (Ly : (pow2 Ey <= inject_Z (rne (y / pow2 ey)) * pow2 ey)%Q).
    { assert (T : (inject_Z (2 ^ 52) <= y / pow2 ey)%Q).
      { rewrite <- (pow2_Z 52) by lia. apply Qle_shift_div_l; [exact Pey|].
        rewrite <- pow2_add. replace (52 + ey) with Ey by lia. exact Ylo. }
      pose proof (rne_mono _ _ T) as R. rewrite rne_Z, Zle_Qle in R.
      rewrite <- (pow2_Z 52) in R by lia.
      replace Ey with (52 + ey) at 1 by lia. rewrite pow2_add.
      apply Qmult_le_compat_r; [exact R | lra]. }
    apply Qle_trans with (pow2 (M + ex)); [exact Ux|].
    apply Qle_trans with (pow2 Ey); [apply pow2_le; lia | exact Ly].
Qed.

Lemma rnd_mono (x y : Q) : (x <= y)%Q -> (rnd x <= rnd y)%Q.
Proof.
  intros H. destruct (Qlt_le_dec 0 x) as [Px|Nx].
  - now apply rnd_mono_pos.
  - destruct (Qlt_le_dec y 0) as [Ny|Py].
    + assert (M : (rnd (- y) <= rnd (- x))%Q) by (apply rnd_mono_pos; lra).
      rewrite !rnd_opp in M. lra.
    + assert (A : (0 <= rnd y)%Q) by now apply rnd_nonneg.
      assert (B : (0 <= rnd (- x))%Q) by (apply rnd_nonneg; lra).
      rewrite rnd_opp in B. lra.
Qed.

Lemma pow2_le_inv (a b : Z) : (pow2 a <= pow2 b)%Q -> a <= b.
Proof.
  intros H. destruct (Z_le_gt_dec a b) as [L|G]; [exact L|].
  assert (pow2 b < pow2 a)%Q by (apply pow2_lt; lia). lra.
Qed.

Lemma pow2_nonzero (e : Z) : ~ (pow2 e == 0)%Q.
Proof. pose proof (pow2_pos e). lra. Qed.

(** A multiple of its own unit in the last place is a double. *)
Lemma rnd_fixed (y : Q) (m : Z) : (y == inject_Z m * pow2 (expOf y))%Q -> (rnd y == y)%Q.
Proof.
  intros E. destruct (Qeq_dec y 0) as [Hz|N].
  - rewrite (rnd_zero y Hz). now rewrite Hz.
  - rewrite (rnd_val y N).
    assert (T : (y / pow2 (expOf y) == inject_Z m)%Q).
    { rewrite E at 1. field. apply pow2_nonzero. }
    rewrite (rne_comp _ _ T), rne_Z. now rewrite <- E.
Qed.

Lemma rnd_idem_pos (x : Q) : (0 < x)%Q -> (rnd (rnd x) == rnd x)%Q.
Proof.
  intros Px.
  assert (N : ~ (x == 0)%Q) by lra.
  pose proof (rnd_val x N) as V.
  pose proof (expOf_pos x Px) as Ee.
  destruct (ilog2_spec x Px) as [Slo Shi].
  set (k := ilog2 x) in *. set (e := expOf x) in *.
  pose proof (pow2_pos e) as Pe.
  set (m := rne (x / pow2 e)) in *.
  assert (M0 : 0 <= m).
  { assert (T : (inject_Z 0 <= x / pow2 e)%Q).
    { change (inject_Z 0) with 0%Q. apply Qle_shift_div_l; [exact Pe | lra]. }
    pose proof (rne_mono _ _ T) as R. now rewrite rne_Z in R. }
  destruct (Z.eq_dec m 0) as [Mz|Mnz].
  - assert (Y0 : (rnd x == 0)%Q) by (rewrite V, Mz; change (inject_Z 0) with 0%Q; ring).
    rewrite (rnd_zero _ Y0). now rewrite Y0.
  - assert (M1 : 1 <= m) by lia.
    assert (M1q : (1 <= inject_Z m)%Q)
      by (change 1%Q with (inject_Z 1); now rewrite <- Zle_Qle).
    destruct (Z_le_gt_dec (-1074) (k - 52)) as [Hn|Hs].
    + (* normal range *)
      assert (He : e = k - 52) by lia.
      assert (Lo : (inject_Z (2 ^ 52) <= x / pow2 e)%Q).
      { rewrite <- (pow2_Z 52) by lia. apply Qle_shift_div_l; [exact Pe|].
        rewrite <- pow2_add. replace (52 + e) with k by lia. exact Slo. }
      assert (Hi : (x / pow2 e <= inject_Z (2 ^ 53))%Q).
      { rewrite <- (pow2_Z 53) by lia. apply Qle_shift_div_r; [exact Pe|].
        rewrite <- pow2_add. replace (53 + e) with (k + 1) by lia. lra. }
      pose proof (rne_mono _ _ Lo) as R1. rewrite rne_Z in R1. fold m in R1.
      pose proof (rne_mono _ _ Hi) as R2. rewrite rne_Z in R2. fold m in R2.
      destruct (Z.eq_dec m (2 ^ 53)) as [Mtop|Mlow].
      * assert (Y : (rnd x == pow2 (k + 1))%Q).
        { rewrite V, Mtop, <- (pow2_Z 53), <- pow2_add by lia.
          replace (53 + e) with (k + 1) by lia. reflexivity. }
        assert (Iy : ilog2 (rnd x) = k + 1).
        { apply ilog2_unique; rewrite Y; [lra|]. apply pow2_lt. lia. }
        assert (Py : (0 < rnd x)%Q) by (rewrite Y; apply pow2_pos).
        apply (rnd_fixed _ (2 ^ 52)).
        rewrite (expOf_pos _ Py), Iy, Z.max_l by lia.
        rewrite Y, <- (pow2_Z 52), <- pow2_add by lia.
        replace (52 + (k + 1 - 52)) with (k + 1) by lia. reflexivity.
      * assert (Ylo : (pow2 k <= rnd x)%Q).
        { rewrite V. replace k with (52 + e) by lia. rewrite pow2_add, (pow2_Z 52) by lia.
          apply Qmult_le_compat_r; [|lra]. now rewrite <- Zle_Qle. }
        assert (Yhi : (rnd x < pow2 (k + 1))%Q).
        { rewrite V. replace (k + 1) with (53 + e) by lia. rewrite pow2_add, (pow2_Z 53) by lia.
          apply Qmult_lt_compat_r; [exact Pe|]. rewrite <- Zlt_Qlt. lia. }
        assert (Iy : ilog2 (rnd x) = k) by (now apply ilog2_unique).
        assert (Py : (0 < rnd x)%Q) by (pose proof (pow2_pos k); lra).
        apply (rnd_fixed _ m).
        rewrite (expOf_pos _ Py), Iy. fold k in Ee. rewrite <- Ee. exact V.
    + (* subnormal range *)
      assert (He : e = -1074) by lia.
      assert (Hi : (x / pow2 e <= inject_Z (2 ^ 52))%Q).
      { rewrite <- (pow2_Z 52) by lia. apply Qle_shift_div_r; [exact Pe|].
        rewrite <- pow2_add.
        apply Qle_trans with (pow2 (k + 1)); [lra | apply pow2_le; lia]. }
      pose proof (rne_mono _ _ Hi) as R2. rewrite rne_Z in R2. fold m in R2.
      assert (Py : (0 < rnd x)%Q).
      { rewrite V. apply Qmult_lt_0_compat; [lra | exact Pe]. }
      assert (Yhi : (rnd x <= pow2 (-1022))%Q).
      { rewrite V. replace (-1022) with (52 + e) by lia. rewrite pow2_add, (pow2_Z 52) by lia.
        apply Qmult_le_compat_r; [|lra]. now rewrite <- Zle_Qle. }
      destruct (ilog2_spec _ Py) as [Ylo _].
      assert (Iy : ilog2 (rnd x) <= -1022) by (apply pow2_le_inv; lra).
      apply (rnd_fixed _ m).
      rewrite (expOf_pos _ Py), Z.max_r by lia. rewrite <- He. exact V.
Qed.

(** Rounding a double gives the double back. *)
Lemma rnd_idem (x : Q) : (rnd (rnd x) == rnd x)%Q.
Proof.
  destruct (Qlt_le_dec 0 x) as [P|NP]; [now apply rnd_idem_pos|].
  destruct (Qeq_dec x 0) as [Hz|N].
  - rewrite (rnd_zero x Hz). reflexivity.
  - assert (P : (0 < - x)%Q) by lra.
    pose proof (rnd_idem_pos _ P) as I.
    pose proof (rnd_opp x) as O.
    assert (E : (rnd x == - rnd (- x))%Q) by lra.
    rewrite (rnd_comp _ _ E), rnd_opp, I. lra.
Qed.

(** The error of one rounding of a value that is not negative: at most
    2^-53 of the value, or 2^-1075 in the subnormal range. *)
Lemma rnd_abs (d : Q) :
  (0 <= d)%Q ->
  (d - (d * pow2 (-53) + pow2 (-1075)) <= rnd d)%Q /\
  (rnd d <= d + (d * pow2 (-53) + pow2 (-1075)))%Q.
Proof.
  intros Hd. pose proof (pow2_pos (-53)) as U. pose proof (pow2_pos (-1075)) as S.
  destruct (Qeq_dec d 0) as [Hz|N].
  - rewrite (rnd_zero d Hz). rewrite Hz. split; lra.
  - assert (Pd : (0 < d)%Q) by lra.
    destruct (rnd_within d) as [Lo Hi]. rewrite (expOf_pos d Pd) in Lo, Hi.
    destruct (ilog2_spec d Pd) as [Slo _].
    destruct (Z_le_gt_dec (-1074) (ilog2 d - 52)) as [Hn|Hs].
    + rewrite Z.max_l in Lo, Hi by lia.
      assert (EP : (pow2 (ilog2 d - 52) * (1 # 2) == pow2 (ilog2 d) * pow2 (-53))%Q).
      { replace (ilog2 d - 52) with (ilog2 d + -53 + 1) by lia.
        rewrite pow2_succ, pow2_add. ring. }
      rewrite EP in Lo, Hi.
      set (P := pow2 (ilog2 d)) in *. set (u := pow2 (-53)) in *.
      assert (A : (0 <= (d - P) * u)%Q) by (apply Qmult_le_0_compat; lra).
      split; lra.
    + rewrite Z.max_r in Lo, Hi by lia.
      assert (EP : (pow2 (-1074) * (1 # 2) == pow2 (-1075))%Q).
      { replace (-1074) with (-1075 + 1) by lia. rewrite pow2_succ. ring. }
      rewrite EP in Lo, Hi.
      assert (A : (0 <= d * pow2 (-53))%Q) by (apply Qmult_le_0_compat; lra).
      split; lra.
Qed.

(** Every double is a whole multiple of its unit in the last place. *)
Lemma rnd_grid (x : Q) : (0 < x)%Q -> exists m : Z, (rnd x == inject_Z m * pow2 (expOf (rnd x)))%Q.
Proof.
  intros Px. pose proof (rnd_idem_pos x Px) as I.
  destruct (Qeq_dec (rnd x) 0) as [Hz|N].
  - exists 0. rewrite Hz at 1. change (inject_Z 0) with 0%Q. ring.
  - exists (rne (rnd x / pow2 (expOf (rnd x)))). rewrite <- (rnd_val _ N). now symmetry.
Qed.

(** A multiple of its own unit is a multiple of the unit of any smaller
    positive value. *)
Lemma grid_coarser (T L : Q) (m : Z) :
  (0 < L)%Q -> (L <= T)%Q -> (T == inject_Z m * pow2 (expOf T))%Q ->
  exists t : Z, (T == inject_Z t * pow2 (expOf L))%Q.
Proof.
  intros PL LT G. assert (PT : (0 < T)%Q) by lra.
  pose proof (ilog2_mono L T PL LT) as Hm.
  assert (He : expOf L <= expOf T) by (rewrite (expOf_pos L PL), (expOf_pos T PT); lia).
  exists (m * 2 ^ (expOf T - expOf L)).
  rewrite G at 1. rewrite inject_Z_mult, <- (pow2_Z (expOf T - expOf L)) by lia.
  rewrite <- Qmult_assoc, <- pow2_add.
  replace (expOf T - expOf L + expOf L) with (expOf T) by lia. reflexivity.
Qed.

(** Rounding reaches a multiple of the unit that lies less than half a
    unit above. *)
Lemma rnd_reaches (L T : Q) (t : Z) :
  (0 < L)%Q -> (T == inject_Z t * pow2 (expOf L))%Q ->
  (T - L < pow2 (expOf L) * (1 # 2))%Q -> (T <= rnd L)%Q.
Proof.
  intros PL G Hd. assert (N : ~ (L == 0)%Q) by lra.
  rewrite (rnd_val L N), G.
  pose proof (pow2_pos (expOf L)) as PP. set (P := pow2 (expOf L)) in *.
  destruct (rne_bounds (L / P)) as [_ Hi]. set (r := rne (L / P)) in *.
  assert (EL : (L == L / P * P)%Q) by (field; lra).
  assert (Hq : (inject_Z t - (1 # 2) < L / P)%Q).
  { apply Qlt_shift_div_l; [exact PP|]. lra. }
  assert (Hr : (inject_Z (t - 1) < inject_Z r)%Q).
  { rewrite inject_Z_sub. change (inject_Z 1) with 1%Q. lra. }
  rewrite <- Zlt_Qlt in Hr.
  apply Qmult_le_compat_r; [|lra]. rewrite <- Zle_Qle. lia.
Qed.

Lemma pow2_m53 : (pow2 (-53) == 1 # 9007199254740992)%Q.
Proof. unfold Qeq. vm_compute. reflexivity. Qed.

(** The relative error of one rounding, with 2^-53 written out. *)
Lemma rnd_near_num (x : Q) :
  (pow2 (-1022) <= x)%Q ->
  (x * (9007199254740991 # 9007199254740992) <= rnd x)%Q /\
  (rnd x <= x * (9007199254740993 # 9007199254740992))%Q.
Proof.
  intros H. destruct (rnd_near x H) as [Lo Hi]. rewrite pow2_m53 in Lo, Hi.
  split; lra.
Qed.

(** Comparison of two closed rationals by computation. *)
Lemma Qle_computed (a b : Q) : Qle_bool a b = true -> (a <= b)%Q.
Proof. apply Qle_bool_imp_le. Qed.

Lemma add_mono (a b c d : Q) : (a <= b)%Q -> (c <= d)%Q -> (add a c <= add b d)%Q.
Proof. intros H1 H2. unfold add. apply rnd_mono. lra. Qed.

Lemma sub_mono (a b c d : Q) : (a <= b)%Q -> (d <= c)%Q -> (sub a c <= sub b d)%Q.
Proof. intros H1 H2. unfold sub. apply rnd_mono. lra. Qed.

Lemma mul_mono (a b c d : Q) :
  (0 <= a)%Q -> (a <= b)%Q -> (0 <= c)%Q -> (c <= d)%Q -> (mul a c <= mul b d)%Q.
Proof.
  intros Ha H1 Hc H2. unfold mul. apply rnd_mono.
  apply Qle_trans with (b * c)%Q.
  - apply Qmult_le_compat_r; assumption.
  - rewrite !(Qmult_comm b). apply Qmult_le_compat_r; [assumption | lra].
Qed.

Lemma div_mono (a b c : Q) : (0 < c)%Q -> (a <= b)%Q -> (div a c <= div b c)%Q.
Proof.
  intros Hc H. unfold div, Qdiv. apply rnd_mono.
  apply Qmult_le_compat_r; [assumption|]. apply Qinv_le_0_compat. lra.
Qed.

Lemma mul_nonneg (a b : Q) : (0 <= a)%Q -> (0 <= b)%Q -> (0 <= mul a b)%Q.
Proof. intros Ha Hb. unfold mul. apply rnd_nonneg. now apply Qmult_le_0_compat. Qed.

Lemma div_nonneg (a c : Q) : (0 <= a)%Q -> (0 < c)%Q -> (0 <= div a c)%Q.
Proof.
  intros Ha Hc. unfold div, Qdiv. apply rnd_nonneg.
  apply Qmult_le_0_compat; [assumption|]. apply Qinv_le_0_compat. lra.
Qed.

Lemma add_nonneg (a b : Q) : (0 <= a)%Q -> (0 <= b)%Q -> (0 <= add a b)%Q.
Proof. intros Ha Hb. unfold add. apply rnd_nonneg. lra. Qed.

End DoubleFacts.

(** ** The plan builder *)

Section PlanBuilder.

Import Engine.

Ltac computed := apply Qle_computed; vm_compute; reflexivity.

Lemma seededWord_range (seed : Z) : 0 <= seededWord seed < 4294967296.
Proof. unfold seededWord. apply toUint32_range. Qed.

Lemma seededRand01_range (seed : Z) : (0 <= seededRand01 seed < 1)%Q.
Proof.
  pose proof (seededWord_range seed) as [H0 H1].
  unfold seededRand01, Qle, Qlt; cbn [Qnum Qden]. lia.
Qed.

(** The largest value [seededRand01] can return. *)
Lemma seededRand01_top (seed : Z) : (seededRand01 seed <= 4294967295 # 4294967296)%Q.
Proof.
  pose proof (seededWord_range seed) as [H0 H1].
  unfold seededRand01, Qle; cbn [Qnum Qden]. lia.
Qed.

(** 0.9 + r * 0.2 on doubles, for a draw [r] between 0 and 1 - 2^-32:
    between the double 0.9 and the value at the largest draw. *)
Lemma scaled_draw_bounds (r : Q) :
  (0 <= r)%Q -> (r <= 4294967295 # 4294967296)%Q ->
  (Double.lit 9 10 <= Double.add (Double.lit 9 10) (Double.mul r (Double.lit 2 10)))%Q /\
  (Double.add (Double.lit 9 10) (Double.mul r (Double.lit 2 10))
   <= Double.add (Double.lit 9 10)
                 (Double.mul (4294967295 # 4294967296) (Double.lit 2 10)))%Q.
Proof.
  intros H0 H1.
  assert (P2 : (0 <= Double.lit 2 10)%Q) by computed.
  split.
  - apply Qle_trans with (Double.add (Double.lit 9 10) 0).
    + computed.
    + apply add_mono; [lra | now apply mul_nonneg].
  - apply add_mono; [lra|]. apply mul_mono; try assumption; lra.
Qed.

Lemma jitter_bounds (seed : Z) :
  (Double.lit 9 10 <= jitterOf seed)%Q /\
  (jitterOf seed <= Double.add (Double.lit 9 10)
                               (Double.mul (4294967295 # 4294967296) (Double.lit 2 10)))%Q.
Proof.
  pose proof (seededRand01_range seed) as [H0 _].
  apply scaled_draw_bounds; [exact H0 | apply seededRand01_top].
Qed.

Lemma jitter_range (seed : Z) : ((9 # 10) <= jitterOf seed <= (11 # 10))%Q.
Proof.
  destruct (jitter_bounds seed) as [Lo Hi]. split.
  - apply Qle_trans with (Double.lit 9 10); [computed | exact Lo].
  - eapply Qle_trans; [exact Hi | computed].
Qed.

Lemma invMainOf_pos (investMinor : Z) :
  0 < investMinor -> invMainOf investMinor = Double.div (inject_Z investMinor) 100.
Proof.
  intros H. unfold invMainOf. rewrite floor_inject.
  rewrite Z.max_r by lia. reflexivity.
Qed.

Lemma invMainOf_nonpos (investMinor : Z) :
  investMinor <= 0 -> invMainOf investMinor = Double.div (inject_Z 0) 100.
Proof.
  intros H. unfold invMainOf. rewrite floor_inject.
  rewrite Z.max_l by lia. reflexivity.
Qed.

Lemma daySeedOf_pos (investMinor : Z) (dayKey : string) :
  0 < investMinor ->
  daySeedOf investMinor dayKey =
  Int32.xor (match parseInt dayKey with Some n => n | None => 0 end)
            (Spec.scaledAmount (Double.div (inject_Z investMinor) 100)).
Proof.
  intros H. unfold daySeedOf, Spec.scaledAmount. now rewrite invMainOf_pos by assumption.
Qed.

Lemma min_nonneg (a b : Q) : (0 <= a)%Q -> (0 <= b)%Q -> (0 <= Math.min a b)%Q.
Proof. intros Ha Hb. unfold Math.min. now destruct (Qle_bool a b). Qed.

Lemma min_mono (c a b : Q) : (a <= b)%Q -> (Math.min c a <= Math.min c b)%Q.
Proof.
  intros H. unfold Math.min.
  destruct (Qle_bool c a) eqn:E1; destruct (Qle_bool c b) eqn:E2;
    repeat match goal with
           | H : Qle_bool _ _ = true |- _ => apply Qle_bool_iff in H
           | H : Qle_bool _ _ = false |- _ => apply Qle_bool_false in H
           end; lra.
Qed.

Lemma round_mono (x y : Q) : (x <= y)%Q -> Math.round x <= Math.round y.
Proof. intros H. unfold Math.round. apply Qfloor_resp_le. lra. Qed.

Lemma floor_mono (x y : Q) : (x <= y)%Q -> Math.floor x <= Math.floor y.
Proof. intros H. unfold Math.floor. now apply Qfloor_resp_le. Qed.

(** The amount in major units: at least the double 0.01, so positive. *)
Lemma amount_lower (investMinor : Z) :
  0 < investMinor -> (Double.div 1 100 <= Double.div (inject_Z investMinor) 100)%Q.
Proof.
  intros H. apply div_mono; [reflexivity|].
  change 1%Q with (inject_Z 1). rewrite <- Zle_Qle. lia.
Qed.

Lemma amount_positive (investMinor : Z) :
  0 < investMinor -> (0 < Double.div (inject_Z investMinor) 100)%Q.
Proof.
  intros H. apply Qlt_le_trans with (Double.div 1 100); [|now apply amount_lower].
  vm_compute. reflexivity.
Qed.

Lemma rate_nonneg (amount : Q) (daySeed : Z) : (0 <= Spec.effectiveMonthlyRate amount daySeed)%Q.
Proof.
  pose proof (jitter_range daySeed) as [Hj _]. unfold jitterOf in Hj.
  unfold Spec.effectiveMonthlyRate, Spec.rateBand, Spec.jitter.
  assert (P30 : (0 <= Double.lit 30 100)%Q) by computed.
  assert (P40 : (0 <= Double.lit 40 100)%Q) by computed.
  assert (P60 : (0 <= Double.lit 60 100)%Q) by computed.
  assert (P80 : (0 <= Double.lit 80 100)%Q) by computed.
  destruct (Qlt_le_dec amount 10000); apply min_nonneg; try assumption;
    apply mul_nonneg; try assumption; lra.
Qed.

Lemma target_nonneg (amount rate : Q) :
  (0 <= amount)%Q -> (0 <= rate)%Q ->
  0 <= Math.round (Double.mul (Double.div (Double.mul amount rate) 30) 100).
Proof.
  intros Ha Hr. apply round_nonneg. apply mul_nonneg; [|discriminate].
  apply div_nonneg; [|reflexivity]. now apply mul_nonneg.
Qed.

(** The target grows with the amount and with the rate. *)
Lemma target_mono (a a' m m' : Q) :
  (0 <= a)%Q -> (a <= a')%Q -> (0 <= m)%Q -> (m <= m')%Q ->
  Math.round (Double.mul (Double.div (Double.mul a m) 30) 100)
  <= Math.round (Double.mul (Double.div (Double.mul a' m') 30) 100).
Proof.
  intros Ha Haa Hm Hmm. apply round_mono.
  apply mul_mono; [| |discriminate|lra].
  - apply div_nonneg; [now apply mul_nonneg | reflexivity].
  - apply div_mono; [reflexivity|]. now apply mul_mono.
Qed.

(** What [planFor] stores for a positive investment, in the words of the
    design document. *)
Lemma planFor_pos (investMinor : Z) (dayKey : string) :
  0 < investMinor ->
  let amount := Double.div (inject_Z investMinor) 100 in
  let daySeed := Int32.xor (match parseInt dayKey with Some n => n | None => 0 end)
                           (Spec.scaledAmount amount) in
  planFor investMinor dayKey =
  mkPlan dayKey (50 + Math.floor (Double.mul (seededRand01 (daySeed + 77)) 51)) 0
         (Spec.targetSumMinor amount daySeed) 0.
Proof.
  intros Hpos amount daySeed.
  pose proof (amount_positive investMinor Hpos) as Ha. fold amount in Ha.
  unfold planFor. cbv zeta.
  rewrite daySeedOf_pos, invMainOf_pos by assumption. fold amount. fold daySeed.
  destruct (Qle_bool amount 0) eqn:E0.
  { apply Qle_bool_iff in E0. lra. }
  assert (Ht : Z.max 0 (Spec.targetSumMinor amount daySeed) = Spec.targetSumMinor amount daySeed).
  { apply Z.max_r. unfold Spec.targetSumMinor. apply target_nonneg; [lra|].
    apply rate_nonneg. }
  unfold Spec.targetSumMinor in Ht |- *.
  unfold Spec.effectiveMonthlyRate, Spec.rateBand, Spec.jitter, jitterOf in Ht |- *.
  destruct (Qlt_le_dec amount 10000) as [L|L].
  - assert (E1 : Qle_bool 10000 amount = false).
    { destruct (Qle_bool 10000 amount) eqn:E; [apply Qle_bool_iff in E; lra | reflexivity]. }
    rewrite E1. cbn [negb]. now rewrite Ht.
  - assert (E1 : Qle_bool 10000 amount = true) by (now apply Qle_bool_iff).
    rewrite E1. cbn [negb]. now rewrite Ht.
Qed.

(** The scaled amount is the amount in minor units or one less: the
    double nearest to n/100, times 100, lies within 2^-52 of n. *)
Lemma scaledAmount_near (investMinor : Z) :
  0 < investMinor < 2 ^ 50 ->
  investMinor - 1 <= Spec.scaledAmount (Double.div (inject_Z investMinor) 100) <= investMinor.
Proof.
  intros [Hpos Hbig]. unfold Spec.scaledAmount, Double.mul, Double.div.
  assert (Hn1 : (1 <= inject_Z investMinor)%Q)
    by (change 1%Q with (inject_Z 1); rewrite <- Zle_Qle; lia).
  assert (Hn2 : (inject_Z investMinor <= inject_Z (2 ^ 50))%Q) by (rewrite <- Zle_Qle; lia).
  assert (H22 : (Double.pow2 (-1022) <= 1 # 1000)%Q) by computed.
  assert (U : (Double.pow2 (-53) <= 1 # 9007199254740992)%Q) by computed.
  assert (U0 : (0 < Double.pow2 (-53))%Q) by apply pow2_pos.
  destruct (rnd_near (inject_Z investMinor / 100)) as [A1 A2].
  { apply Qle_trans with (1 # 1000)%Q; [exact H22|].
    apply Qle_shift_div_l; [reflexivity | lra]. }
  set (n := inject_Z investMinor) in *. set (u := Double.pow2 (-53)) in *.
  assert (Eq : (n / 100 * 100 == n)%Q) by field.
  set (q := (n / 100)%Q) in *.
  set (x := Double.rnd q) in *.
  destruct (rnd_near (x * 100)) as [B1 B2].
  { apply Qle_trans with (1 # 1000)%Q; [exact H22|].
    assert (P0 : (0 <= ((1 # 9007199254740992) - u) * q)%Q)
      by (apply Qmult_le_0_compat; lra).
    lra. }
  fold u in B1, B2. set (y := Double.rnd (x * 100)) in *.
  change (inject_Z (2 ^ 50)) with 1125899906842624%Q in Hn2.
  assert (Q0 : (0 <= q)%Q) by lra.
  assert (P1 : (0 <= ((1 # 9007199254740992) - u) * q)%Q)
    by (apply Qmult_le_0_compat; lra).
  assert (X0 : (0 <= x)%Q) by (apply rnd_nonneg; exact Q0).
  assert (P2 : (0 <= ((1 # 9007199254740992) - u) * x)%Q)
    by (apply Qmult_le_0_compat; lra).
  assert (Ylo : (n - 1 <= y)%Q) by lra.
  assert (Yhi : (y < n + 1)%Q) by lra.
  unfold Math.floor. split.
  - assert (H : (inject_Z (investMinor - 1) <= inject_Z (Qfloor y) + 1)%Q).
    { rewrite inject_Z_sub. change (inject_Z 1) with 1%Q. fold n.
      pose proof (Qlt_floor y) as F. rewrite inject_Z_plus in F.
      change (inject_Z 1) with 1%Q in F. lra. }
    change 1%Q with (inject_Z 1) in H. rewrite <- inject_Z_plus, <- Zle_Qle in H.
    assert (H' : (inject_Z (investMinor - 1) < inject_Z (Qfloor y + 1))%Q).
    { rewrite inject_Z_sub, inject_Z_plus. change (inject_Z 1) with 1%Q. fold n.
      pose proof (Qlt_floor y) as F. rewrite inject_Z_plus in F.
      change (inject_Z 1) with 1%Q in F. lra. }
    rewrite <- Zlt_Qlt in H'. lia.
  - assert (H : (inject_Z (Qfloor y) < inject_Z (investMinor + 1))%Q).
    { rewrite inject_Z_plus. change (inject_Z 1) with 1%Q. fold n.
      pose proof (Qfloor_le y) as F. lra. }
    rewrite <- Zlt_Qlt in H. lia.
Qed.

(** C6. For a positive investment the daily target is
    round(amount x rate / 30 x 100) with rate = min(cap, base x jitter), the
    band (base, cap) being (0.30, 0.40) below 10,000 major units and
    (0.60, 0.80) from 10,000 on, the jitter 0.9 + seededRand01(daySeed) x 0.2
    lying in 0.9 .. 1.1, and daySeed the integer day key XOR the scaled
    amount floor(amount x 100); the target is never negative.  The
    arithmetic is the program's: the amount is the double nearest to the
    hundredth of the minor units, each x, / and + gives the nearest double,
    and the scaled amount, for an investment below 2^50 minor units, is the
    amount in minor units or one less. *)
Theorem buildPlan_daily_target :
  forall (investMinor : Z) (dayKey : string),
    0 < investMinor ->
    let amount := Double.div (inject_Z investMinor) 100 in
    let dayNumber := match parseInt dayKey with Some n => n | None => 0 end in
    let scaled := Math.floor (Double.mul amount 100) in
    let daySeed := Int32.xor dayNumber scaled in
    let jitter := Double.add (Double.lit 9 10)
                             (Double.mul (seededRand01 daySeed) (Double.lit 2 10)) in
    let base := if Qlt_le_dec amount 10000 then Double.lit 30 100 else Double.lit 60 100 in
    let cap := if Qlt_le_dec amount 10000 then Double.lit 40 100 else Double.lit 80 100 in
    let rate := Math.min cap (Double.mul base jitter) in
    daySeedOf investMinor dayKey = daySeed /\
    ((9 # 10) <= jitter <= (11 # 10))%Q /\
    targetSumMinor (planFor investMinor dayKey)
    = Math.round (Double.mul (Double.div (Double.mul amount rate) 30) 100) /\
    targetSumMinor (planFor investMinor dayKey) = Spec.targetSumMinor amount daySeed /\
    0 <= targetSumMinor (planFor investMinor dayKey) /\
    (investMinor < 2 ^ 50 -> investMinor - 1 <= scaled <= investMinor).
Proof.
  intros investMinor dayKey Hpos amount dayNumber scaled daySeed jitter base cap rate.
  pose proof (planFor_pos investMinor dayKey Hpos) as Hp. cbv zeta in Hp.
  fold amount dayNumber in Hp. change (Spec.scaledAmount amount) with scaled in Hp.
  fold daySeed in Hp. rewrite Hp. cbn [targetSumMinor].
  split; [apply (daySeedOf_pos investMinor dayKey Hpos)|].
  split; [apply (jitter_range daySeed)|].
  assert (Hs : Spec.targetSumMinor amount daySeed
               = Math.round (Double.mul (Double.div (Double.mul amount rate) 30) 100)).
  { unfold Spec.targetSumMinor, Spec.effectiveMonthlyRate, Spec.rateBand, rate, cap, base.
    now destruct (Qlt_le_dec amount 10000). }
  split; [exact Hs|]. split; [reflexivity|]. split.
  - unfold Spec.targetSumMinor. apply target_nonneg; [|apply rate_nonneg].
    pose proof (amount_positive investMinor Hpos) as Ha. fold amount in Ha. lra.
  - intros Hbig. apply (scaledAmount_near investMinor). lia.
Qed.

(** The low-tier example of the design document, 5,000 major units on
    2 January 2024, and an amount whose scaled amount is one less than
    its minor units: 128.14 major units on 3 January 2024 are seeded by
    12813 and get 99 orders for a target of 136. *)
Lemma buildPlan_daily_target_witness :
  targetSumMinor (planFor 500000 "20240102")
  = Spec.targetSumMinor (Double.div (inject_Z 500000) 100)
                        (Int32.xor 20240102 (Math.floor (Double.mul (Double.div (inject_Z 500000) 100) 100))) /\
  Math.floor (Double.mul (Double.div (inject_Z 12814) 100) 100) = 12813 /\
  planFor 12814 "20240103" = mkPlan "20240103" 99 0 136 0.
Proof.
  split; [|split].
  - apply (buildPlan_daily_target 500000 "20240102"). reflexivity.
  - vm_compute. reflexivity.
  - vm_compute. reflexivity.
Defined.

(** C4. [buildPlan] is deterministic: the plan it stores depends only on
    the invested amount and the calendar day of the clock.  Two worlds
    whose clocks read the same day get the same plan, hence the same
    [targetSumMinor] and [ordersPlanned], whatever their pending
    [Math.random] draws, previous plans and emitted orders are; the plan
    is the seeded [planFor], no random draw is consumed, and calling
    [buildPlan] a second time changes nothing. *)
Theorem buildPlan_deterministic :
  forall (investMinor t1 t2 y m d : Z) (rs1 rs2 : list Q) (p1 p2 : option Plan)
         (e1 e2 : list OrderPayload),
    let w1 := mkWorld (mkDate t1 y m d) rs1 p1 e1 in
    let w2 := mkWorld (mkDate t2 y m d) rs2 p2 e2 in
    exists plan,
      planRef (buildPlan investMinor w1) = Some plan /\
      planRef (buildPlan investMinor w2) = Some plan /\
      plan = planFor investMinor (todayKey (clock w1)) /\
      targetSumMinor plan = targetSumMinor (planFor investMinor (todayKey (clock w2))) /\
      ordersPlanned plan = ordersPlanned (planFor investMinor (todayKey (clock w2))) /\
      randoms (buildPlan investMinor w1) = rs1 /\
      randoms (buildPlan investMinor w2) = rs2 /\
      buildPlan investMinor (buildPlan investMinor w1) = buildPlan investMinor w1.
Proof.
  intros. exists (planFor investMinor (todayKey (clock w1))).
  repeat split; reflexivity.
Qed.

Lemma planFor_nonpos (investMinor : Z) (dayKey : string) :
  investMinor <= 0 -> planFor investMinor dayKey = mkPlan dayKey 0 0 0 0.
Proof.
  intros H. unfold planFor. cbv zeta. rewrite invMainOf_nonpos by assumption.
  assert (E : Qle_bool (Double.div (inject_Z 0) 100) 0 = true) by (vm_compute; reflexivity).
  now rewrite E.
Qed.

Lemma planFor_fresh (investMinor : Z) (dayKey : string) :
  day (planFor investMinor dayKey) = dayKey /\
  ordersDone (planFor investMinor dayKey) = 0 /\
  producedMinor (planFor investMinor dayKey) = 0.
Proof. unfold planFor. cbv zeta. now destruct (Qle_bool _ _). Qed.

Lemma ordersPlanned_range (seed : Z) :
  50 <= 50 + Math.floor (Double.mul (seededRand01 seed) 51) <= 100.
Proof.
  pose proof (seededRand01_range seed) as [H0 _].
  pose proof (seededRand01_top seed) as H1.
  assert (0 <= Math.floor (Double.mul (seededRand01 seed) 51)).
  { apply floor_nonneg. apply mul_nonneg; [exact H0 | discriminate]. }
  assert (Math.floor (Double.mul (seededRand01 seed) 51)
          <= Math.floor (Double.mul (4294967295 # 4294967296) 51)).
  { apply floor_mono. apply mul_mono; [exact H0 | exact H1 | discriminate | apply Qle_refl]. }
  assert (E : Math.floor (Double.mul (4294967295 # 4294967296) 51) = 50)
    by (vm_compute; reflexivity).
  lia.
Qed.

(** One major unit invested: a target of one minor unit for at least
    fifty orders, on every day. *)
Lemma planFor_one_major_unit (dayKey : string) :
  targetSumMinor (planFor 100 dayKey) = 1 /\ 50 <= ordersPlanned (planFor 100 dayKey).
Proof.
  assert (Hpos : 0 < 100) by reflexivity.
  rewrite (planFor_pos 100 dayKey Hpos). cbn [targetSumMinor ordersPlanned].
  split; [|apply ordersPlanned_range].
  generalize (Int32.xor match parseInt dayKey with Some n => n | None => 0 end
                        (Spec.scaledAmount (Double.div (inject_Z 100) 100))).
  intros daySeed.
  destruct (jitter_bounds daySeed) as [Lo Hi]. unfold jitterOf in Lo, Hi.
  unfold Spec.targetSumMinor, Spec.effectiveMonthlyRate, Spec.rateBand, Spec.jitter.
  generalize dependent (seededRand01 daySeed). intros u Lo Hi.
  set (j := Double.add (Double.lit 9 10) (Double.mul u (Double.lit 2 10))) in *.
  destruct (Qlt_le_dec (Double.div (inject_Z 100) 100) 10000) as [_|Hbad].
  - assert (P30 : (0 <= Double.lit 30 100)%Q) by computed.
    assert (A : (0 <= Double.div (inject_Z 100) 100)%Q) by computed.
    assert (J0 : (0 <= Double.lit 9 10)%Q) by computed.
    assert (L : 1 <= Math.round
              (Double.mul (Double.div (Double.mul (Double.div (inject_Z 100) 100)
                 (Math.min (Double.lit 40 100) (Double.mul (Double.lit 30 100) j))) 30) 100)).
    { eapply Z.le_trans; [|apply target_mono;
        [exact A | apply Qle_refl | | apply min_mono, mul_mono;
           [exact P30 | apply Qle_refl | exact J0 | exact Lo]]].
      - vm_compute. discriminate.
      - apply min_nonneg; [computed | apply mul_nonneg; [exact P30 | exact J0]]. }
    assert (U : Math.round
              (Double.mul (Double.div (Double.mul (Double.div (inject_Z 100) 100)
                 (Math.min (Double.lit 40 100) (Double.mul (Double.lit 30 100) j))) 30) 100) <= 1).
    { eapply Z.le_trans; [apply target_mono;
        [exact A | apply Qle_refl | | apply min_mono, mul_mono;
           [exact P30 | apply Qle_refl | lra | exact Hi]]|].
      - apply min_nonneg; [computed | apply mul_nonneg; [exact P30 | lra]].
      - vm_compute. discriminate. }
    lia.
  - exfalso. revert Hbad. vm_compute. intros Hbad. now apply Hbad.
Qed.

End PlanBuilder.

(** ** The order emitter *)

Section OrderEmitter.

Import Engine EngineRun.

Variable running : bool.
Variable investMinor : Z.
Variable platforms : list RunPlatform.

Lemma random_frame (w : World) :
  clock (snd (random w)) = clock w /\ planRef (snd (random w)) = planRef w /\
  emitted (snd (random w)) = emitted w.
Proof. unfold random. destruct (randoms w); repeat split; reflexivity. Qed.

Lemma ensurePlan_frame (w : World) :
  clock (ensurePlan investMinor w) = clock w /\
  randoms (ensurePlan investMinor w) = randoms w /\
  emitted (ensurePlan investMinor w) = emitted w.
Proof.
  unfold ensurePlan, buildPlan, setPlan.
  destruct (planRef w) as [p|]; [destruct (String.eqb _ _)|]; repeat split; reflexivity.
Qed.

Lemma ensurePlan_current (w : World) (p : Plan) :
  planRef w = Some p -> day p = todayKey (clock w) -> ensurePlan investMinor w = w.
Proof.
  intros Hp Hd. unfold ensurePlan. rewrite Hp, Hd. now rewrite String.eqb_refl.
Qed.

(** The emitted amount is at least one minor unit and at most
    max(1, remaining target - (remaining orders - 1)). *)
Lemma sampleFor_bounds (plan : Plan) (r : Q) :
  1 <= sampleFor plan r <=
  Z.max 1 (Z.max 0 (targetSumMinor plan - producedMinor plan)
           - (ordersPlanned plan - ordersDone plan - 1) * 1).
Proof.
  unfold sampleFor. cbv zeta.
  set (raw := Math.round _).
  set (cap := Z.max 1 _).
  assert (1 <= cap) by (unfold cap; lia).
  destruct (raw <? 1) eqn:E1.
  - destruct (cap <? 1) eqn:E2; [apply Z.ltb_lt in E2|]; lia.
  - apply Z.ltb_ge in E1.
    destruct (cap <? raw) eqn:E2; [apply Z.ltb_lt in E2 | apply Z.ltb_ge in E2]; lia.
Qed.

(** One emission from a current plan with orders left. *)
Lemma makeOneOrder_emits (w : World) (plan : Plan) :
  planRef w = Some plan -> day plan = todayKey (clock w) ->
  ordersDone plan < ordersPlanned plan -> ordersPlanned plan <> 0 ->
  exists sample : Z,
    1 <= sample <=
    Z.max 1 (Z.max 0 (targetSumMinor plan - producedMinor plan)
             - (ordersPlanned plan - ordersDone plan - 1) * 1) /\
    planRef (makeOneOrder investMinor platforms w) =
    Some (mkPlan (day plan) (ordersPlanned plan) (ordersDone plan + 1)
                 (targetSumMinor plan) (producedMinor plan + sample)) /\
    clock (makeOneOrder investMinor platforms w) = clock w /\
    exists o, emitted (makeOneOrder investMinor platforms w) = o :: emitted w /\
              profitUsd o = (inject_Z sample / 100)%Q.
Proof.
  intros Hp Hd Hlt Hne.
  unfold makeOneOrder. cbv zeta.
  rewrite (ensurePlan_current w plan Hp Hd). rewrite Hp.
  destruct (ordersPlanned plan =? 0) eqn:E0; [apply Z.eqb_eq in E0; contradiction|].
  destruct (ordersPlanned plan - ordersDone plan <=? 0) eqn:E1; [apply Z.leb_le in E1; lia|].
  destruct (random w) as [r w1] eqn:R1.
  exists (sampleFor plan r). split; [apply sampleFor_bounds|].
  pose proof (random_frame w) as (Hc1 & _ & He1). rewrite R1 in Hc1, He1. cbn [snd] in Hc1, He1.
  set (w2 := setPlan _ w1).
  destruct (random w2) as [rp w3] eqn:R2.
  pose proof (random_frame w2) as (Hc2 & Hp2 & He2). rewrite R2 in Hc2, Hp2, He2.
  cbn [snd] in Hc2, Hp2, He2.
  destruct (random w3) as [rs w4] eqn:R3.
  pose proof (random_frame w3) as (Hc3 & Hp3 & He3). rewrite R3 in Hc3, Hp3, He3.
  cbn [snd] in Hc3, Hp3, He3.
  unfold onOrder. cbn [planRef clock emitted].
  repeat split.
  - rewrite Hp3, Hp2. reflexivity.
  - rewrite Hc3, Hc2. unfold w2, setPlan. cbn [clock]. exact Hc1.
  - assert (He : emitted w4 = emitted w).
    { rewrite He3, He2. unfold w2, setPlan. cbn [emitted]. exact He1. }
    rewrite He. eexists. split; reflexivity.
Qed.

(** [n] emissions in a row from a current plan with at least [n] orders
    left: [ordersDone] grows by [n], [producedMinor] by at least [n]. *)
Lemma emissions_progress (n : nat) :
  forall (w : World) (plan : Plan),
    planRef w = Some plan -> day plan = todayKey (clock w) ->
    ordersDone plan + Z.of_nat n <= ordersPlanned plan -> 0 < ordersPlanned plan ->
    exists plan',
      planRef (EngineRun.run running investMinor platforms (repeat EngineRun.MakeOneOrder n) w)
      = Some plan' /\
      ordersPlanned plan' = ordersPlanned plan /\
      targetSumMinor plan' = targetSumMinor plan /\
      ordersDone plan' = ordersDone plan + Z.of_nat n /\
      producedMinor plan + Z.of_nat n <= producedMinor plan'.
Proof.
  induction n as [|n IH]; intros w plan Hp Hd Hn Hpos.
  - exists plan. cbn. repeat split; try assumption; lia.
  - cbn [repeat EngineRun.run fold_left EngineRun.step].
    destruct (makeOneOrder_emits w plan Hp Hd) as (sample & Hs & Hp' & Hc' & _); [lia | lia |].
    set (w' := makeOneOrder investMinor platforms w) in *.
    destruct (IH w' _ Hp') as (plan' & H1 & H2 & H3 & H4 & H5).
    + cbn [day]. now rewrite Hc'.
    + cbn [ordersDone ordersPlanned]. lia.
    + exact Hpos.
    + exists plan'. cbn [ordersDone ordersPlanned targetSumMinor producedMinor] in *.
      unfold EngineRun.run in H1. repeat split; try assumption; lia.
Qed.

(** While the plan has [hasRoom], an emission keeps it so: the target bound
    holds for plans whose target is at least their order count. *)
Lemma makeOneOrder_keeps_room (w : World) (plan : Plan) :
  planRef w = Some plan -> day plan = todayKey (clock w) -> hasRoom plan ->
  exists plan', planRef (makeOneOrder investMinor platforms w) = Some plan' /\ hasRoom plan'.
Proof.
  intros Hp Hd (Hdone & Hprod & Hroom).
  destruct (Z.eq_dec (ordersPlanned plan) 0) as [Hz|Hnz];
    [|destruct (Z_lt_le_dec (ordersDone plan) (ordersPlanned plan)) as [Hlt|Hge]].
  - exists plan. split; [|now repeat split].
    unfold makeOneOrder. cbv zeta. rewrite (ensurePlan_current w plan Hp Hd), Hp, Hz.
    exact Hp.
  - destruct (makeOneOrder_emits w plan Hp Hd Hlt Hnz) as (sample & Hs & Hp' & _).
    eexists. split; [exact Hp'|].
    unfold hasRoom. cbn [ordersDone ordersPlanned targetSumMinor producedMinor]. lia.
  - exists plan. split; [|now repeat split].
    unfold makeOneOrder. cbv zeta. rewrite (ensurePlan_current w plan Hp Hd), Hp.
    destruct (ordersPlanned plan =? 0); [exact Hp|].
    assert (E : (ordersPlanned plan - ordersDone plan <=? 0) = true) by (apply Z.leb_le; lia).
    rewrite E. exact Hp.
Qed.

Lemma planFor_done (dayKey : string) :
  0 <= ordersDone (planFor investMinor dayKey) <= ordersPlanned (planFor investMinor dayKey).
Proof.
  destruct (Z_lt_le_dec 0 investMinor) as [Hpos|Hle].
  - rewrite (planFor_pos investMinor dayKey Hpos). cbn [ordersDone ordersPlanned].
    set (daySeed := Int32.xor _ _).
    pose proof (ordersPlanned_range (daySeed + 77)).
    lia.
  - rewrite (planFor_nonpos investMinor dayKey Hle). cbn. lia.
Qed.

Lemma buildPlan_done (w : World) : doneWithinPlanned (buildPlan investMinor w).
Proof.
  intros p Hp. unfold buildPlan, setPlan in Hp. cbn [planRef] in Hp.
  injection Hp as <-. apply planFor_done.
Qed.

Lemma ensurePlan_done (w : World) :
  doneWithinPlanned w -> doneWithinPlanned (ensurePlan investMinor w).
Proof.
  intros Hw. unfold ensurePlan.
  destruct (planRef w) as [p|] eqn:Hp; [destruct (String.eqb _ _)|];
    auto using buildPlan_done.
Qed.

Lemma ensurePlan_some (w : World) :
  exists p, planRef (ensurePlan investMinor w) = Some p /\ day p = todayKey (clock w).
Proof.
  unfold ensurePlan.
  destruct (planRef w) as [p|] eqn:Hp; [destruct (String.eqb _ _) eqn:E|].
  - exists p. split; [assumption|]. now apply String.eqb_eq.
  - eexists. split; [reflexivity|]. unfold planFor. now destruct (Qle_bool _ _).
  - eexists. split; [reflexivity|]. unfold planFor. now destruct (Qle_bool _ _).
Qed.

Lemma ensurePlan_idem (w : World) :
  ensurePlan investMinor (ensurePlan investMinor w) = ensurePlan investMinor w.
Proof.
  destruct (ensurePlan_some w) as (p & Hp & Hd).
  apply (ensurePlan_current _ p Hp).
  now rewrite (proj1 (ensurePlan_frame w)).
Qed.

Lemma makeOneOrder_via_ensurePlan (w : World) :
  makeOneOrder investMinor platforms w
  = makeOneOrder investMinor platforms (ensurePlan investMinor w).
Proof. unfold makeOneOrder. cbv zeta. now rewrite ensurePlan_idem. Qed.

Lemma makeOneOrder_done (w : World) :
  doneWithinPlanned w -> doneWithinPlanned (makeOneOrder investMinor platforms w).
Proof.
  intros Hw. rewrite makeOneOrder_via_ensurePlan.
  apply ensurePlan_done in Hw.
  destruct (ensurePlan_some w) as (p & Hp & Hd).
  rewrite <- (proj1 (ensurePlan_frame w)) in Hd.
  set (w1 := ensurePlan investMinor w) in *.
  destruct (Z.eq_dec (ordersPlanned p) 0) as [Hz|Hnz];
    [|destruct (Z_lt_le_dec (ordersDone p) (ordersPlanned p)) as [Hlt|Hge]].
  - unfold makeOneOrder. cbv zeta. rewrite (ensurePlan_current w1 p Hp Hd), Hp, Hz. exact Hw.
  - destruct (makeOneOrder_emits w1 p Hp Hd Hlt Hnz) as (sample & _ & Hp' & _).
    intros q Hq. rewrite Hp' in Hq. injection Hq as <-.
    cbn [ordersDone ordersPlanned]. specialize (Hw p Hp). lia.
  - unfold makeOneOrder. cbv zeta. rewrite (ensurePlan_current w1 p Hp Hd), Hp.
    destruct (ordersPlanned p =? 0); [exact Hw|].
    assert (E : (ordersPlanned p - ordersDone p <=? 0) = true) by (apply Z.leb_le; lia).
    rewrite E. exact Hw.
Qed.

Lemma random_done (w : World) : doneWithinPlanned w -> doneWithinPlanned (snd (random w)).
Proof.
  intros Hw p Hp. rewrite (proj1 (proj2 (random_frame w))) in Hp. now apply Hw.
Qed.

Lemma step_done (w : World) (e : EngineRun.Event) :
  doneWithinPlanned w -> doneWithinPlanned (EngineRun.step running investMinor platforms w e).
Proof.
  intros Hw. destruct e; cbn [EngineRun.step].
  - exact Hw.
  - unfold runEffect. cbv zeta. pose proof (ensurePlan_done w Hw) as Hw1.
    destruct (running && (0 <? investMinor)); [|exact Hw1].
    unfold scheduleNext. now apply random_done.
  - now apply makeOneOrder_done.
  - unfold timerFired.
    destruct (negb running || (investMinor <=? 0)); [exact Hw|]. cbv zeta.
    pose proof (ensurePlan_done w Hw) as Hw1.
    destruct (planRef (ensurePlan investMinor w)) as [p|] eqn:Hp; [|exact Hw1].
    destruct (ordersPlanned p <=? ordersDone p); [exact Hw1|].
    unfold scheduleNext. apply random_done. now apply makeOneOrder_done.
  - unfold minuteCheck. cbv zeta.
    destruct (match planRef w with Some p => negb (String.eqb (day p) (todayKey (clock w)))
                                 | None => true end); [|exact Hw].
    destruct (running && (0 <? investMinor)).
    + unfold scheduleNext. apply random_done, buildPlan_done.
    + apply buildPlan_done.
Qed.

Lemma run_done (es : list EngineRun.Event) :
  forall w, doneWithinPlanned w ->
            doneWithinPlanned (EngineRun.run running investMinor platforms es w).
Proof.
  induction es as [|e es IH]; intros w Hw; [exact Hw|].
  cbn [EngineRun.run fold_left]. apply IH. now apply step_done.
Qed.

End OrderEmitter.

(** ** A hook that is given nothing to invest *)

Section NothingInvested.

Import Engine EngineRun.

Variable running : bool.
Variable investMinor : Z.
Variable platforms : list RunPlatform.
Hypothesis nothing : investMinor <= 0.

Lemma buildPlan_plansNothing (w : World) : plansNothing (buildPlan investMinor w).
Proof.
  eexists. split; [reflexivity|]. now rewrite planFor_nonpos.
Qed.

Lemma ensurePlan_plansNothing (w : World) :
  plansNothing w -> plansNothing (ensurePlan investMinor w).
Proof.
  intros Hw. unfold ensurePlan.
  destruct (planRef w) as [p|] eqn:Hp; [destruct (String.eqb _ _)|];
    auto using buildPlan_plansNothing.
Qed.

Lemma makeOneOrder_plansNothing (w : World) :
  plansNothing w ->
  makeOneOrder investMinor platforms w = ensurePlan investMinor w.
Proof.
  intros Hw. apply ensurePlan_plansNothing in Hw. destruct Hw as (p & Hp & Hz).
  unfold makeOneOrder. cbv zeta. rewrite Hp, Hz. reflexivity.
Qed.

Lemma step_plansNothing (w : World) (e : Event) :
  plansNothing w ->
  plansNothing (step running investMinor platforms w e) /\
  emitted (step running investMinor platforms w e) = emitted w.
Proof.
  intros Hw. destruct e; cbn [step].
  - split; [exact Hw | reflexivity].
  - unfold runEffect. cbv zeta.
    assert (E : (0 <? investMinor) = false) by (apply Z.ltb_ge; exact nothing).
    rewrite E, andb_false_r.
    split; [now apply ensurePlan_plansNothing | apply ensurePlan_frame].
  - rewrite (makeOneOrder_plansNothing w Hw).
    split; [now apply ensurePlan_plansNothing | apply ensurePlan_frame].
  - unfold timerFired.
    assert (E : (investMinor <=? 0) = true) by now apply Z.leb_le.
    rewrite E, orb_true_r. split; [exact Hw | reflexivity].
  - unfold minuteCheck. cbv zeta.
    assert (E : (0 <? investMinor) = false) by (apply Z.ltb_ge; exact nothing).
    rewrite E, andb_false_r.
    destruct (match planRef w with Some p => negb (String.eqb (day p) (todayKey (clock w)))
                                 | None => true end).
    + split; [apply buildPlan_plansNothing | reflexivity].
    + split; [exact Hw | reflexivity].
Qed.

Lemma run_plansNothing (es : list Event) :
  forall w, plansNothing w -> emitted (run running investMinor platforms es w) = emitted w.
Proof.
  induction es as [|e es IH]; intros w Hw; [reflexivity|].
  cbn [run fold_left].
  destruct (step_plansNothing w e Hw) as [Hz He].
  fold (run running investMinor platforms es (step running investMinor platforms w e)).
  now rewrite (IH _ Hz).
Qed.

End NothingInvested.

(** ** Claims about the engine *)

Section EngineClaims.

Import Engine EngineRun.

(** C7. With nothing invested ([investMinor <= 0]) the plan has
    [ordersPlanned = 0] and [targetSumMinor = 0], and no event of the hook
    ever emits an order from it; with a positive investment
    [ordersPlanned] is 50 + floor(seededRand01(daySeed + 77) x 51), which
    lies in 50 .. 100, while the target is the one whose rate jitter is
    0.9 + seededRand01(daySeed) x 0.2 for the same [daySeed]: the count is
    drawn from the seed [daySeed + 77] and the jitter from the seed
    [daySeed], two seeds that differ also as 32-bit words. *)
Theorem buildPlan_order_count :
  forall (running : bool) (investMinor : Z) (platforms : list RunPlatform) (dayKey : string),
    let plan := planFor investMinor dayKey in
    let daySeed := daySeedOf investMinor dayKey in
    let amount := Double.div (inject_Z investMinor) 100 in
    if investMinor <=? 0 then
      ordersPlanned plan = 0 /\ targetSumMinor plan = 0 /\
      forall (w : World) (es : list Event),
        emitted (run running investMinor platforms es (buildPlan investMinor w)) = emitted w
    else
      50 <= ordersPlanned plan <= 100 /\
      ordersPlanned plan = 50 + Math.floor (Double.mul (seededRand01 (daySeed + 77)) 51) /\
      targetSumMinor plan = Spec.targetSumMinor amount daySeed /\
      Spec.jitter daySeed
      = Double.add (Double.lit 9 10) (Double.mul (seededRand01 daySeed) (Double.lit 2 10)) /\
      daySeed + 77 <> daySeed /\
      Int32.toUint32 (daySeed + 77) <> Int32.toUint32 daySeed.
Proof.
  intros running investMinor platforms dayKey plan daySeed amount.
  destruct (investMinor <=? 0) eqn:E.
  - apply Z.leb_le in E. unfold plan. rewrite (planFor_nonpos investMinor dayKey E).
    repeat split. intros w es.
    rewrite (run_plansNothing running investMinor platforms E es).
    + reflexivity.
    + now apply buildPlan_plansNothing.
  - apply Z.leb_gt in E. unfold plan, daySeed.
    rewrite (planFor_pos investMinor dayKey E), (daySeedOf_pos investMinor dayKey E).
    cbn [ordersPlanned targetSumMinor]. fold amount.
    split; [apply ordersPlanned_range|]. split; [reflexivity|]. split; [reflexivity|].
    split; [reflexivity|]. split; [lia|].
    unfold Int32.toUint32, Int32.two32.
    generalize (Int32.xor match parseInt dayKey with Some n => n | None => 0 end
                          (Spec.scaledAmount amount)).
    intros z. Z.to_euclidean_division_equations. lia.
Qed.

(** With one major unit invested the second order already passes the
    target, on every day and for every noise draw. *)
Lemma emitter_overshoots_one_major_unit :
  forall (d : Date) (rs : list Q) (platforms : list RunPlatform),
    let w0 := buildPlan 100 (mkWorld d rs None []) in
    let w := run true 100 platforms [MakeOneOrder; MakeOneOrder] w0 in
    exists plan,
      planRef w = Some plan /\ ordersDone plan = 2 /\
      targetSumMinor plan = 1 /\ 2 <= producedMinor plan.
Proof.
  intros d rs platforms w0 w.
  destruct (planFor_one_major_unit (todayKey d)) as [Ht Hn].
  destruct (planFor_fresh 100 (todayKey d)) as (Hday & Hdone & Hprod).
  destruct (emissions_progress true 100 platforms 2 w0 (planFor 100 (todayKey d)))
    as (plan & H1 & H2 & H3 & H4 & H5).
  - reflexivity.
  - exact Hday.
  - rewrite Hdone. change (Z.of_nat 2) with 2. lia.
  - lia.
  - exists plan. unfold w.
    change (repeat MakeOneOrder 2) with [MakeOneOrder; MakeOneOrder] in H1.
    rewrite Hdone in H4. rewrite Hprod in H5. change (Z.of_nat 2) with 2 in H4, H5.
    repeat split; try assumption; lia.
Qed.

(** C3 (the target bound fails).  Every order emits at least one minor
    unit, also when less than that is left of the target.  With one major
    unit invested (target 1, at least 50 orders, on every day) the second
    order already takes [producedMinor] past [targetSumMinor].  With the
    minimum of 10,000 minor units invested on 3 January 2024 the plan has
    99 orders for a target of 92, and the 99 emissions, which do bring
    [ordersDone] to [ordersPlanned], produce at least 99.  Both hold for
    every sequence of noise draws. *)
Theorem emitter_overshoots_small_target :
  forall (d : Date) (rs : list Q) (platforms : list RunPlatform),
    (let w0 := buildPlan 100 (mkWorld d rs None []) in
     let w := run true 100 platforms [MakeOneOrder; MakeOneOrder] w0 in
     exists plan,
       planRef w = Some plan /\ ordersDone plan = 2 /\
       targetSumMinor plan = 1 /\ targetSumMinor plan < producedMinor plan) /\
    (let w0 := buildPlan 10000 (mkWorld (mkDate 1704240000000 2024 0 3) rs None []) in
     let w := run true 10000 platforms (repeat MakeOneOrder 99) w0 in
     planRef w0 = Some (mkPlan "20240103" 99 0 92 0) /\
     exists plan,
       planRef w = Some plan /\
       ordersPlanned plan = 99 /\ ordersDone plan = 99 /\
       targetSumMinor plan = 92 /\ targetSumMinor plan < producedMinor plan).
Proof.
  intros d rs platforms. split.
  - destruct (emitter_overshoots_one_major_unit d rs platforms) as (plan & H1 & H2 & H3 & H4).
    exists plan. repeat split; try assumption. lia.
  - intros w0 w.
    assert (Hp : planRef w0 = Some (mkPlan "20240103" 99 0 92 0)).
    { unfold w0, buildPlan, setPlan. cbn [planRef clock]. vm_compute. reflexivity. }
    split; [exact Hp|].
    destruct (emissions_progress true 10000 platforms 99 w0 _ Hp)
      as (plan & H1 & H2 & H3 & H4 & H5).
    + reflexivity.
    + cbn. lia.
    + cbn. lia.
    + exists plan. cbn in H2, H3, H4, H5. unfold w. repeat split; try assumption; lia.
Qed.

End EngineClaims.

(** ** The store actions *)

Section StoreActions.

Import Store.

Variable now : Z.
Variable suffix : nat -> string.

(** What [requestWithdrawal] does, case by case. *)
Lemma requestWithdrawal_invalid (amountMinor : Z) (s : AppState) :
  amountMinor <= 0 ->
  requestWithdrawal now suffix amountMinor s = (failure "Invalid amount.", s).
Proof.
  intros H. unfold requestWithdrawal. cbv zeta.
  assert (E : (amountMinor <=? 0) = true) by now apply Z.leb_le.
  now rewrite E.
Qed.

Lemma requestWithdrawal_insufficient (amountMinor : Z) (s : AppState) :
  0 < amountMinor -> availableMinor (wallet s) < amountMinor ->
  requestWithdrawal now suffix amountMinor s = (failure "Insufficient balance.", s).
Proof.
  intros H0 H1. unfold requestWithdrawal. cbv zeta.
  assert (E0 : (amountMinor <=? 0) = false) by now apply Z.leb_gt.
  assert (E1 : (amountMinor >? availableMinor (wallet s)) = true) by (apply Z.gtb_lt; lia).
  now rewrite E0, E1.
Qed.

Lemma requestWithdrawal_accepted (amountMinor : Z) (s : AppState) :
  0 < amountMinor -> amountMinor <= availableMinor (wallet s) ->
  let feeMinor := Math.round (Double.mul (inject_Z amountMinor) (Double.lit 1 100)) in
  let (r, s') := requestWithdrawal now suffix amountMinor s in
  r = success /\
  availableMinor (wallet s') = availableMinor (wallet s) - amountMinor - feeMinor /\
  pendingMinor (wallet s') = pendingMinor (wallet s) + amountMinor /\
  assets s' = assets s /\ accruedMinor s' = accruedMinor s /\
  exists e1 e2,
    ledger s' = e1 :: e2 :: ledger s /\
    type e1 = WITHDRAWAL_REQUEST /\ Store.amountMinor e1 = - amountMinor /\
    type e2 = WITHDRAWAL_FEE /\ Store.amountMinor e2 = - feeMinor.
Proof.
  intros H0 H1 feeMinor. unfold requestWithdrawal. cbv zeta.
  assert (E0 : (amountMinor <=? 0) = false) by now apply Z.leb_gt.
  assert (E1 : (amountMinor >? availableMinor (wallet s)) = false).
  { rewrite Z.gtb_ltb. apply Z.ltb_ge. lia. }
  rewrite E0, E1. cbn [wallet availableMinor pendingMinor assets accruedMinor ledger].
  repeat split. do 2 eexists. repeat split.
Qed.

(** A request within the balance but not within the balance less the fee
    is accepted and overdraws the wallet. *)
Lemma requestWithdrawal_overdraws (amountMinor : Z) (s : AppState) :
  0 < amountMinor -> amountMinor <= availableMinor (wallet s) ->
  availableMinor (wallet s) < amountMinor + Math.round (Double.mul (inject_Z amountMinor) (Double.lit 1 100)) ->
  ok (fst (requestWithdrawal now suffix amountMinor s)) = true /\
  availableMinor (wallet (snd (requestWithdrawal now suffix amountMinor s))) < 0.
Proof.
  intros H0 H1 H2.
  pose proof (requestWithdrawal_accepted amountMinor s H0 H1) as H. cbv zeta in H.
  destruct (requestWithdrawal now suffix amountMinor s) as [r s'].
  destruct H as (-> & Ha & _). cbn [fst snd ok success]. split; [reflexivity | lia].
Qed.

Lemma holding_setHolding (symbol : CryptoSymbol) (v : Q) (a : AssetBalances) :
  holding symbol (setHolding symbol v a) = v.
Proof. now destruct symbol. Qed.

Lemma usdtMinor_setHolding (symbol : CryptoSymbol) (v : Q) (a : AssetBalances) :
  usdtMinor (setHolding symbol v a) = usdtMinor a.
Proof. now destruct symbol. Qed.

Lemma setHolding_nonneg (symbol : CryptoSymbol) (v : Q) (a : AssetBalances) :
  (0 <= v)%Q -> (0 <= btc a)%Q -> (0 <= eth a)%Q ->
  (0 <= btc (setHolding symbol v a))%Q /\ (0 <= eth (setHolding symbol v a))%Q.
Proof. intros Hv Hb He. destruct symbol; cbn; now split. Qed.

(** [requestCryptoWithdrawal] on a finite positive amount: accepted
    exactly when amount + fee is at most the holding plus [epsilon], the
    two sums as the doubles the program computes. *)
Lemma requestCryptoWithdrawal_accepted (symbol : CryptoSymbol) (amount : Q) (s : AppState) :
  (0 < amount)%Q ->
  let fee := Double.mul amount (Double.lit 1 100) in
  let total := Double.add amount fee in
  (total <= Double.add (holding symbol (assets s)) epsilon)%Q ->
  requestCryptoWithdrawal now suffix symbol (Finite amount) s =
  (success,
   mkState (wallet s)
           (setHolding symbol
              (Math.max 0 (Double.sub (holding symbol (assets s)) total)) (assets s))
           (accruedMinor s)
           (mkEntry (createId "l" (suffix 0%nat)) WITHDRAWAL_REQUEST 0 (symbolName symbol) now
                    (Some (createId ("wd_" ++ symbolName symbol) (suffix 1%nat)))
                    (Some (CryptoMeta amount fee))
            :: ledger s)).
Proof.
  intros Hpos fee total Hle. unfold requestCryptoWithdrawal. cbv zeta.
  assert (E0 : Qle_bool amount 0 = false) by now apply Qle_bool_false.
  fold fee. fold total.
  assert (E1 : Qle_bool total (Double.add (holding symbol (assets s)) epsilon) = true)
    by now apply Qle_bool_iff.
  now rewrite E0, E1.
Qed.

Lemma requestCryptoWithdrawal_rejected (symbol : CryptoSymbol) (amount : Q) (s : AppState) :
  (0 < amount)%Q ->
  (Double.add (holding symbol (assets s)) epsilon
   < Double.add amount (Double.mul amount (Double.lit 1 100)))%Q ->
  requestCryptoWithdrawal now suffix symbol (Finite amount) s =
  (failure ("Insufficient " ++ symbolName symbol ++ "."), s).
Proof.
  intros Hpos Hlt. unfold requestCryptoWithdrawal. cbv zeta.
  assert (E0 : Qle_bool amount 0 = false) by now apply Qle_bool_false.
  assert (E1 : Qle_bool (Double.add amount (Double.mul amount (Double.lit 1 100)))
                        (Double.add (holding symbol (assets s)) epsilon) = false)
    by now apply Qle_bool_false.
  now rewrite E0, E1.
Qed.

Lemma exchange_toUsdt_accepted (symbol : CryptoSymbol) (price amount : Q) (s : AppState) :
  (0 < price)%Q -> (0 < amount)%Q ->
  (amount <= Double.add (holding symbol (assets s)) epsilon)%Q ->
  let added := Math.round (Double.mul (Double.mul amount price) 100) in
  let assets1 := setHolding symbol (Math.max 0 (Double.sub (holding symbol (assets s)) amount))
                            (assets s) in
  exchange now suffix (mkParams CRYPTO_TO_USDT symbol (Finite price) (Some (Finite amount)) None) s =
  (success,
   mkState (mkWallet (availableMinor (wallet s) + added) (pendingMinor (wallet s))
                     (currency (wallet s)) now)
           (mkAssets (usdtMinor assets1 + added) (btc assets1) (eth assets1))
           (accruedMinor s)
           (mkEntry (createId "l" (suffix 0%nat)) ADJUSTMENT added "USD" now
                    (Some ("EX_" ++ symbolName symbol ++ "_TO_USDT")%string) None
            :: ledger s)).
Proof.
  intros Hprice Hpos Hle added assets1. unfold exchange. cbv zeta.
  cbn [priceUsdtPerCrypto direction amountCrypto Store.symbol].
  assert (Ep : Qle_bool price 0 = false) by now apply Qle_bool_false.
  assert (E0 : Qle_bool amount 0 = false) by now apply Qle_bool_false.
  assert (E1 : Qle_bool amount (Double.add (holding symbol (assets s)) epsilon) = true)
    by now apply Qle_bool_iff.
  now rewrite Ep, E0, E1.
Qed.

Lemma exchange_toUsdt_rejected (symbol : CryptoSymbol) (price amount : Q) (s : AppState) :
  (0 < price)%Q -> (0 < amount)%Q ->
  (Double.add (holding symbol (assets s)) epsilon < amount)%Q ->
  exchange now suffix (mkParams CRYPTO_TO_USDT symbol (Finite price) (Some (Finite amount)) None) s =
  (failure ("Insufficient " ++ symbolName symbol ++ "."), s).
Proof.
  intros Hprice Hpos Hlt. unfold exchange. cbv zeta.
  cbn [priceUsdtPerCrypto direction amountCrypto Store.symbol].
  assert (Ep : Qle_bool price 0 = false) by now apply Qle_bool_false.
  assert (E0 : Qle_bool amount 0 = false) by now apply Qle_bool_false.
  assert (E1 : Qle_bool amount (Double.add (holding symbol (assets s)) epsilon) = false)
    by now apply Qle_bool_false.
  now rewrite Ep, E0, E1.
Qed.

(** A double that exceeds a holding by at most 1e-12 passes the program's
    test against the double sum of the holding and the double 1e-12. *)
Lemma tolerance_covers (held T : Q) (m : Z) :
  (0 <= held)%Q -> (T == inject_Z m * Double.pow2 (Double.expOf T))%Q ->
  (T - held <= 1 # 1000000000000)%Q -> (T <= Double.add held epsilon)%Q.
Proof.
  intros Hh G Hx. unfold Double.add.
  assert (E0 : (Double.pow2 (-40) <= epsilon)%Q)
    by (apply Qle_computed; vm_compute; reflexivity).
  assert (E1 : ((1 # 1000000000000) - epsilon < Double.pow2 (-92) * (1 # 2))%Q)
    by (vm_compute; reflexivity).
  pose proof (pow2_pos (-40)) as P40.
  set (L := (held + epsilon)%Q).
  assert (PL : (0 < L)%Q) by (unfold L; lra).
  destruct (Qlt_le_dec L T) as [Above|Below].
  - destruct (grid_coarser T L m PL ltac:(lra) G) as [t Gt].
    apply (rnd_reaches L T t PL Gt).
    destruct (ilog2_spec L PL) as [_ Shi].
    assert (Hi : -40 < Double.ilog2 L + 1) by (apply pow2_lt_inv; unfold L in *; lra).
    assert (He : -92 <= Double.expOf L) by (rewrite (expOf_pos L PL); lia).
    pose proof (pow2_le _ _ He) as Hp.
    unfold L in *. lra.
  - apply Qle_trans with (Double.rnd T); [|now apply rnd_mono].
    rewrite (rnd_fixed T m G). lra.
Qed.

End StoreActions.

(** C9. Crypto balance checks tolerate an excess of up to [epsilon]
    (1e-12) and clamp at zero, in the program's floating-point
    arithmetic.  With fee the double amount x 0.01, total the double
    amount + fee and limit the double holding + 1e-12, a crypto withdrawal
    of a positive amount succeeds when total is at most limit and is
    rejected, with the state untouched, only when total is greater; on
    success the holding becomes max(0, holding - total), the difference
    again a double, which is never negative whatever the rounding did.
    In exact terms: a total that exceeds a holding, not negative, by at
    most 1e-12 is accepted, so that a rejection means an excess greater
    than 1e-12.  The crypto to USDT exchange does the same with the
    exchanged amount, itself a double. *)
Theorem crypto_checks_tolerate_epsilon :
  forall (now : Z) (suffix : nat -> string) (symbol : Store.CryptoSymbol)
         (amount price : Q) (s : Store.AppState),
    (0 < amount)%Q -> (0 < price)%Q ->
    let held := Store.holding symbol (Store.assets s) in
    let fee := Double.mul amount (Double.lit 1 100) in
    let total := Double.add amount fee in
    let limit := Double.add held Store.epsilon in
    let wd := Store.requestCryptoWithdrawal now suffix symbol (Finite amount) s in
    let ex := Store.exchange now suffix
                (Store.mkParams Store.CRYPTO_TO_USDT symbol (Finite price) (Some (Finite amount)) None) s in
    ((total <= limit)%Q ->
       Store.ok (fst wd) = true /\
       Store.holding symbol (Store.assets (snd wd)) = Math.max 0 (Double.sub held total) /\
       (0 <= Store.holding symbol (Store.assets (snd wd)))%Q) /\
    ((limit < total)%Q -> Store.ok (fst wd) = false /\ snd wd = s) /\
    ((0 <= held)%Q -> (total - held <= 1 # 1000000000000)%Q -> Store.ok (fst wd) = true) /\
    ((0 <= held)%Q -> Store.ok (fst wd) = false -> (1 # 1000000000000 < total - held)%Q) /\
    ((amount <= limit)%Q ->
       Store.ok (fst ex) = true /\
       Store.holding symbol (Store.assets (snd ex)) = Math.max 0 (Double.sub held amount) /\
       (0 <= Store.holding symbol (Store.assets (snd ex)))%Q) /\
    ((limit < amount)%Q -> Store.ok (fst ex) = false /\ snd ex = s) /\
    ((0 <= held)%Q -> (Double.rnd amount == amount)%Q ->
     (amount - held <= 1 # 1000000000000)%Q -> Store.ok (fst ex) = true) /\
    Store.epsilon = Double.lit 1 1000000000000.
Proof.
  intros now suffix symbol amount price s Hpos Hprice held fee total limit wd ex.
  assert (W1 : (total <= limit)%Q -> Store.ok (fst wd) = true).
  { intros H. unfold wd.
    rewrite requestCryptoWithdrawal_accepted; [reflexivity | assumption | assumption]. }
  assert (W2 : (limit < total)%Q -> Store.ok (fst wd) = false /\ snd wd = s).
  { intros H. unfold wd.
    rewrite requestCryptoWithdrawal_rejected; [split; reflexivity | assumption | assumption]. }
  assert (X1 : (amount <= limit)%Q -> Store.ok (fst ex) = true).
  { intros H. unfold ex.
    rewrite exchange_toUsdt_accepted; [reflexivity | assumption | assumption | assumption]. }
  assert (Pt : (0 < amount + fee)%Q).
  { assert (0 <= fee)%Q by (unfold fee; apply mul_nonneg; [lra|];
                            apply Qle_computed; vm_compute; reflexivity).
    lra. }
  assert (W3 : (0 <= held)%Q -> (total - held <= 1 # 1000000000000)%Q ->
               Store.ok (fst wd) = true).
  { intros Hh Hx. apply W1. destruct (rnd_grid _ Pt) as [m G].
    apply (tolerance_covers held total m Hh G Hx). }
  split; [|split; [|split; [|split; [|split; [|split; [|split]]]]]].
  - intros H. split; [now apply W1|].
    unfold wd. rewrite requestCryptoWithdrawal_accepted; [| assumption | assumption].
    cbn [snd Store.assets]. rewrite holding_setHolding. split; [reflexivity | apply max_nonneg].
  - exact W2.
  - exact W3.
  - intros Hh Hno. destruct (Qlt_le_dec (1 # 1000000000000) (total - held)) as [L|L]; [exact L|].
    rewrite (W3 Hh L) in Hno. discriminate Hno.
  - intros H. split; [now apply X1|].
    unfold ex. rewrite exchange_toUsdt_accepted; [| assumption | assumption | assumption].
    cbn [snd Store.assets].
    destruct symbol; cbn [Store.holding Store.setHolding Store.btc Store.eth];
      (split; [reflexivity | apply max_nonneg]).
  - intros H. unfold ex.
    rewrite exchange_toUsdt_rejected; [split; reflexivity | assumption | assumption | assumption].
  - intros Hh Hd Hx. apply X1. destruct (rnd_grid _ Hpos) as [m G].
    assert (N : ~ (Double.rnd amount == 0)%Q) by (rewrite Hd; lra).
    rewrite (expOf_comp _ _ N Hd), Hd in G.
    apply (tolerance_covers held amount m Hh G Hx).
  - reflexivity.
Qed.

(** The tolerance at work on the store as created, which holds 0.4201
    ETH: withdrawing 0.415940594060396 ETH is accepted and leaves a
    holding of exactly zero.  The amount and a hundredth of it, added
    without rounding, exceed the holding by more than 1e-12; the total the
    program computes exceeds it by less. *)
Lemma crypto_checks_tolerate_epsilon_witness :
  let s := Store.initialState [] 0 in
  let held := Store.holding Store.ETH (Store.assets s) in
  let amount := Double.lit 415940594060396 1000000000000000 in
  let total := Double.add amount (Double.mul amount (Double.lit 1 100)) in
  let wd := Store.requestCryptoWithdrawal 0 (fun _ => "x"%string) Store.ETH (Finite amount) s in
  (1 # 1000000000000 < amount + amount * (1 # 100) - held)%Q /\
  (held < total)%Q /\ (total - held < 1 # 1000000000000)%Q /\
  Store.ok (fst wd) = true /\
  Store.holding Store.ETH (Store.assets (snd wd)) = 0%Q.
Proof.
  intros s held amount total wd.
  assert (Ha : (0 < amount)%Q) by (vm_compute; reflexivity).
  assert (Hp : (0 < 60000)%Q) by (vm_compute; reflexivity).
  destruct (crypto_checks_tolerate_epsilon 0 (fun _ => "x"%string) Store.ETH amount 60000 s Ha Hp)
    as [H _].
  assert (Hle : (Double.add amount (Double.mul amount (Double.lit 1 100))
                 <= Double.add (Store.holding Store.ETH (Store.assets s)) Store.epsilon)%Q)
    by (apply Qle_computed; vm_compute; reflexivity).
  destruct (H Hle) as (Hok & Hh & _).
  split; [vm_compute; reflexivity|]. split; [vm_compute; reflexivity|].
  split; [vm_compute; reflexivity|]. split; [exact Hok|].
  unfold wd. rewrite Hh. vm_compute. reflexivity.
Defined.

(** ** The run control panel *)

Section Panel.

Import Store RunControlPanel.

Variable now : Z.
Variable suffix : string.

Lemma handleStart_no_address (v : number Q) (p : Panel) (s : AppState) :
  handleStart false v now suffix p s = (toastError "run.needAddress", p, s).
Proof. reflexivity. Qed.

Lemma handleStart_invalid (v : number Q) (p : Panel) (s : AppState) :
  parseInvestMinor v = None ->
  handleStart true v now suffix p s = (toastError "run.investInvalid", p, s).
Proof. intros H. unfold handleStart. cbn [negb]. now rewrite H. Qed.

Lemma handleStart_below_minimum (v : number Q) (m : Z) (p : Panel) (s : AppState) :
  parseInvestMinor v = Some m -> m < 10000 ->
  handleStart true v now suffix p s = (toastError "run.min100", p, s).
Proof.
  intros H Hlt. unfold handleStart. cbn [negb]. rewrite H.
  assert (E : (m <? MIN_MINOR) = true) by (apply Z.ltb_lt; exact Hlt).
  now rewrite E.
Qed.

Lemma handleStart_exceeds (v : number Q) (m : Z) (p : Panel) (s : AppState) :
  parseInvestMinor v = Some m -> 10000 <= m -> availableMinor (wallet s) < m ->
  handleStart true v now suffix p s = (toastError "run.investExceed", p, s).
Proof.
  intros H Hge Hlt. unfold handleStart. cbn [negb]. rewrite H.
  assert (E0 : (m <? MIN_MINOR) = false) by (apply Z.ltb_ge; exact Hge).
  assert (E1 : (m >? availableMinor (wallet s)) = true) by (apply Z.gtb_lt; lia).
  now rewrite E0, E1.
Qed.

Lemma handleStart_accepted (v : number Q) (m : Z) (p : Panel) (s : AppState) :
  parseInvestMinor v = Some m -> 10000 <= m -> m <= availableMinor (wallet s) ->
  handleStart true v now suffix p s =
  (toastSuccess "run.running", mkPanel true now,
   mkState (mkWallet (availableMinor (wallet s) - m) (pendingMinor (wallet s) + m)
                     (currency (wallet s)) now)
           (assets s) (accruedMinor s)
           (mkEntry ("l_" ++ suffix) ADJUSTMENT (- m) (currency (wallet s)) now
                    (Some "run-invest"%string) None
            :: ledger s)).
Proof.
  intros H Hge Hle. unfold handleStart. cbn [negb]. rewrite H.
  assert (E0 : (m <? MIN_MINOR) = false) by (apply Z.ltb_ge; exact Hge).
  assert (E1 : (m >? availableMinor (wallet s)) = false).
  { rewrite Z.gtb_ltb. apply Z.ltb_ge. lia. }
  now rewrite E0, E1.
Qed.

End Panel.

(** C5, as the code has it.  The amount is [investMinor], the minor
    units [parseInvestMinor] reads from the input.  When a receiving
    address is bound, the run starts exactly when the input gives an
    amount [m] with 10,000 <= m <= availableMinor; on success
    [availableMinor] drops by [m], [pendingMinor] grows by [m] (so the
    old [availableMinor] is the new one plus the growth of
    [pendingMinor]) and exactly one ADJUSTMENT row of amount [- m] is put
    on the ledger; an amount under 10,000 is refused as below the
    minimum and one above the balance as exceeding it.  Without a bound
    address the operation is refused whatever the amount.  Every refusal,
    on either side, leaves the panel and the whole store, so every wallet
    field and the ledger, as they were.  Entering 100 with an address
    succeeds when the balance covers it, entering 99.99 is refused as
    below the minimum. *)
Theorem handleStart_outcome :
  forall (hasAddress : bool) (v : number Q) (now : Z) (suffix : string)
         (p : RunControlPanel.Panel) (s : Store.AppState),
    let r := RunControlPanel.handleStart hasAddress v now suffix p s in
    let toast := fst (fst r) in
    let s' := snd r in
    let available := Store.availableMinor (Store.wallet s) in
    (toast = RunControlPanel.toastSuccess "run.running" <->
       hasAddress = true /\
       exists m, RunControlPanel.parseInvestMinor v = Some m /\ 10000 <= m <= available) /\
    (forall m, hasAddress = true -> RunControlPanel.parseInvestMinor v = Some m ->
       (10000 <= m <= available ->
          Store.availableMinor (Store.wallet s') = available - m /\
          Store.pendingMinor (Store.wallet s') = Store.pendingMinor (Store.wallet s) + m /\
          available = Store.availableMinor (Store.wallet s')
                      + (Store.pendingMinor (Store.wallet s') - Store.pendingMinor (Store.wallet s)) /\
          Store.assets s' = Store.assets s /\
          exists e, Store.ledger s' = e :: Store.ledger s /\
                    Store.type e = Store.ADJUSTMENT /\ Store.amountMinor e = - m) /\
       (m < 10000 -> toast = RunControlPanel.toastError "run.min100") /\
       (10000 <= m -> available < m -> toast = RunControlPanel.toastError "run.investExceed")) /\
    (hasAddress = false -> toast = RunControlPanel.toastError "run.needAddress") /\
    (toast <> RunControlPanel.toastSuccess "run.running" -> snd (fst r) = p /\ s' = s) /\
    (10000 <= available ->
       fst (fst (RunControlPanel.handleStart true (Finite 100%Q) now suffix p s))
       = RunControlPanel.toastSuccess "run.running") /\
    RunControlPanel.handleStart true (Finite (Double.lit 9999 100)) now suffix p s
    = (RunControlPanel.toastError "run.min100", p, s).
Proof.
  intros hasAddress v now suffix p s r toast s' available.
  assert (Cases :
    (hasAddress = false /\ r = (RunControlPanel.toastError "run.needAddress", p, s)) \/
    (hasAddress = true /\ RunControlPanel.parseInvestMinor v = None /\
       r = (RunControlPanel.toastError "run.investInvalid", p, s)) \/
    (exists m, hasAddress = true /\ RunControlPanel.parseInvestMinor v = Some m /\ m < 10000 /\
       r = (RunControlPanel.toastError "run.min100", p, s)) \/
    (exists m, hasAddress = true /\ RunControlPanel.parseInvestMinor v = Some m /\
       10000 <= m /\ available < m /\
       r = (RunControlPanel.toastError "run.investExceed", p, s)) \/
    (exists m, hasAddress = true /\ RunControlPanel.parseInvestMinor v = Some m /\
       10000 <= m <= available /\
       r = (RunControlPanel.toastSuccess "run.running", RunControlPanel.mkPanel true now,
            Store.mkState
              (Store.mkWallet (available - m) (Store.pendingMinor (Store.wallet s) + m)
                              (Store.currency (Store.wallet s)) now)
              (Store.assets s) (Store.accruedMinor s)
              (Store.mkEntry ("l_" ++ suffix) Store.ADJUSTMENT (- m)
                             (Store.currency (Store.wallet s)) now
                             (Some "run-invest"%string) None
               :: Store.ledger s)))).
  { destruct hasAddress.
    - right. destruct (RunControlPanel.parseInvestMinor v) as [m|] eqn:Hv.
      + right. destruct (Z_lt_le_dec m 10000) as [Hlt|Hge];
          [|destruct (Z_lt_le_dec available m) as [Hex|Hok]].
        * left. exists m. repeat split; try assumption.
          apply (handleStart_below_minimum now suffix v m p s Hv Hlt).
        * right. left. exists m. repeat split; try assumption.
          apply (handleStart_exceeds now suffix v m p s Hv Hge Hex).
        * right. right. exists m. repeat split; try assumption.
          apply (handleStart_accepted now suffix v m p s Hv Hge Hok).
      + left. repeat split. apply (handleStart_invalid now suffix v p s Hv).
    - left. split; [reflexivity|]. apply handleStart_no_address. }
  split; [|split; [|split; [|split; [|split]]]].
  - unfold toast.
    destruct Cases as [(Ha & Hr) | [(Ha & Hv & Hr) | [(m & Ha & Hv & Hm & Hr) |
                      [(m & Ha & Hv & Hm & Hx & Hr) | (m & Ha & Hv & Hm & Hr)]]]];
      rewrite Hr; cbn [fst]; split; try discriminate.
    + intros [Hb _]. congruence.
    + intros (_ & m & Hm & _). congruence.
    + intros (_ & m' & Hm' & Hb). assert (m' = m) by congruence. lia.
    + intros (_ & m' & Hm' & Hb). assert (m' = m) by congruence. lia.
    + intros _. split; [exact Ha|]. exists m. split; assumption.
    + intros _. reflexivity.
  - intros m Ha Hv. unfold toast, s'.
    destruct Cases as [(Ha' & Hr) | [(_ & Hv' & Hr) | [(m' & _ & Hv' & Hm & Hr) |
                      [(m' & _ & Hv' & Hm & Hx & Hr) | (m' & _ & Hv' & Hm & Hr)]]]];
      try congruence;
      assert (Em : m' = m) by congruence; subst m'; rewrite Hr;
      cbn [fst snd Store.wallet Store.availableMinor Store.pendingMinor Store.assets Store.ledger].
    + split; [intros; lia|]. split; [reflexivity|]. intros; lia.
    + split; [intros; lia|]. split; [intros; lia|]. reflexivity.
    + split; [|split; intros; lia].
      intros _. repeat split; try lia. eexists. repeat split.
  - intros Ha. unfold toast.
    destruct Cases as [(_ & Hr) | [(Ha' & _) | [(m & Ha' & _) | [(m & Ha' & _) | (m & Ha' & _)]]]];
      try congruence.
    now rewrite Hr.
  - unfold toast, s'.
    destruct Cases as [(Ha & Hr) | [(Ha & Hv & Hr) | [(m & Ha & Hv & Hm & Hr) |
                      [(m & Ha & Hv & Hm & Hx & Hr) | (m & Ha & Hv & Hm & Hr)]]]];
      rewrite Hr; cbn [fst snd]; intros Hn; try (split; reflexivity).
    now elim Hn.
  - intros Hcover.
    rewrite (handleStart_accepted now suffix (Finite 100%Q) 10000 p s);
      [reflexivity | vm_compute; reflexivity | lia |].
    exact Hcover.
  - apply (handleStart_below_minimum now suffix (Finite (Double.lit 9999 100)) 9999);
      [vm_compute; reflexivity | lia].
Qed.

(** The demo wallet (available 12,000): with an address bound, entering
    100 starts the run and moves 10,000 from available to pending; without
    one the same input is refused. *)
Lemma handleStart_outcome_witness :
  let s := Store.initialState [] 0 in
  let p := RunControlPanel.mkPanel false 0 in
  let s' := snd (RunControlPanel.handleStart true (Finite 100%Q) 5 "x" p s) in
  (Store.availableMinor (Store.wallet s') = 2000 /\
   Store.pendingMinor (Store.wallet s') = 10000) /\
  fst (fst (RunControlPanel.handleStart false (Finite 100%Q) 5 "x" p s))
  = RunControlPanel.toastError "run.needAddress".
Proof.
  intros s p s'. split.
  - destruct (handleStart_outcome true (Finite 100%Q) 5 "x" p s) as (_ & H & _).
    assert (Hv : RunControlPanel.parseInvestMinor (Finite 100%Q) = Some 10000)
      by (vm_compute; reflexivity).
    destruct (H 10000 eq_refl Hv) as (H1 & _).
    assert (Hc : 10000 <= 10000 <= Store.availableMinor (Store.wallet s))
      by (vm_compute; split; discriminate).
    destruct (H1 Hc) as (Ha & Hp & _).
    split; [exact Ha | exact Hp].
  - destruct (handleStart_outcome false (Finite 100%Q) 5 "x" p s) as (_ & _ & H & _).
    exact (H eq_refl).
Defined.

(** C5, as stated, fails: without a bound address the amount of 100 major
    units, which is at least the minimum and within the balance of 12,000
    minor units, does not start the run. *)
Lemma handleStart_refused_without_address :
  let s := Store.initialState [] 0 in
  let p := RunControlPanel.mkPanel false 0 in
  RunControlPanel.parseInvestMinor (Finite 100%Q) = Some 10000 /\
  10000 <= 10000 <= Store.availableMinor (Store.wallet s) /\
  RunControlPanel.handleStart false (Finite 100%Q) 5 "x" p s
  = (RunControlPanel.toastError "run.needAddress", p, s).
Proof.
  cbv zeta. split; [reflexivity|]. split; [|reflexivity].
  vm_compute. split; discriminate.
Qed.

(** ** Every action against the two balance invariants *)

Section Balances.

Import Store Session.

Ltac break_match :=
  match goal with
  | |- context [match ?x with _ => _ end] => destruct x eqn:?
  end.

Ltac to_props :=
  repeat match goal with
         | H : Qle_bool _ _ = true |- _ => apply Qle_bool_iff in H
         | H : Qle_bool _ _ = false |- _ => apply Qle_bool_false in H
         | H : negb _ = true |- _ => apply negb_true_iff in H
         | H : negb _ = false |- _ => apply negb_false_iff in H
         | H : (_ || _) = false |- _ => apply orb_false_iff in H; destruct H
         | H : (_ >? _) = false |- _ => rewrite Z.gtb_ltb in H; apply Z.ltb_ge in H
         | H : (_ >? _) = true |- _ => apply Z.gtb_lt in H
         | H : (_ <? _) = false |- _ => apply Z.ltb_ge in H
         | H : (_ <? _) = true |- _ => apply Z.ltb_lt in H
         | H : (_ <=? _) = false |- _ => apply Z.leb_gt in H
         | H : (_ <=? _) = true |- _ => apply Z.leb_le in H
         end.

Variable now : Z.
Variable suffix : nat -> string.

Lemma scaled_product_nonneg (a b : Q) :
  (0 < a)%Q -> (0 < b)%Q -> (0 <= Double.mul (Double.mul a b) 100)%Q.
Proof.
  intros Ha Hb. apply mul_nonneg; [apply mul_nonneg; lra | discriminate].
Qed.

Lemma crypto_bought_nonneg (amtMinor : Z) (price : Q) :
  0 < amtMinor -> (0 < price)%Q ->
  (0 <= Double.div (Double.div (inject_Z amtMinor) 100) price)%Q.
Proof.
  intros Ha Hp.
  apply div_nonneg; [|exact Hp]. apply div_nonneg; [|reflexivity].
  change 0%Q with (inject_Z 0). rewrite <- Zle_Qle. lia.
Qed.

(** [pendingMinor] under the store actions. *)
Lemma manualPayout_pending (s : AppState) :
  pendingMinor (wallet (manualPayout now suffix s)) = pendingMinor (wallet s).
Proof. unfold manualPayout. cbv zeta. now destruct (accruedMinor s <=? 0). Qed.

Lemma requestWithdrawal_pending (amountMinor : Z) (s : AppState) :
  let s' := snd (requestWithdrawal now suffix amountMinor s) in
  (s' = s) \/
  (0 < amountMinor /\ pendingMinor (wallet s') = pendingMinor (wallet s) + amountMinor).
Proof.
  unfold requestWithdrawal. cbv zeta.
  repeat break_match; cbn [snd wallet pendingMinor]; to_props; auto.
Qed.

Lemma requestCryptoWithdrawal_wallet (symbol : CryptoSymbol) (amountCrypto : number Q)
      (s : AppState) :
  wallet (snd (requestCryptoWithdrawal now suffix symbol amountCrypto s)) = wallet s.
Proof.
  unfold requestCryptoWithdrawal. cbv zeta. repeat break_match; reflexivity.
Qed.

Lemma exchange_pending (params : ExchangeParams) (s : AppState) :
  pendingMinor (wallet (snd (exchange now suffix params s))) = pendingMinor (wallet s).
Proof.
  unfold exchange. cbv zeta. repeat break_match; reflexivity.
Qed.

(** Non-negative balances under the store actions. *)
Lemma manualPayout_nonNegative (s : AppState) :
  nonNegative s -> nonNegative (manualPayout now suffix s).
Proof.
  unfold nonNegative, manualPayout. cbv zeta. intros (Ha & Hp & Hu & Hb & He).
  break_match; cbn [wallet assets availableMinor pendingMinor]; to_props; repeat split;
    try assumption; lia.
Qed.

Lemma requestCryptoWithdrawal_nonNegative (symbol : CryptoSymbol) (amountCrypto : number Q)
      (s : AppState) :
  nonNegative s -> nonNegative (snd (requestCryptoWithdrawal now suffix symbol amountCrypto s)).
Proof.
  unfold nonNegative. intros (Ha & Hp & Hu & Hb & He).
  rewrite requestCryptoWithdrawal_wallet.
  unfold requestCryptoWithdrawal. cbv zeta.
  repeat break_match; cbn [snd assets]; repeat split; try assumption;
    try (now rewrite usdtMinor_setHolding);
    apply setHolding_nonneg; try assumption; apply max_nonneg.
Qed.

Lemma exchange_nonNegative (params : ExchangeParams) (s : AppState) :
  nonNegative s -> nonNegative (snd (exchange now suffix params s)).
Proof.
  unfold nonNegative. intros (Ha & Hp & Hu & Hb & He).
  unfold exchange. cbv zeta.
  destruct (priceUsdtPerCrypto params) as [price|]; [|now repeat split].
  destruct (Qle_bool price 0) eqn:Eprice; [now repeat split|]. to_props.
  destruct (direction params).
  - destruct (match amountCrypto params with Some a => a | None => Finite 0%Q end) as [amt|];
      [|now repeat split].
    destruct (Qle_bool amt 0) eqn:Eamt; [now repeat split|].
    destruct (negb _) eqn:Echeck; [now repeat split|]. to_props.
    pose proof (round_nonneg _ (scaled_product_nonneg amt price Eamt Eprice)) as Hadd.
    cbn [snd wallet assets availableMinor pendingMinor usdtMinor btc eth].
    rewrite usdtMinor_setHolding.
    repeat split; try lia; apply setHolding_nonneg; try assumption; apply max_nonneg.
  - destruct (match amountUsdtMinor params with Some a => a | None => Finite 0 end) as [amtMinor|];
      [|now repeat split].
    destruct (amtMinor <=? 0) eqn:Eamt; [now repeat split|].
    destruct (_ || _) eqn:Echeck; [now repeat split|]. to_props.
    pose proof (crypto_bought_nonneg amtMinor price Eamt Eprice) as Hadd.
    cbn [snd wallet assets availableMinor pendingMinor].
    rewrite usdtMinor_setHolding. cbn [usdtMinor].
    repeat split; try lia;
      apply setHolding_nonneg; cbn [btc eth]; try assumption;
      apply add_nonneg; try assumption;
      destruct (Store.symbol params); cbn [holding btc eth]; assumption.
Qed.

Lemma requestWithdrawal_nonNegative (amountMinor : Z) (s : AppState) :
  amountMinor + Math.round (Double.mul (inject_Z amountMinor) (Double.lit 1 100)) <= availableMinor (wallet s) ->
  nonNegative s -> nonNegative (snd (requestWithdrawal now suffix amountMinor s)).
Proof.
  unfold nonNegative. intros Hfee (Ha & Hp & Hu & Hb & He).
  unfold requestWithdrawal. cbv zeta.
  repeat break_match; cbn [snd wallet assets availableMinor pendingMinor]; to_props;
    repeat split; try assumption; lia.
Qed.

End Balances.

(** ** Sessions *)

Section Sessions.

Import Store Session.

Lemma handleStart_pending (hasAddress : bool) (v : number Q) (now : Z) (suffix : string)
      (p : RunControlPanel.Panel) (s : AppState) :
  let s' := snd (RunControlPanel.handleStart hasAddress v now suffix p s) in
  s' = s \/
  exists m, 10000 <= m <= availableMinor (wallet s) /\
            pendingMinor (wallet s') = pendingMinor (wallet s) + m /\
            availableMinor (wallet s') = availableMinor (wallet s) - m /\
            assets s' = assets s.
Proof.
  cbv zeta. destruct hasAddress; [|now left].
  destruct (RunControlPanel.parseInvestMinor v) as [m|] eqn:Hv.
  - destruct (Z_lt_le_dec m 10000) as [Hlt|Hge];
      [|destruct (Z_lt_le_dec (availableMinor (wallet s)) m) as [Hex|Hok]].
    + left. now rewrite (handleStart_below_minimum now suffix v m p s Hv Hlt).
    + left. now rewrite (handleStart_exceeds now suffix v m p s Hv Hge Hex).
    + right. exists m. rewrite (handleStart_accepted now suffix v m p s Hv Hge Hok).
      cbn. repeat split; lia.
  - left. now rewrite (handleStart_invalid now suffix v p s Hv).
Qed.

Lemma step_pending (st : State) (eo : Env * Op) :
  pendingMinor (wallet (snd st)) <= pendingMinor (wallet (snd (step st eo))).
Proof.
  destruct st as [p s], eo as [env op].
  destruct op as [hasAddress investInput | | o | | amount | symbol amount | params];
    cbn [step snd].
  - pose proof (handleStart_pending hasAddress investInput (now env) (suffix env 0%nat) p s) as H.
    cbv zeta in H.
    destruct (RunControlPanel.handleStart _ _ _ _ _ _) as [[t p'] s']. cbn [snd] in *.
    destruct H as [-> | (m & Hm & Hp & _)]; lia.
  - reflexivity.
  - reflexivity.
  - rewrite manualPayout_pending. reflexivity.
  - pose proof (requestWithdrawal_pending (now env) (suffix env) amount s) as H.
    cbv zeta in H. destruct H as [-> | [Hpos ->]]; lia.
  - rewrite requestCryptoWithdrawal_wallet. reflexivity.
  - rewrite exchange_pending. reflexivity.
Qed.

Lemma run_pending (ops : list (Env * Op)) :
  forall st, pendingMinor (wallet (snd st)) <= pendingMinor (wallet (snd (run ops st))).
Proof.
  induction ops as [|eo ops IH]; intros st; [reflexivity|].
  cbn [run fold_left]. etransitivity; [apply step_pending | apply IH].
Qed.

(** Every step but the fiat withdrawal keeps the balances non-negative,
    and so does a fiat withdrawal whose amount plus fee is covered. *)
Lemma step_nonNegative (st : State) (env : Env) (op : Op) :
  match op with
  | Withdraw amountMinor =>
      amountMinor + Math.round (Double.mul (inject_Z amountMinor) (Double.lit 1 100))
      <= availableMinor (wallet (snd st))
  | _ => True
  end ->
  nonNegative (snd st) -> nonNegative (snd (step st (env, op))).
Proof.
  destruct st as [p s]. intros Hop Hs.
  destruct op as [hasAddress investInput | | o | | amount | symbol amount | params];
    cbn [step snd] in *.
  - pose proof (handleStart_pending hasAddress investInput (now env) (suffix env 0%nat) p s) as H.
    cbv zeta in H.
    destruct (RunControlPanel.handleStart _ _ _ _ _ _) as [[t p'] s']. cbn [snd] in *.
    destruct H as [-> | (m & Hm & Hp & Ha & Has)]; [exact Hs|].
    unfold nonNegative in *. rewrite Hp, Ha, Has. intuition lia.
  - exact Hs.
  - exact Hs.
  - now apply manualPayout_nonNegative.
  - now apply requestWithdrawal_nonNegative.
  - now apply requestCryptoWithdrawal_nonNegative.
  - now apply exchange_nonNegative.
Qed.

End Sessions.

(** C10. [pendingMinor] never decreases.  Over any sequence of
    operations it ends at least where it started; starting a run and a
    fiat withdrawal request either leave it alone (when refused) or add
    the amount to it; recording an order, a manual payout, a crypto
    withdrawal and an exchange in either direction leave it unchanged;
    and stopping a run leaves the whole store as it was -- it only
    clears the running flag, the invested capital stays pending. *)
Theorem pendingMinor_never_decreases :
  forall (ops : list (Session.Env * Session.Op)) (env : Session.Env) (op : Session.Op)
         (p : RunControlPanel.Panel) (s : Store.AppState),
    let pending := fun st : Session.State => Store.pendingMinor (Store.wallet (snd st)) in
    let st' := Session.step (p, s) (env, op) in
    pending (p, s) <= pending (Session.run ops (p, s)) /\
    pending (p, s) <= pending st' /\
    match op with
    | Session.StartRun _ _ =>
        snd st' = s \/ exists m, 10000 <= m /\ pending st' = pending (p, s) + m
    | Session.Withdraw amountMinor =>
        snd st' = s \/ (0 < amountMinor /\ pending st' = pending (p, s) + amountMinor)
    | Session.StopRun =>
        snd st' = s /\ RunControlPanel.running (fst st') = false /\
        RunControlPanel.startedAt (fst st') = RunControlPanel.startedAt p
    | Session.EmitOrder _ | Session.ManualPayout
    | Session.CryptoWithdraw _ _ | Session.Exchange _ =>
        pending st' = pending (p, s)
    end.
Proof.
  intros ops env op p s pending st'.
  split; [apply run_pending|]. split; [apply step_pending|].
  unfold st', pending.
  destruct op as [hasAddress investInput | | o | | amount | symbol amount | params];
    cbn [Session.step snd fst].
  - pose proof (handleStart_pending hasAddress investInput (Session.now env)
                                    (Session.suffix env 0%nat) p s) as H.
    cbv zeta in H.
    destruct (RunControlPanel.handleStart _ _ _ _ _ _) as [[t p'] s']. cbn [snd] in *.
    destruct H as [-> | (m & Hm & Hp & _)]; [now left|].
    right. exists m. split; [lia | exact Hp].
  - repeat split.
  - reflexivity.
  - apply manualPayout_pending.
  - apply requestWithdrawal_pending.
  - now rewrite requestCryptoWithdrawal_wallet.
  - apply exchange_pending.
Qed.

(** C1 (the balance check leaves the fee out).  On the demo wallet, whose
    available balance is 12,000 minor units, a withdrawal request for
    12,000 is accepted although amount plus fee is 12,120: it returns
    [ok = true], leaves [availableMinor] at -120, adds 12,000 to
    [pendingMinor] and writes the two ledger rows. *)
Theorem requestWithdrawal_accepts_uncovered_fee :
  forall (now t0 : Z) (suffix : nat -> string) (seedLedger : list Store.LedgerEntry),
    let s := Store.initialState seedLedger t0 in
    let fee := Math.round (Double.mul (inject_Z 12000) (Double.lit 1 100)) in
    let r := Store.requestWithdrawal now suffix 12000 s in
    fee = 120 /\
    Store.availableMinor (Store.wallet s) < 12000 + fee /\
    Store.ok (fst r) = true /\
    Store.availableMinor (Store.wallet (snd r)) = -120 /\
    Store.pendingMinor (Store.wallet (snd r)) = 12000 /\
    List.length (Store.ledger (snd r)) = (2 + List.length seedLedger)%nat.
Proof.
  intros. repeat split.
Qed.

(** C2 (non-negativity fails).  From the demo store, whose balances are
    all non-negative, the single operation "request a fiat withdrawal of
    12,000" leaves [availableMinor] at -120. *)
Theorem withdrawal_breaks_nonNegative :
  forall (env : Session.Env) (p : RunControlPanel.Panel) (t0 : Z)
         (seedLedger : list Store.LedgerEntry),
    let st := (p, Store.initialState seedLedger t0) in
    let st' := Session.run [(env, Session.Withdraw 12000)] st in
    Session.nonNegative (snd st) /\
    Store.availableMinor (Store.wallet (snd st')) = -120 /\
    ~ Session.nonNegative (snd st').
Proof.
  intros. split; [|split].
  - unfold Session.nonNegative. cbn.
    repeat split; first [apply Qle_computed; vm_compute; reflexivity | discriminate].
  - vm_compute. reflexivity.
  - intros (H & _).
    assert (E : Store.availableMinor (Store.wallet (snd st')) = -120)
      by (vm_compute; reflexivity).
    rewrite E in H. lia.
Qed.

(** ** Local days *)

Section LocalDays.

Import LocalDay.

Lemma fixed_orderly (offsetMs : Z) : orderly (fixed offsetMs).
Proof.
  intros day t. unfold midnight, localDay, localTime, utc, fixed.
  pose proof (Z.div_mod (t + offsetMs) dayMs) as D.
  pose proof (Z.mod_pos_bound (t + offsetMs) dayMs) as B.
  unfold dayMs in *. lia.
Qed.


(** A zone with one clock change is orderly when the local hours the
    change skips or repeats lie within one local day, so that no local
    midnight is skipped or repeated. *)
Lemma clockChange_orderly (before after change k r : Z) :
  change + Z.min before after = k * dayMs + r -> 0 <= r ->
  r + Z.abs (after - before) <= dayMs ->
  orderly (clockChange before after change).
Proof.
  intros E R0 R1 day t. unfold midnight, localDay, localTime, utc, clockChange.
  assert (Hd : day <= k \/ k + 1 <= day) by lia.
  destruct (t <? change) eqn:Et; [apply Z.ltb_lt in Et | apply Z.ltb_ge in Et];
    destruct (day * dayMs <? change + Z.max before after) eqn:Ed;
    [apply Z.ltb_lt in Ed | apply Z.ltb_ge in Ed | apply Z.ltb_lt in Ed | apply Z.ltb_ge in Ed].
  - pose proof (Z.div_mod (t + before) dayMs) as D.
    pose proof (Z.mod_pos_bound (t + before) dayMs) as B.
    unfold dayMs in *. lia.
  - pose proof (Z.div_mod (t + before) dayMs) as D.
    pose proof (Z.mod_pos_bound (t + before) dayMs) as B.
    unfold dayMs in *. lia.
  - pose proof (Z.div_mod (t + after) dayMs) as D.
    pose proof (Z.mod_pos_bound (t + after) dayMs) as B.
    unfold dayMs in *. lia.
  - pose proof (Z.div_mod (t + after) dayMs) as D.
    pose proof (Z.mod_pos_bound (t + after) dayMs) as B.
    unfold dayMs in *. lia.
Qed.

Lemma newYorkSpring2024_orderly : orderly newYorkSpring2024.
Proof. apply (clockChange_orderly _ _ _ 19792 7200000); unfold dayMs; lia. Qed.

Lemma newYorkAutumn2024_orderly : orderly newYorkAutumn2024.
Proof. apply (clockChange_orderly _ _ _ 20030 3600000); unfold dayMs; lia. Qed.

Section Zone.

Variable tza : Zone.
Hypothesis Horderly : orderly tza.

Lemma localDay_startOfDay (t : Z) : localDay tza (startOfDay tza t) = localDay tza t.
Proof.
  unfold startOfDay.
  pose proof (proj2 (Horderly (localDay tza t) (midnight tza (localDay tza t)))) as H1.
  pose proof (proj1 (Horderly (localDay tza (midnight tza (localDay tza t))) t)) as H2.
  pose proof (proj2 (Horderly (localDay tza (midnight tza (localDay tza t)))
                              (midnight tza (localDay tza t)))) as H3.
  pose proof (proj1 (Horderly (localDay tza t) t)) as H4.
  pose proof (proj2 (Horderly (localDay tza t + 1) (midnight tza (localDay tza t)))) as H5.
  pose proof (proj1 (Horderly (localDay tza t + 1) t)) as H6.
  pose proof (proj2 (Horderly (localDay tza (midnight tza (localDay tza t)))
                              t)) as H7.
  assert (A : localDay tza t <= localDay tza (midnight tza (localDay tza t))) by (apply H1; lia).
  assert (B : midnight tza (localDay tza t) <= t) by (apply H4; lia).
  assert (C : midnight tza (localDay tza (midnight tza (localDay tza t)))
              <= midnight tza (localDay tza t)) by (apply Horderly; lia).
  assert (D : localDay tza (midnight tza (localDay tza t)) <= localDay tza t)
    by (apply Horderly; lia).
  lia.
Qed.

Lemma startOfDay_le (t : Z) : startOfDay tza t <= t.
Proof. unfold startOfDay. apply Horderly. lia. Qed.

Lemma lt_next_midnight (t : Z) : t < midnight tza (localDay tza t + 1).
Proof.
  destruct (Z_lt_le_dec t (midnight tza (localDay tza t + 1))) as [H|H]; [exact H|].
  apply Horderly in H. lia.
Qed.

(** The instant 24 hours before today's local midnight has an earlier
    date than today. *)
Lemma yesterday_before (now : Z) :
  localDay tza (startOfDay tza now - 24 * 60 * 60 * 1000) < localDay tza now.
Proof.
  destruct (Z_lt_le_dec (localDay tza (startOfDay tza now - 24 * 60 * 60 * 1000))
                        (localDay tza now)) as [H|H]; [exact H|].
  apply Horderly in H. unfold startOfDay in H. lia.
Qed.


End Zone.


End LocalDays.

(** ** The payout status of yesterday's earnings *)

Section PayoutStatus.

Import Store WalletKPIGroup.

Variable tza : LocalDay.Zone.

Lemma fold_left_sum (f : LedgerEntry -> Z) (l : list LedgerEntry) :
  forall a, fold_left (fun sum e => sum + f e) l a = a + fold_left (fun sum e => sum + f e) l 0.
Proof.
  induction l as [|e l IH]; intros a; cbn [fold_left].
  - lia.
  - rewrite IH, (IH (0 + f e)). lia.
Qed.

Lemma sum_filter_sumWhere (keep : LedgerEntry -> bool) (l : list LedgerEntry) :
  fold_left (fun sum e => sum + amountMinor e) (filter keep l) 0 = Spec.sumWhere keep l.
Proof.
  induction l as [|e l IH]; [reflexivity|].
  cbn [filter Spec.sumWhere]. destruct (keep e).
  - cbn [fold_left]. rewrite fold_left_sum, IH. lia.
  - rewrite IH. lia.
Qed.

Lemma sum_filter_sumPositiveWhere (keep : LedgerEntry -> bool) (l : list LedgerEntry) :
  fold_left (fun s e => s + Z.max 0 (amountMinor e)) (filter keep l) 0
  = Spec.sumPositiveWhere keep l.
Proof.
  induction l as [|e l IH]; [reflexivity|].
  cbn [filter Spec.sumPositiveWhere]. destruct (keep e).
  - cbn [fold_left]. rewrite (fold_left_sum (fun e => Z.max 0 (amountMinor e))), IH. lia.
  - rewrite IH. lia.
Qed.


(** The three-way test of [getYesterdayPayoutStatus], on the two numbers
    it compares. *)
Lemma status_cases (ledger : list LedgerEntry) (today net : Z) :
  let paid := Spec.sumPositiveWhere
                (fun e => isPayout e && LocalDay.isSameDay tza (createdAt e) today) ledger in
  let st := status (getYesterdayPayoutStatus tza ledger today net) in
  (st = SENT <-> paid >= net /\ net > 0) /\
  (st = PARTIAL <-> 0 < paid < net) /\
  (st = PENDING <-> ~ (paid >= net /\ net > 0) /\ ~ (0 < paid < net)).
Proof.
  intros paid st. unfold st, getYesterdayPayoutStatus. cbv zeta.
  rewrite sum_filter_sumPositiveWhere. fold paid.
  destruct (paid >=? net) eqn:E1; destruct (net >? 0) eqn:E2;
    destruct (paid >? 0) eqn:E3; destruct (paid <? net) eqn:E4;
    cbn [andb status];
    rewrite ?Z.geb_leb, ?Z.gtb_ltb in *;
    rewrite ?Z.leb_le, ?Z.leb_gt, ?Z.ltb_lt, ?Z.ltb_ge in *;
    repeat split; intros; try discriminate; try lia.
Qed.

End PayoutStatus.




(** * Further properties *)

(** ** Day keys *)

Section DayKeys.

Import Engine EngineRun EngineDay.

Lemma parseDigits_app (s1 s2 : string) :
  forall acc, allDigits s1 = true ->
              parseDigits (s1 ++ s2) acc = parseDigits s2 (parseDigits s1 acc).
Proof.
  induction s1 as [|c s1 IH]; intros acc H; [reflexivity|].
  cbn [allDigits] in H. cbn [append parseDigits].
  destruct (digitOf c); [now apply IH | discriminate].
Qed.

Lemma parseDigits_spelled (s : string) :
  forall a, allDigits s = true ->
            parseDigits s (Some a) = Some (a * 10 ^ Z.of_nat (String.length s) + spelled s).
Proof.
  induction s as [|c s IH]; intros a H.
  - cbn. f_equal. lia.
  - cbn [allDigits] in H. unfold spelled. cbn [parseDigits String.length].
    destruct (digitOf c) as [d|]; [|discriminate].
    rewrite (IH _ H), (IH (10 * 0 + d) H). f_equal.
    rewrite Nat2Z.inj_succ, Z.pow_succ_r by lia. ring.
Qed.

Lemma upFrom_In (lo count z : Z) :
  lo <= z < lo + count -> In z (upFrom lo count).
Proof.
  intros H. unfold upFrom. apply in_map_iff.
  exists (Z.to_nat (z - lo)). split; [lia|]. apply in_seq. lia.
Qed.

Lemma years_print : forallb (printsAs 4 (fun s => s)) (upFrom 1000 9000) = true.
Proof. vm_compute. reflexivity. Qed.

Lemma fields_print : forallb (printsAs 2 padStart2) (upFrom 1 31) = true.
Proof. vm_compute. reflexivity. Qed.

Lemma printsAs_spec (width : nat) (pad : string -> string) (z : Z) :
  printsAs width pad z = true ->
  allDigits (pad (showInt z)) = true /\ String.length (pad (showInt z)) = width /\
  spelled (pad (showInt z)) = z /\ parseDigits (pad (showInt z)) None = Some z.
Proof.
  unfold printsAs. intros H.
  apply andb_prop in H as [H H4]. apply andb_prop in H as [H H3].
  apply andb_prop in H as [H1 H2].
  apply Nat.eqb_eq in H2. apply Z.eqb_eq in H3.
  destruct (parseDigits (pad (showInt z)) None) as [v|]; [|discriminate].
  apply Z.eqb_eq in H4. subst v. auto.
Qed.

Lemma string_length_app (a b : string) :
  String.length (a ++ b) = (String.length a + String.length b)%nat.
Proof. induction a as [|c a IH]; cbn; [reflexivity | now rewrite IH]. Qed.

(** The key of a calendar date is eight digits that read back as
    year * 10000 + (month + 1) * 100 + day. *)
Lemma parseInt_todayKey (d : Date) :
  calendarDate d ->
  parseInt (todayKey d) = Some (getFullYear d * 10000 + (getMonth d + 1) * 100 + getDate d) /\
  String.length (todayKey d) = 8%nat.
Proof.
  intros (Hy & Hm & Hd).
  assert (Py : printsAs 4 (fun s => s) (getFullYear d) = true).
  { apply (proj1 (forallb_forall _ _) years_print), upFrom_In. lia. }
  assert (Pm : printsAs 2 padStart2 (getMonth d + 1) = true).
  { apply (proj1 (forallb_forall _ _) fields_print), upFrom_In. lia. }
  assert (Pd : printsAs 2 padStart2 (getDate d) = true).
  { apply (proj1 (forallb_forall _ _) fields_print), upFrom_In. lia. }
  apply printsAs_spec in Py as (Ay & Ly & _ & Vy).
  apply printsAs_spec in Pm as (Am & Lm & Sm & _).
  apply printsAs_spec in Pd as (Ad & Ld & Sd & _).
  unfold todayKey, parseInt. cbv zeta. split.
  - rewrite (parseDigits_app _ _ None Ay), Vy.
    rewrite (parseDigits_app _ _ _ Am), (parseDigits_spelled _ _ Am), Lm, Sm.
    rewrite (parseDigits_spelled _ _ Ad), Ld, Sd.
    f_equal. change (10 ^ Z.of_nat 2) with 100. ring.
  - rewrite !string_length_app, Ly, Lm, Ld. reflexivity.
Qed.

Lemma todayKey_same_day (d1 d2 : Date) :
  calendarDate d1 -> calendarDate d2 ->
  (todayKey d1 = todayKey d2 <->
   getFullYear d1 = getFullYear d2 /\ getMonth d1 = getMonth d2 /\ getDate d1 = getDate d2).
Proof.
  intros C1 C2. split.
  - intros E. pose proof (proj1 (parseInt_todayKey d1 C1)) as P1.
    pose proof (proj1 (parseInt_todayKey d2 C2)) as P2.
    rewrite E, P2 in P1. injection P1 as P.
    destruct C1 as (? & ? & ?), C2 as (? & ? & ?). lia.
  - intros (Ey & Em & Ed). unfold todayKey. now rewrite Ey, Em, Ed.
Qed.

End DayKeys.

(** ** One calendar day of the engine *)

Section OneDay.

Import Engine EngineRun EngineDay.

Variable running : bool.
Variable investMinor : Z.
Variable platforms : list RunPlatform.


Lemma makeOneOrder_spent (w : World) (p : Plan) :
  planRef w = Some p -> day p = todayKey (clock w) ->
  ordersPlanned p <= ordersDone p \/ ordersPlanned p = 0 ->
  makeOneOrder investMinor platforms w = w.
Proof.
  intros Hp Hd Hspent. unfold makeOneOrder. cbv zeta.
  rewrite (ensurePlan_current investMinor w p Hp Hd), Hp.
  destruct (ordersPlanned p =? 0) eqn:E0; [reflexivity|].
  apply Z.eqb_neq in E0.
  assert (E : (ordersPlanned p - ordersDone p <=? 0) = true) by (apply Z.leb_le; lia).
  now rewrite E.
Qed.

(** What one event of the day does. *)
Lemma step_same_day (w : World) (p : Plan) (e : Event) :
  planRef w = Some p -> day p = todayKey (clock w) ->
  0 <= ordersDone p <= ordersPlanned p ->
  onDay (todayKey (clock w)) e ->
  let w' := step running investMinor platforms w e in
  todayKey (clock w') = todayKey (clock w) /\ (quiet w w' \/ emission p w w').
Proof.
  intros Hp Hd Hdone He. cbv zeta.
  assert (Hcases : ordersDone p < ordersPlanned p /\ ordersPlanned p <> 0
                   \/ (ordersPlanned p <= ordersDone p \/ ordersPlanned p = 0)) by lia.
  assert (Hemit : ordersDone p < ordersPlanned p -> ordersPlanned p <> 0 ->
                  clock (makeOneOrder investMinor platforms w) = clock w /\
                  emission p w (makeOneOrder investMinor platforms w)).
  { intros Hlt Hnz.
    destruct (makeOneOrder_emits investMinor platforms w p Hp Hd Hlt Hnz)
      as (sample & Hs & Hp' & Hc' & o & Ho & Hprofit).
    split; [exact Hc'|]. split; [exact Hlt|]. exists sample, o. now repeat split. }
  destruct e; cbn [step onDay] in *.
  - cbn [clock]. split; [exact He|]. left. now split.
  - unfold runEffect. cbv zeta. rewrite (ensurePlan_current investMinor w p Hp Hd).
    destruct (running && (0 <? investMinor)).
    + unfold scheduleNext. destruct (random_frame w) as (Hc & Hq & Hq').
      rewrite Hc. split; [reflexivity|]. left. now split.
    + split; [reflexivity|]. left. now split.
  - destruct Hcases as [[Hlt Hnz] | Hspent].
    + destruct (Hemit Hlt Hnz) as [Hc Hem]. rewrite Hc. split; [reflexivity | now right].
    + rewrite (makeOneOrder_spent w p Hp Hd Hspent). split; [reflexivity|]. left. now split.
  - unfold timerFired.
    destruct (negb running || (investMinor <=? 0)); [split; [reflexivity|]; left; now split|].
    cbv zeta. rewrite (ensurePlan_current investMinor w p Hp Hd), Hp.
    destruct (ordersPlanned p <=? ordersDone p) eqn:E.
    + split; [reflexivity|]. left. now split.
    + apply Z.leb_gt in E. destruct (Hemit E ltac:(lia)) as [Hc Hem].
      unfold scheduleNext.
      destruct (random_frame (makeOneOrder investMinor platforms w)) as (Hc1 & Hp1 & He1).
      rewrite Hc1, Hc. split; [reflexivity|]. right.
      destruct Hem as (Hlt & sample & o & Hs & Hp' & Ho & Hprofit).
      split; [exact Hlt|]. exists sample, o. rewrite Hp1, He1. now repeat split.
  - unfold minuteCheck. cbv zeta. rewrite Hp, Hd, String.eqb_refl. cbn [negb].
    split; [reflexivity|]. left. now split.
Qed.



Lemma step_roomy (key : string) (w : World) (e : Event) :
  roomy key w -> onDay key e -> roomy key (step running investMinor platforms w e).
Proof.
  intros (Hk & p & Hp & Hd & Hroom) He.
  rewrite <- Hk in He. rewrite <- Hk in Hd.
  pose proof Hroom as (Hdone & Hprod & Hleft).
  destruct (step_same_day w p e Hp Hd Hdone He) as [Hk' [[Hq Hq'] | (Hlt & sample & o & Hs & Hp' & Ho & Hprofit)]];
    cbv zeta in *.
  - split; [now rewrite Hk'|]. exists p. rewrite Hq. repeat split; try assumption; try lia.
    now rewrite <- Hk.
  - split; [now rewrite Hk'|]. exists (advance p sample).
    unfold advance, hasRoom. cbn [day ordersDone ordersPlanned producedMinor targetSumMinor].
    repeat split; try assumption; try lia. now rewrite <- Hk.
Qed.

Lemma run_roomy (key : string) (es : list Event) :
  forall w, roomy key w -> Forall (onDay key) es ->
            roomy key (run running investMinor platforms es w).
Proof.
  induction es as [|e es IH]; intros w Hw Hes; [exact Hw|].
  inversion Hes as [|? ? He Hes']; subst.
  cbn [run fold_left]. apply IH; [|exact Hes']. now apply step_roomy.
Qed.

End OneDay.

(** ** The engine, day by day *)

Section EngineDays.

Import Engine EngineRun EngineDay.

Lemma min_lower (c a b : Q) : (c <= a)%Q -> (c <= b)%Q -> (c <= Math.min a b)%Q.
Proof. intros Ha Hb. unfold Math.min. now destruct (Qle_bool a b). Qed.

(** The lowest rate of all: the lower band at the smallest jitter. *)
Lemma rate_lower (amount : Q) (daySeed : Z) :
  (Math.min (Double.lit 40 100) (Double.mul (Double.lit 30 100) (Double.lit 9 10))
   <= Spec.effectiveMonthlyRate amount daySeed)%Q.
Proof.
  destruct (jitter_bounds daySeed) as [Hj _]. unfold jitterOf in Hj.
  unfold Spec.effectiveMonthlyRate, Spec.rateBand, Spec.jitter.
  assert (P9 : (0 <= Double.lit 9 10)%Q) by (apply Qle_computed; vm_compute; reflexivity).
  assert (P30 : (0 <= Double.lit 30 100)%Q) by (apply Qle_computed; vm_compute; reflexivity).
  assert (P36 : (Double.lit 30 100 <= Double.lit 60 100)%Q)
    by (apply Qle_computed; vm_compute; reflexivity).
  assert (P48 : (Math.min (Double.lit 40 100) (Double.mul (Double.lit 30 100) (Double.lit 9 10))
                 <= Double.lit 80 100)%Q)
    by (apply Qle_computed; vm_compute; reflexivity).
  assert (Pm : (Math.min (Double.lit 40 100) (Double.mul (Double.lit 30 100) (Double.lit 9 10))
                <= Double.mul (Double.lit 30 100) (Double.lit 9 10))%Q)
    by (apply Qle_computed; vm_compute; reflexivity).
  destruct (Qlt_le_dec amount 10000).
  - apply min_mono. now apply mul_mono; try lra.
  - apply min_lower; [exact P48|].
    eapply Qle_trans; [exact Pm|]. now apply mul_mono.
Qed.

Lemma target_at_least_100 (investMinor : Z) (daySeed : Z) :
  11056 <= investMinor ->
  100 <= Spec.targetSumMinor (Double.div (inject_Z investMinor) 100) daySeed.
Proof.
  intros H. unfold Spec.targetSumMinor.
  set (m := Math.min (Double.lit 40 100) (Double.mul (Double.lit 30 100) (Double.lit 9 10))).
  apply Z.le_trans
    with (Math.round (Double.mul (Double.div (Double.mul (Double.div 11056 100) m) 30) 100)).
  - vm_compute. discriminate.
  - apply target_mono.
    + apply Qle_computed. vm_compute. reflexivity.
    + apply div_mono; [reflexivity|].
      change 11056%Q with (inject_Z 11056). rewrite <- Zle_Qle. exact H.
    + apply Qle_computed. vm_compute. reflexivity.
    + apply rate_lower.
Qed.

Lemma planFor_roomy (investMinor : Z) (dayKey : string) :
  11056 <= investMinor -> hasRoom (planFor investMinor dayKey).
Proof.
  intros H. rewrite (planFor_pos investMinor dayKey) by lia.
  unfold hasRoom. cbn [ordersDone ordersPlanned producedMinor targetSumMinor].
  set (daySeed := Int32.xor _ _).
  pose proof (ordersPlanned_range (daySeed + 77)).
  pose proof (target_at_least_100 investMinor daySeed H). lia.
Qed.

Lemma planFor_at_most_100 (investMinor : Z) (dayKey : string) :
  0 <= ordersPlanned (planFor investMinor dayKey) <= 100.
Proof.
  destruct (Z_lt_le_dec 0 investMinor) as [Hpos|Hle].
  - rewrite (planFor_pos investMinor dayKey Hpos). cbn [ordersPlanned].
    set (daySeed := Int32.xor _ _).
    pose proof (ordersPlanned_range (daySeed + 77)). lia.
  - rewrite (planFor_nonpos investMinor dayKey Hle). cbn. lia.
Qed.

(** X1. The key [todayKey] makes of a date with a four-digit year is
    eight characters long and [parseInt] reads it back as
    year * 10000 + (month + 1) * 100 + day, the month of [getMonth]
    counting from zero. *)
Theorem todayKey_reads_back :
  forall d : Date,
    calendarDate d ->
    parseInt (todayKey d) = Some (getFullYear d * 10000 + (getMonth d + 1) * 100 + getDate d) /\
    String.length (todayKey d) = 8%nat.
Proof. exact parseInt_todayKey. Qed.

Lemma todayKey_reads_back_witness :
  parseInt (todayKey (mkDate 1704240000000 2024 0 3)) = Some 20240103.
Proof.
  apply (todayKey_reads_back (mkDate 1704240000000 2024 0 3)).
  unfold calendarDate. cbn. lia.
Defined.

(** X2. Day boundary.  A plan made on one calendar date is kept by
    [ensurePlan] as long as the clock shows that date, whatever the time
    of day, and is replaced by the fresh plan of the new date, with no
    order done and nothing produced, as soon as year, month or day
    differ; what was left of the old plan is dropped. *)
Theorem ensurePlan_day_boundary :
  forall (investMinor : Z) (d1 d2 : Date) (rs : list Q) (p : Plan) (es : list OrderPayload),
    calendarDate d1 -> calendarDate d2 -> day p = todayKey d1 ->
    let w := mkWorld d2 rs (Some p) es in
    let sameDate := getFullYear d1 = getFullYear d2 /\ getMonth d1 = getMonth d2
                    /\ getDate d1 = getDate d2 in
    (sameDate -> ensurePlan investMinor w = w) /\
    (~ sameDate ->
     exists q, planRef (ensurePlan investMinor w) = Some q /\
               q = planFor investMinor (todayKey d2) /\
               day q = todayKey d2 /\ ordersDone q = 0 /\ producedMinor q = 0 /\
               emitted (ensurePlan investMinor w) = es /\
               randoms (ensurePlan investMinor w) = rs).
Proof.
  intros investMinor d1 d2 rs p es C1 C2 Hd w sameDate.
  pose proof (todayKey_same_day d1 d2 C1 C2) as Hkey. fold sameDate in Hkey.
  split.
  - intros Hs. apply (ensurePlan_current investMinor w p); [reflexivity|].
    cbn [clock w]. rewrite Hd. now apply Hkey.
  - intros Hn. unfold ensurePlan. cbn [planRef clock w].
    destruct (String.eqb (day p) (todayKey d2)) eqn:E.
    + apply String.eqb_eq in E. rewrite Hd in E. now apply Hkey in E.
    + destruct (planFor_fresh investMinor (todayKey d2)) as (F1 & F2 & F3).
      eexists. repeat split; try reflexivity; assumption.
Qed.

Lemma ensurePlan_day_boundary_witness :
  let p := planFor 10000 "20240103" in
  exists q, planRef (ensurePlan 10000 (mkWorld (mkDate 0 2024 0 4) [] (Some p) [])) = Some q /\
            ordersDone q = 0 /\ day q = "20240104"%string.
Proof.
  intros p.
  destruct (ensurePlan_day_boundary 10000 (mkDate 0 2024 0 3) (mkDate 0 2024 0 4) [] p [])
    as [_ H].
  - unfold calendarDate. cbn. lia.
  - unfold calendarDate. cbn. lia.
  - reflexivity.
  - destruct H as (q & Hq & _ & Hday & Hdone & _).
    + cbn. intros (_ & _ & H). discriminate H.
    + exists q. repeat split; assumption.
Defined.

(** X3. [seededRand01] returns, for every integer seed, a multiple of
    2^-32 that is at least 0 and strictly below 1. *)
Theorem seededRand01_unit_interval :
  forall seed : Z,
    (0 <= seededRand01 seed)%Q /\ (seededRand01 seed < 1)%Q /\
    exists k : Z, 0 <= k < 4294967296 /\ seededRand01 seed = Qmake k 4294967296.
Proof.
  intros seed. destruct (seededRand01_range seed) as [H0 H1].
  repeat split; try assumption.
  exists (seededWord seed). split; [apply seededWord_range | reflexivity].
Qed.



(** X5. The target bound for investments from 11,056 minor units on.
    With at least that much invested the plan of any day has a target of
    at least 100 minor units for at most 100 orders, and after any events
    during which the clock stays on the day [producedMinor] is never above
    [targetSumMinor], whatever the noise draws. *)
Theorem target_bound_from_11056 :
  forall (running : bool) (investMinor : Z) (platforms : list RunPlatform)
         (w : World) (es : list Event),
    11056 <= investMinor ->
    Forall (onDay (todayKey (clock w))) es ->
    let w' := run running investMinor platforms es (buildPlan investMinor w) in
    ordersPlanned (planFor investMinor (todayKey (clock w))) <= 100
    <= targetSumMinor (planFor investMinor (todayKey (clock w))) /\
    exists p : Plan,
      planRef w' = Some p /\
      producedMinor p <= targetSumMinor p /\
      ordersPlanned p - ordersDone p <= targetSumMinor p - producedMinor p.
Proof.
  intros running investMinor platforms w es Hinv Hes w'.
  set (key := todayKey (clock w)) in *.
  split.
  - split; [apply planFor_at_most_100|].
    rewrite (planFor_pos investMinor key) by lia. cbn [targetSumMinor].
    now apply target_at_least_100.
  - assert (H0 : roomy key (buildPlan investMinor w)).
    { split; [reflexivity|]. exists (planFor investMinor key).
      split; [reflexivity|]. split; [apply planFor_fresh | now apply planFor_roomy]. }
    destruct (run_roomy running investMinor platforms key es _ H0 Hes)
      as (_ & p & Hp & _ & _ & Hprod & Hleft).
    exists p. now repeat split.
Qed.

Lemma target_bound_from_11056_witness :
  let w := mkWorld (mkDate 0 2024 0 3) [] None [] in
  exists p : Plan,
    planRef (run true 20000 [Binance] [MakeOneOrder; MakeOneOrder] (buildPlan 20000 w)) = Some p /\
    producedMinor p <= targetSumMinor p.
Proof.
  intros w.
  destruct (target_bound_from_11056 true 20000 [Binance] w [MakeOneOrder; MakeOneOrder])
    as (_ & p & Hp & Hprod & _).
  - lia.
  - repeat constructor.
  - exists p. split; assumption.
Defined.

(** X6. An exhausted plan stays quiet.  Once [ordersDone] has reached
    [ordersPlanned], no event emits an order or changes the plan for as
    long as the clock stays on the plan's day. *)
Theorem exhausted_plan_stays_quiet :
  forall (running : bool) (investMinor : Z) (platforms : list RunPlatform)
         (w : World) (p : Plan) (es : list Event),
    planRef w = Some p -> day p = todayKey (clock w) ->
    0 <= ordersDone p -> ordersDone p = ordersPlanned p ->
    Forall (onDay (todayKey (clock w))) es ->
    let w' := run running investMinor platforms es w in
    planRef w' = Some p /\ emitted w' = emitted w.
Proof.
  intros running investMinor platforms w p es Hp Hd H0 Hfull Hes. cbv zeta.
  revert w Hp Hd Hes.
  induction es as [|e es IH]; intros w Hp Hd Hes; [now split|].
  inversion Hes as [|? ? He Hes']; subst.
  cbn [run fold_left].
  destruct (step_same_day running investMinor platforms w p e Hp Hd ltac:(lia) He)
    as [Hk [[Hq Hq'] | (Hlt & _)]]; cbv zeta in *; [|lia].
  rewrite Hp in Hq.
  destruct (IH (step running investMinor platforms w e)) as [H1 H2].
  - exact Hq.
  - now rewrite Hk.
  - now rewrite Hk.
  - unfold run in H1, H2. split; [exact H1 | now rewrite H2].
Qed.

Lemma exhausted_plan_stays_quiet_witness :
  let p := mkPlan "20240103" 99 99 92 104 in
  let w := mkWorld (mkDate 0 2024 0 3) [] (Some p) [] in
  emitted (run true 10000 [Binance] [TimerFired; MakeOneOrder; MinuteCheck] w) = [].
Proof.
  intros p w.
  apply (exhausted_plan_stays_quiet true 10000 [Binance] w p [TimerFired; MakeOneOrder; MinuteCheck]).
  - reflexivity.
  - reflexivity.
  - cbn. lia.
  - reflexivity.
  - repeat constructor.
Defined.





End EngineDays.

(** ** The books of a session *)

Section SessionBooks.

Import Store Session Books.

Ltac break_match :=
  match goal with
  | |- context [match ?x with _ => _ end] => destruct x eqn:?
  end.

Ltac added_rows :=
  match goal with
  | |- exists added, ?x :: ?y :: ?l = added ++ ?l /\ _ => exists [x; y]
  | |- exists added, ?x :: ?l = added ++ ?l /\ _ => exists [x]
  | |- exists added, ?l = added ++ ?l /\ _ => exists []
  end.

Lemma sumWhere_app (keep : LedgerEntry -> bool) (a b : list LedgerEntry) :
  Spec.sumWhere keep (a ++ b) = Spec.sumWhere keep a + Spec.sumWhere keep b.
Proof. induction a as [|e a IH]; cbn [app Spec.sumWhere]; [reflexivity | rewrite IH; lia]. Qed.

(** What a step adds to the ledger and to [availableMinor]. *)
Lemma step_books (p : RunControlPanel.Panel) (s : AppState) (env : Env) (op : Op) :
  let s' := snd (step (p, s) (env, op)) in
  exists added,
    ledger s' = added ++ ledger s /\ (List.length added <= 2)%nat /\
    availableMinor (wallet s') = availableMinor (wallet s) + Spec.sumWhere movesAvailable added.
Proof.
  cbv zeta.
  destruct op as [hasAddress investInput | | o | | amount | symbol amount | params];
    cbn [step snd].
  - destruct hasAddress.
    2:{ rewrite handleStart_no_address. cbn [snd]. added_rows. cbn. repeat split; lia. }
    destruct (RunControlPanel.parseInvestMinor investInput) as [m|] eqn:Hv.
    + destruct (Z_lt_le_dec m 10000) as [Hlt|Hge];
        [|destruct (Z_lt_le_dec (availableMinor (wallet s)) m) as [Hex|Hok]].
      * rewrite (handleStart_below_minimum _ _ _ m p s Hv Hlt). cbn [snd]. added_rows.
        cbn. repeat split; lia.
      * rewrite (handleStart_exceeds _ _ _ m p s Hv Hge Hex). cbn [snd]. added_rows.
        cbn. repeat split; lia.
      * rewrite (handleStart_accepted _ _ _ m p s Hv Hge Hok).
        cbn [snd ledger wallet availableMinor]. added_rows. cbn. repeat split; lia.
    + rewrite (handleStart_invalid _ _ _ p s Hv). cbn [snd]. added_rows. cbn. repeat split; lia.
  - unfold RunControlPanel.doStop. cbn [snd]. added_rows. cbn. repeat split; lia.
  - unfold RunPage.onOrder. cbn [ledger wallet]. added_rows. cbn. repeat split; lia.
  - unfold manualPayout. cbv zeta. break_match; cbn [ledger wallet availableMinor];
      added_rows; cbn; repeat split; lia.
  - unfold requestWithdrawal. cbv zeta.
    repeat break_match; cbn [snd ledger wallet availableMinor]; added_rows; cbn;
      repeat split; lia.
  - unfold requestCryptoWithdrawal. cbv zeta.
    repeat break_match; cbn [snd ledger wallet availableMinor]; added_rows; cbn;
      repeat split; lia.
  - unfold exchange. cbv zeta.
    repeat break_match; cbn [snd ledger wallet availableMinor]; added_rows; cbn;
      repeat split; lia.
Qed.

Lemma step_unexplained (st : State) (eo : Env * Op) :
  unexplained (snd (step st eo)) = unexplained (snd st).
Proof.
  destruct st as [p s], eo as [env op].
  destruct (step_books p s env op) as (added & Hl & _ & Ha). cbv zeta in *.
  unfold unexplained. cbn [snd]. rewrite Hl, Ha, sumWhere_app. lia.
Qed.

Lemma step_extends (st : State) (eo : Env * Op) :
  extends (ledger (snd st)) (ledger (snd (step st eo))).
Proof.
  destruct st as [p s], eo as [env op].
  destruct (step_books p s env op) as (added & Hl & _). cbv zeta in *.
  now exists added.
Qed.

(** X8. The ledger explains the balance.  Over any sequence of
    operations of a session, [availableMinor] changes by exactly the sum
    of the signed amounts of the ledger rows written meanwhile, the EARN
    rows of emitted orders left out: the difference between
    [availableMinor] and the sum of all non-EARN rows never changes. *)
Theorem ledger_explains_available :
  forall (ops : list (Env * Op)) (st : State),
    unexplained (snd (run ops st)) = unexplained (snd st).
Proof.
  induction ops as [|eo ops IH]; intros st; [reflexivity|].
  cbn [run fold_left]. fold (run ops (step st eo)).
  now rewrite IH, step_unexplained.
Qed.

(** X9. The ledger is append-only.  Every operation leaves the rows that
    were there in place and in order, putting at most two new rows in
    front of them; after any sequence of [n] operations the old ledger is
    still the tail of the new one, under at most [2 n] new rows. *)
Theorem ledger_append_only :
  forall (ops : list (Env * Op)) (st : State),
    exists added,
      ledger (snd (run ops st)) = added ++ ledger (snd st) /\
      (List.length added <= 2 * List.length ops)%nat.
Proof.
  induction ops as [|eo ops IH]; intros st.
  - exists []. split; [reflexivity | cbn; lia].
  - cbn [run fold_left]. fold (run ops (step st eo)).
    destruct (IH (step st eo)) as (a1 & H1 & L1).
    destruct st as [p s], eo as [env op].
    destruct (step_books p s env op) as (a0 & H0 & L0 & _). cbv zeta in *.
    exists (a1 ++ a0). rewrite H1, H0, app_assoc. split; [reflexivity|].
    rewrite length_app. cbn [List.length]. lia.
Qed.

(** X10. Covered withdrawals keep the balances non-negative.  From
    non-negative balances, any sequence of operations in which every fiat
    withdrawal request is covered by the balance, fee included, at the
    moment it is made leaves [availableMinor], [pendingMinor], [usdtMinor]
    and both crypto holdings non-negative. *)
Theorem covered_runs_stay_nonNegative :
  forall (ops : list (Env * Op)) (st : State),
    nonNegative (snd st) -> allCovered st ops -> nonNegative (snd (run ops st)).
Proof.
  induction ops as [|eo ops IH]; intros st Hs Hc; [exact Hs|].
  cbn [run fold_left]. fold (run ops (step st eo)).
  destruct Hc as [Hc Hrest]. apply IH; [|exact Hrest].
  destruct eo as [env op]. apply step_nonNegative; [|exact Hs].
  cbn [snd] in Hc. unfold covered in Hc. now destruct op.
Qed.

Lemma covered_runs_stay_nonNegative_witness :
  let st := (RunControlPanel.mkPanel false 0, initialState [] 0) in
  let env := mkEnv 5 (fun _ => "x"%string) in
  nonNegative (snd (run [(env, Withdraw 11000); (env, ManualPayout)] st)).
Proof.
  intros st env.
  apply (covered_runs_stay_nonNegative [(env, Withdraw 11000); (env, ManualPayout)] st).
  - unfold nonNegative. cbn.
    repeat split; first [apply Qle_computed; vm_compute; reflexivity | discriminate].
  - cbn. repeat split. vm_compute. discriminate.
Defined.

End SessionBooks.

(** ** The store actions, one by one *)

Section ActionFacts.

Import Store.

Ltac break_match :=
  match goal with
  | |- context [match ?x with _ => _ end] => destruct x eqn:?
  end.

Variable now : Z.
Variable suffix : nat -> string.

Lemma round_inject (z : Z) : Math.round (inject_Z z) = z.
Proof.
  unfold Math.round. apply floor_unique.
  - lra.
  - rewrite inject_Z_plus. change (inject_Z 1) with 1%Q. lra.
Qed.

Lemma exchange_toCrypto_accepted (symbol : CryptoSymbol) (price : Q) (amtMinor : Z) (s : AppState) :
  (0 < price)%Q -> 0 < amtMinor ->
  amtMinor <= usdtMinor (assets s) -> amtMinor <= availableMinor (wallet s) ->
  let assets1 := mkAssets (usdtMinor (assets s) - amtMinor) (btc (assets s)) (eth (assets s)) in
  exchange now suffix (mkParams USDT_TO_CRYPTO symbol (Finite price) None (Some (Finite amtMinor))) s =
  (success,
   mkState (mkWallet (availableMinor (wallet s) - amtMinor) (pendingMinor (wallet s))
                     (currency (wallet s)) now)
           (setHolding symbol
              (Double.add (holding symbol assets1)
                          (Double.div (Double.div (inject_Z amtMinor) 100) price)) assets1)
           (accruedMinor s)
           (mkEntry (createId "l" (suffix 0%nat)) ADJUSTMENT (- amtMinor) "USD" now
                    (Some ("EX_USDT_TO_" ++ symbolName symbol)%string) None
            :: ledger s)).
Proof.
  intros Hprice Hpos Hu Ha assets1. unfold exchange. cbv zeta.
  cbn [priceUsdtPerCrypto direction amountUsdtMinor Store.symbol].
  assert (Ep : Qle_bool price 0 = false) by now apply Qle_bool_false.
  assert (E0 : (amtMinor <=? 0) = false) by now apply Z.leb_gt.
  assert (E1 : (amtMinor >? usdtMinor (assets s)) = false)
    by (rewrite Z.gtb_ltb; apply Z.ltb_ge; lia).
  assert (E2 : (amtMinor >? availableMinor (wallet s)) = false)
    by (rewrite Z.gtb_ltb; apply Z.ltb_ge; lia).
  now rewrite Ep, E0, E1, E2.
Qed.

End ActionFacts.

(** X11. A refused action changes nothing.  Whenever [requestWithdrawal],
    [requestCryptoWithdrawal] or [exchange] returns [ok: false], it
    returns a message and the store it was given, untouched; whenever it
    returns [ok: true] it has written to the ledger: two rows for a fiat
    withdrawal, one row for a crypto withdrawal or an exchange. *)
Theorem refused_action_changes_nothing :
  forall (now : Z) (suffix : nat -> string) (s : Store.AppState) (amountMinor : Z)
         (symbol : Store.CryptoSymbol) (amountCrypto : number Q) (params : Store.ExchangeParams),
    let outcome := fun (r : Store.Result * Store.AppState) (rows : nat) =>
      (Store.ok (fst r) = false -> snd r = s /\ Store.message (fst r) <> None) /\
      (Store.ok (fst r) = true ->
       exists added, Store.ledger (snd r) = added ++ Store.ledger s /\ List.length added = rows) in
    outcome (Store.requestWithdrawal now suffix amountMinor s) 2%nat /\
    outcome (Store.requestCryptoWithdrawal now suffix symbol amountCrypto s) 1%nat /\
    outcome (Store.exchange now suffix params s) 1%nat.
Proof.
  intros now suffix s amountMinor symbol amountCrypto params outcome. unfold outcome.
  split; [|split].
  - unfold Store.requestWithdrawal. cbv zeta.
    repeat match goal with |- context [if ?b then _ else _] => destruct b end;
      cbn [fst snd Store.ok Store.message Store.success Store.failure Store.ledger];
      (split; [intros Hok; first [discriminate Hok | split; [reflexivity | discriminate]]
              | intros Hok; first [discriminate Hok | eexists [_; _]; split; reflexivity]]).
  - unfold Store.requestCryptoWithdrawal. cbv zeta.
    repeat match goal with |- context [match ?x with _ => _ end] => destruct x end;
      cbn [fst snd Store.ok Store.message Store.success Store.failure Store.ledger];
      (split; [intros Hok; first [discriminate Hok | split; [reflexivity | discriminate]]
              | intros Hok; first [discriminate Hok | eexists [_]; split; reflexivity]]).
  - unfold Store.exchange. cbv zeta.
    repeat match goal with |- context [match ?x with _ => _ end] => destruct x end;
      cbn [fst snd Store.ok Store.message Store.success Store.failure Store.ledger];
      (split; [intros Hok; first [discriminate Hok | split; [reflexivity | discriminate]]
              | intros Hok; first [discriminate Hok | eexists [_]; split; reflexivity]]).
Qed.

Lemma refused_action_changes_nothing_witness :
  let s := Store.initialState [] 0 in
  snd (Store.requestWithdrawal 5 (fun _ => "x"%string) 13000 s) = s.
Proof.
  intros s.
  destruct (refused_action_changes_nothing 5 (fun _ => "x"%string) s 13000 Store.BTC NotFinite
              (Store.mkParams Store.CRYPTO_TO_USDT Store.BTC NotFinite None None))
    as ((H & _) & _).
  apply H. reflexivity.
Defined.

(** X12. A manual payout moves the accrued amount into the balance and
    leaves nothing to pay.  The sum of [availableMinor] and [accruedMinor]
    is unchanged, [availableMinor] does not go down, [accruedMinor] ends
    at min(0, accruedMinor), the ledger gets one PAYOUT row of the accrued
    amount when that is positive and nothing otherwise, and a second
    payout, at any later time, changes nothing. *)
Theorem manualPayout_pays_once :
  forall (now now' : Z) (suffix suffix' : nat -> string) (s : Store.AppState),
    let s1 := Store.manualPayout now suffix s in
    Store.availableMinor (Store.wallet s1) + Store.accruedMinor s1
    = Store.availableMinor (Store.wallet s) + Store.accruedMinor s /\
    Store.availableMinor (Store.wallet s) <= Store.availableMinor (Store.wallet s1) /\
    Store.accruedMinor s1 = Z.min 0 (Store.accruedMinor s) /\
    (if 0 <? Store.accruedMinor s
     then exists row, Store.ledger s1 = row :: Store.ledger s /\
                      Store.type row = Store.PAYOUT /\
                      Store.amountMinor row = Store.accruedMinor s
     else s1 = s) /\
    Store.manualPayout now' suffix' s1 = s1.
Proof.
  intros now now' suffix suffix' s s1. unfold s1, Store.manualPayout. cbv zeta.
  destruct (Store.accruedMinor s <=? 0) eqn:E.
  - apply Z.leb_le in E. rewrite (proj2 (Z.leb_le _ _) E).
    assert (E' : (0 <? Store.accruedMinor s) = false) by (apply Z.ltb_ge; lia).
    rewrite E'. repeat split; lia.
  - apply Z.leb_gt in E.
    assert (E' : (0 <? Store.accruedMinor s) = true) by (apply Z.ltb_lt; lia).
    rewrite E'. cbn [Store.wallet Store.availableMinor Store.accruedMinor Store.ledger Z.leb].
    repeat split; try lia. eexists. repeat split.
Qed.

Section ExchangeFacts.

Import Store.

Lemma holding_other (symbol other : CryptoSymbol) (v : Q) (a : AssetBalances) :
  other <> symbol -> holding other (setHolding symbol v a) = holding other a.
Proof. destruct symbol, other; intros H; try reflexivity; now elim H. Qed.

(** What a purchase for [amtMinor] minor units brings back when it is
    sold at the price it was bought at. *)
Lemma bought_sells_back (price : Q) (amtMinor : Z) :
  (Double.pow2 (-900) <= price)%Q -> (price <= Double.pow2 900)%Q ->
  0 < amtMinor < 2 ^ 49 ->
  let bought := Double.div (Double.div (inject_Z amtMinor) 100) price in
  (Double.pow2 (-1022) <= bought)%Q /\
  Math.round (Double.mul (Double.mul bought price) 100) = amtMinor.
Proof.
  intros Plo Phi [Hpos Hbig] bought.
  assert (Pp : (0 < price)%Q) by (pose proof (pow2_pos (-900)); lra).
  assert (A1 : (1 <= inject_Z amtMinor)%Q)
    by (change 1%Q with (inject_Z 1); rewrite <- Zle_Qle; lia).
  assert (A2 : (inject_Z amtMinor <= inject_Z (2 ^ 49 - 1))%Q) by (rewrite <- Zle_Qle; lia).
  change (inject_Z (2 ^ 49 - 1)) with 562949953421311%Q in A2.
  assert (H22 : (Double.pow2 (-1022) <= 1 # 1000)%Q)
    by (apply Qle_computed; vm_compute; reflexivity).
  assert (H122 : (Double.pow2 (-1022) * Double.pow2 900 <= 1 # 1000)%Q)
    by (apply Qle_computed; vm_compute; reflexivity).
  pose proof (pow2_pos (-1022)) as P22.
  unfold bought, Double.mul, Double.div.
  set (A := inject_Z amtMinor) in *.
  assert (EA : (A / 100 * 100 == A)%Q) by field.
  set (A100 := (A / 100)%Q) in *.
  destruct (rnd_near_num A100) as [Q1 Q2]; [lra|].
  set (q := Double.rnd A100) in *.
  assert (Zp : (q / price * price == q)%Q) by (field; lra).
  assert (Zlo : (Double.pow2 (-1022) <= q / price)%Q).
  { apply Qle_shift_div_l; [exact Pp|].
    apply Qle_trans with (Double.pow2 (-1022) * Double.pow2 900)%Q; [|lra].
    rewrite !(Qmult_comm (Double.pow2 (-1022))). apply Qmult_le_compat_r; lra. }
  set (z := (q / price)%Q) in *.
  destruct (rnd_near_num z Zlo) as [B1 B2].
  assert (Blo : (Double.pow2 (-1022) <= Double.rnd z)%Q).
  { apply Qle_trans with (Double.rnd (Double.pow2 (-1022)));
      [apply Qle_computed; vm_compute; reflexivity | now apply rnd_mono]. }
  set (b := Double.rnd z) in *.
  split; [exact Blo|].
  assert (W1 : (q * (9007199254740991 # 9007199254740992) <= b * price)%Q).
  { assert (E : (z * (9007199254740991 # 9007199254740992) * price
                 == q * (9007199254740991 # 9007199254740992))%Q) by (rewrite <- Zp; ring).
    rewrite <- E. apply Qmult_le_compat_r; lra. }
  assert (W2 : (b * price <= q * (9007199254740993 # 9007199254740992))%Q).
  { assert (E : (z * (9007199254740993 # 9007199254740992) * price
                 == q * (9007199254740993 # 9007199254740992))%Q) by (rewrite <- Zp; ring).
    rewrite <- E. apply Qmult_le_compat_r; lra. }
  set (w0 := (b * price)%Q) in *.
  destruct (rnd_near_num w0) as [C1 C2]; [lra|].
  set (w := Double.rnd w0) in *.
  destruct (rnd_near_num (w * 100)) as [D1 D2]; [lra|].
  set (y := Double.rnd (w * 100)) in *.
  unfold Math.round. apply floor_unique.
  - fold A. lra.
  - rewrite inject_Z_plus. fold A. change (inject_Z 1) with 1%Q. lra.
Qed.

Lemma epsilon_nonneg : (0 <= epsilon)%Q.
Proof. apply Qle_computed. vm_compute. reflexivity. Qed.

(** A quantity just added to a holding that was not negative can be
    taken out again. *)
Lemma added_is_covered (h z : Q) :
  (0 <= h)%Q -> (0 <= Double.rnd z)%Q ->
  (Double.rnd z <= Double.add h (Double.rnd z))%Q /\
  (Double.rnd z <= Double.add (Double.add h (Double.rnd z)) epsilon)%Q.
Proof.
  intros Hh Hz. pose proof epsilon_nonneg as He.
  assert (S1 : (Double.rnd z <= Double.add h (Double.rnd z))%Q).
  { rewrite <- (rnd_idem z) at 1. unfold Double.add. apply rnd_mono. lra. }
  split; [exact S1|].
  eapply Qle_trans; [exact S1|].
  unfold Double.add at 1 3. rewrite <- (rnd_idem (h + Double.rnd z)) at 1.
  apply rnd_mono. fold (Double.add h (Double.rnd z)). lra.
Qed.

(** Adding a quantity to a holding and taking it out again, on doubles:
    back within 2^-51 of the sum. *)
Lemma in_and_out (h b : Q) :
  (0 <= h)%Q -> (Double.pow2 (-1022) <= b)%Q -> (b <= Double.add h b)%Q ->
  let back := Math.max 0 (Double.sub (Double.add h b) b) in
  (h - (h + b) * Double.pow2 (-51) <= back)%Q /\ (back <= h + (h + b) * Double.pow2 (-51))%Q.
Proof.
  intros Hh Hb Hcov back.
  assert (E51 : (Double.pow2 (-51) == 4 # 9007199254740992)%Q)
    by (unfold Qeq; vm_compute; reflexivity).
  pose proof (pow2_pos (-1022)) as P22.
  assert (E75 : (Double.pow2 (-1075) == Double.pow2 (-1022) * (1 # 9007199254740992))%Q).
  { replace (-1075) with (-1022 + -53) by lia. rewrite pow2_add, pow2_m53. reflexivity. }
  destruct (rnd_near_num (h + b)) as [A1 A2]; [lra|].
  unfold back, Double.sub. unfold Double.add in *.
  set (h1 := Double.rnd (h + b)) in *.
  assert (Hd : (0 <= h1 - b)%Q) by lra.
  destruct (rnd_abs (h1 - b) Hd) as [B1 B2]. rewrite pow2_m53, E75 in B1, B2.
  pose proof (rnd_nonneg _ Hd) as Hr.
  set (r := Double.rnd (h1 - b)) in *.
  assert (Em : Math.max 0 r = r).
  { unfold Math.max. apply Qle_bool_iff in Hr. now rewrite Hr. }
  rewrite Em, E51.
  set (t := Double.pow2 (-1022)) in *.
  split; lra.
Qed.

Lemma exchange_moves (now : Z) (suffix : nat -> string) (params : ExchangeParams) (s : AppState) :
  let r := exchange now suffix params s in
  let moved := availableMinor (wallet (snd r)) - availableMinor (wallet s) in
  usdtMinor (assets (snd r)) - usdtMinor (assets s) = moved /\
  pendingMinor (wallet (snd r)) = pendingMinor (wallet s) /\
  accruedMinor (snd r) = accruedMinor s /\
  currency (wallet (snd r)) = currency (wallet s) /\
  (forall other, other <> symbol params ->
     holding other (assets (snd r)) = holding other (assets s)) /\
  (ok (fst r) = true ->
   exists row, ledger (snd r) = row :: ledger s /\
               type row = ADJUSTMENT /\ Store.amountMinor row = moved) /\
  (ok (fst r) = false -> moved = 0).
Proof.
  intros r moved. unfold moved, r, exchange. cbv zeta.
  repeat match goal with |- context [match ?x with _ => _ end] => destruct x eqn:? end;
    cbn [fst snd ok success failure ledger wallet assets
         accruedMinor availableMinor pendingMinor currency usdtMinor];
    rewrite ?usdtMinor_setHolding;
    (split; [cbn; lia|]); (split; [reflexivity|]); (split; [reflexivity|]);
    (split; [reflexivity|]);
    (split; [intros other Hne; try reflexivity;
             destruct other, (symbol params); try reflexivity; now elim Hne
            |]);
    (split; intros Hok; first [discriminate Hok | lia | eexists; repeat split; cbn; lia]).
Qed.

End ExchangeFacts.

(** X13. Buying crypto and selling it back at the same price is a round
    trip for the money.  When a USDT-to-crypto exchange of a positive
    amount below 2^49 minor units, covered by both [usdtMinor] and
    [availableMinor], at a price between 2^-900 and 2^900, is followed by
    a crypto-to-USDT exchange of exactly the quantity bought, at the same
    price, the second exchange is accepted and [usdtMinor],
    [availableMinor] and [pendingMinor] are back at their first values,
    and the other coin's holding never moved.  The holding of the traded
    coin comes back only up to rounding: within 2^-51 of the sum of the
    holding and the quantity bought, and not always to the same double,
    as on the demo store, where buying BTC for 120 USDT at 60,000 and
    selling it back leaves 2^-59 BTC more than the 0.015423 held
    before. *)
Theorem exchange_round_trip :
  forall (now1 now2 : Z) (suffix1 suffix2 : nat -> string) (symbol : Store.CryptoSymbol)
         (price : Q) (amtMinor : Z) (s : Store.AppState),
    (Double.pow2 (-900) <= price)%Q -> (price <= Double.pow2 900)%Q ->
    0 < amtMinor < 2 ^ 49 ->
    amtMinor <= Store.usdtMinor (Store.assets s) ->
    amtMinor <= Store.availableMinor (Store.wallet s) ->
    (0 <= Store.holding symbol (Store.assets s))%Q ->
    let held := Store.holding symbol (Store.assets s) in
    let bought := Double.div (Double.div (inject_Z amtMinor) 100) price in
    let s1 := snd (Store.exchange now1 suffix1
                     (Store.mkParams Store.USDT_TO_CRYPTO symbol (Finite price) None
                                     (Some (Finite amtMinor))) s) in
    let r2 := Store.exchange now2 suffix2
                (Store.mkParams Store.CRYPTO_TO_USDT symbol (Finite price)
                                (Some (Finite bought)) None) s1 in
    (Store.holding symbol (Store.assets s1) = Double.add held bought /\
     Store.ok (fst r2) = true /\
     Store.usdtMinor (Store.assets (snd r2)) = Store.usdtMinor (Store.assets s) /\
     Store.availableMinor (Store.wallet (snd r2)) = Store.availableMinor (Store.wallet s) /\
     Store.pendingMinor (Store.wallet (snd r2)) = Store.pendingMinor (Store.wallet s) /\
     Store.holding symbol (Store.assets (snd r2))
     = Math.max 0 (Double.sub (Double.add held bought) bought) /\
     (held - (held + bought) * Double.pow2 (-51)
      <= Store.holding symbol (Store.assets (snd r2)))%Q /\
     (Store.holding symbol (Store.assets (snd r2))
      <= held + (held + bought) * Double.pow2 (-51))%Q /\
     (forall other, other <> symbol ->
        Store.holding other (Store.assets (snd r2)) = Store.holding other (Store.assets s))) /\
    (let demo := Store.initialState [] 0 in
     let b := Double.div (Double.div (inject_Z 12000) 100) 60000 in
     (Math.max 0 (Double.sub (Double.add (Store.holding Store.BTC (Store.assets demo)) b) b)
      == Store.holding Store.BTC (Store.assets demo) + Double.pow2 (-59))%Q).
Proof.
  intros now1 now2 suffix1 suffix2 symbol price amtMinor s Plo Phi Ha Hu Hav Hh
         held bought s1 r2.
  split; [|cbv zeta; unfold Qeq; vm_compute; reflexivity].
  assert (Hp : (0 < price)%Q) by (pose proof (pow2_pos (-900)); lra).
  destruct (bought_sells_back price amtMinor Plo Phi Ha) as [Hb22 Hback].
  fold bought in Hb22, Hback.
  assert (Hb : (0 < bought)%Q) by (pose proof (pow2_pos (-1022)); lra).
  assert (E1 := exchange_toCrypto_accepted now1 suffix1 symbol price amtMinor s Hp
                  (proj1 Ha) Hu Hav).
  cbv zeta in E1. fold bought in E1.
  assert (Hs1 : Store.holding symbol (Store.assets s1) = Double.add held bought).
  { unfold s1. rewrite E1. cbn [snd Store.assets]. rewrite holding_setHolding.
    now destruct symbol. }
  destruct (added_is_covered held (Double.div (inject_Z amtMinor) 100 / price)%Q Hh)
    as [Hc1 Hc2].
  { change (0 <= bought)%Q. lra. }
  change (Double.rnd (Double.div (inject_Z amtMinor) 100 / price)) with bought in Hc1, Hc2.
  assert (Hle : (bought <= Double.add (Store.holding symbol (Store.assets s1)) Store.epsilon)%Q).
  { rewrite Hs1. exact Hc2. }
  assert (E2 := exchange_toUsdt_accepted now2 suffix2 symbol price bought s1 Hp Hb Hle).
  cbv zeta in E2. fold r2 in E2. rewrite Hback in E2.
  assert (Hw1 : Store.availableMinor (Store.wallet s1)
                = Store.availableMinor (Store.wallet s) - amtMinor)
    by (unfold s1; now rewrite E1).
  assert (Hp1 : Store.pendingMinor (Store.wallet s1) = Store.pendingMinor (Store.wallet s))
    by (unfold s1; now rewrite E1).
  assert (Hu1 : Store.usdtMinor (Store.assets s1)
                = Store.usdtMinor (Store.assets s) - amtMinor).
  { unfold s1. rewrite E1. cbn [snd Store.assets]. now rewrite usdtMinor_setHolding. }
  assert (Ho1 : forall other, other <> symbol ->
                  Store.holding other (Store.assets s1) = Store.holding other (Store.assets s)).
  { intros other Hne. unfold s1. rewrite E1. cbn [snd Store.assets].
    rewrite (holding_other symbol other _ _ Hne). now destruct other. }
  assert (Hh2 : Store.holding symbol (Store.assets (snd r2))
                = Math.max 0 (Double.sub (Double.add held bought) bought)).
  { rewrite E2. cbn [snd Store.assets]. rewrite <- Hs1.
    generalize (Math.max 0 (Double.sub (Store.holding symbol (Store.assets s1)) bought)).
    intros v. destruct symbol; reflexivity. }
  destruct (in_and_out held bought Hh Hb22 Hc1) as [Lo Hi].
  split; [exact Hs1|].
  split; [now rewrite E2|].
  split; [rewrite E2; cbn [snd Store.assets Store.usdtMinor]; rewrite usdtMinor_setHolding; lia|].
  split; [rewrite E2; cbn [snd Store.wallet Store.availableMinor]; lia|].
  split; [rewrite E2; cbn [snd Store.wallet Store.pendingMinor]; lia|].
  split; [exact Hh2|].
  split; [rewrite Hh2; exact Lo|].
  split; [rewrite Hh2; exact Hi|].
  intros other Hne. rewrite <- (Ho1 other Hne). rewrite E2. cbn [snd Store.assets].
  generalize (Math.max 0 (Double.sub (Store.holding symbol (Store.assets s1)) bought)).
  intros v. destruct symbol, other; try reflexivity; now elim Hne.
Qed.

Lemma exchange_round_trip_witness :
  let s := Store.initialState [] 0 in
  let bought := Double.div (Double.div (inject_Z 12000) 100) 60000 in
  let s1 := snd (Store.exchange 1 (fun _ => "a"%string)
                   (Store.mkParams Store.USDT_TO_CRYPTO Store.BTC (Finite 60000%Q) None
                                   (Some (Finite 12000))) s) in
  let r2 := Store.exchange 2 (fun _ => "b"%string)
              (Store.mkParams Store.CRYPTO_TO_USDT Store.BTC (Finite 60000%Q)
                              (Some (Finite bought)) None) s1 in
  Store.availableMinor (Store.wallet (snd r2)) = 12000 /\
  Store.usdtMinor (Store.assets (snd r2)) = 12000.
Proof.
  intros s bought s1 r2.
  destruct (exchange_round_trip 1 2 (fun _ => "a"%string) (fun _ => "b"%string) Store.BTC
              60000%Q 12000 s) as ((_ & _ & Hu & Ha & _) & _).
  - apply Qle_computed. vm_compute. reflexivity.
  - apply Qle_computed. vm_compute. reflexivity.
  - lia.
  - vm_compute. discriminate.
  - vm_compute. discriminate.
  - apply Qle_computed. vm_compute. reflexivity.
  - split; [exact Ha | exact Hu].
Defined.

(** X14. An exchange moves the USDT asset and the wallet balance in
    lockstep.  Whatever its parameters and whether it is accepted or
    refused, [exchange] changes [usdtMinor] and [availableMinor] by the
    same amount, which is the amount of the one ADJUSTMENT row it writes
    when it is accepted, and leaves [pendingMinor], [accruedMinor], the
    wallet currency and the holding of the coin that is not traded
    untouched. *)
Theorem exchange_keeps_usdt_in_step :
  forall (now : Z) (suffix : nat -> string) (params : Store.ExchangeParams) (s : Store.AppState),
    let r := Store.exchange now suffix params s in
    let moved := Store.availableMinor (Store.wallet (snd r)) - Store.availableMinor (Store.wallet s) in
    Store.usdtMinor (Store.assets (snd r)) - Store.usdtMinor (Store.assets s) = moved /\
    Store.pendingMinor (Store.wallet (snd r)) = Store.pendingMinor (Store.wallet s) /\
    Store.accruedMinor (snd r) = Store.accruedMinor s /\
    Store.currency (Store.wallet (snd r)) = Store.currency (Store.wallet s) /\
    (forall other, other <> Store.symbol params ->
       Store.holding other (Store.assets (snd r)) = Store.holding other (Store.assets s)) /\
    (if Store.ok (fst r)
     then exists row, Store.ledger (snd r) = row :: Store.ledger s /\
                      Store.type row = Store.ADJUSTMENT /\ Store.amountMinor row = moved
     else moved = 0).
Proof.
  intros now suffix params s r moved.
  destruct (exchange_moves now suffix params s) as (H1 & H2 & H3 & H4 & H5 & H6 & H7).
  fold r in H1, H2, H3, H4, H5, H6, H7. fold moved in H1, H6, H7.
  repeat (split; [assumption|]).
  destruct (Store.ok (fst r)); [now apply H6 | now apply H7].
Qed.

(** ** What the panel and the KPI cards show *)

Section Views.

Import Store Session Books.

Variable tza : LocalDay.Zone.
Hypothesis Horderly : LocalDay.orderly tza.

Lemma earnings_loop (now : Z) (l : list LedgerEntry) :
  forall a b : Z,
    fold_left
      (fun (acc : Z * Z) (e : LedgerEntry) =>
         let (todayEarningsMinor, yesterdayEarningsMinor) := acc in
         let eligible := WalletKPIGroup.isEarning e in
         if negb eligible then acc
         else if LocalDay.isSameDay tza (createdAt e) now
         then (todayEarningsMinor + amountMinor e, yesterdayEarningsMinor)
         else if LocalDay.isSameDay tza (createdAt e)
                   (LocalDay.startOfDay tza now - 24 * 60 * 60 * 1000)
         then (todayEarningsMinor, yesterdayEarningsMinor + amountMinor e)
         else acc)
      l (a, b)
    = (a + Spec.sumWhere (fun e => WalletKPIGroup.isEarning e
                                   && LocalDay.isSameDay tza (createdAt e) now) l,
       b + Spec.sumWhere (fun e => WalletKPIGroup.isEarning e
                                   && LocalDay.isSameDay tza (createdAt e)
                                        (LocalDay.startOfDay tza now - 24 * 60 * 60 * 1000)) l).
Proof.
  induction l as [|e l IH]; intros a b; cbn [fold_left Spec.sumWhere].
  - f_equal; lia.
  - cbv zeta.
    destruct (WalletKPIGroup.isEarning e); cbn [negb andb].
    + destruct (LocalDay.isSameDay tza (createdAt e) now) eqn:Et.
      * assert (Ey : LocalDay.isSameDay tza (createdAt e)
                       (LocalDay.startOfDay tza now - 24 * 60 * 60 * 1000) = false).
        { unfold LocalDay.isSameDay in *. pose proof (yesterday_before tza Horderly now).
          apply Z.eqb_eq in Et. apply Z.eqb_neq. lia. }
        rewrite Ey, IH. f_equal; lia.
      * destruct (LocalDay.isSameDay tza (createdAt e)
                    (LocalDay.startOfDay tza now - 24 * 60 * 60 * 1000));
          rewrite IH; f_equal; lia.
    + rewrite IH. f_equal; lia.
Qed.

Lemma sumPositiveWhere_app (keep : LedgerEntry -> bool) (l1 l2 : list LedgerEntry) :
  Spec.sumPositiveWhere keep (l1 ++ l2)
  = Spec.sumPositiveWhere keep l1 + Spec.sumPositiveWhere keep l2.
Proof.
  induction l1 as [|e l1 IH]; cbn [app Spec.sumPositiveWhere]; [lia | rewrite IH; lia].
Qed.

Lemma sumPositiveWhere_nonneg (keep : LedgerEntry -> bool) (l : list LedgerEntry) :
  0 <= Spec.sumPositiveWhere keep l.
Proof.
  induction l as [|e l IH]; cbn [Spec.sumPositiveWhere]; [lia|].
  destruct (keep e); lia.
Qed.

Lemma run_extends (ops : list (Env * Op)) :
  forall st : State, extends (ledger (snd st)) (ledger (snd (run ops st))).
Proof.
  induction ops as [|eo ops IH]; intros st.
  - now exists [].
  - cbn [run fold_left]. fold (run ops (step st eo)).
    destruct (IH (step st eo)) as (a1 & H1).
    destruct (step_extends st eo) as (a0 & H0).
    exists (a1 ++ a0). now rewrite H1, H0, app_assoc.
Qed.

(** The double 0.2 and what a product with it rounds to. *)
Lemma fifth_bounds : ((1 # 10) <= Double.lit 2 10)%Q /\ (Double.lit 2 10 <= (1 # 4))%Q.
Proof. split; apply Qle_computed; vm_compute; reflexivity. Qed.

Lemma fee_product (g : Q) :
  (1 <= g)%Q ->
  (0 <= Double.mul g (Double.lit 2 10))%Q /\ (Double.mul g (Double.lit 2 10) <= g * (3 # 10))%Q.
Proof.
  intros Hg. destruct fifth_bounds as [D1 D2].
  assert (H22 : (Double.pow2 (-1022) <= 1 # 10)%Q)
    by (apply Qle_computed; vm_compute; reflexivity).
  unfold Double.mul. set (d := Double.lit 2 10) in *.
  assert (P : (0 <= (g - 1) * (d - (1 # 10)))%Q) by (apply Qmult_le_0_compat; lra).
  assert (P2 : (0 <= g * ((1 # 4) - d))%Q) by (apply Qmult_le_0_compat; lra).
  destruct (rnd_near_num (g * d)) as [Lo Hi]; [lra|].
  split; [apply rnd_nonneg; apply Qmult_le_0_compat; lra | lra].
Qed.

Lemma fee_of_nonneg (gross : Z) :
  0 <= gross -> 0 <= Math.round (Double.mul (inject_Z gross) (Double.lit 2 10)) <= gross.
Proof.
  intros Hg. destruct (Z.eq_dec gross 0) as [->|Hne]; [vm_compute; split; discriminate|].
  assert (H1 : (1 <= inject_Z gross)%Q)
    by (change 1%Q with (inject_Z 1); rewrite <- Zle_Qle; lia).
  destruct (fee_product _ H1) as [Lo Hi].
  split; [now apply round_nonneg|].
  unfold Math.round.
  pose proof (Qfloor_le (Double.mul (inject_Z gross) (Double.lit 2 10) + (1 # 2))) as F.
  set (f := Qfloor _) in *.
  assert (H : (inject_Z f < inject_Z (gross + 1))%Q)
    by (rewrite inject_Z_plus; change (inject_Z 1) with 1%Q; lra).
  rewrite <- Zlt_Qlt in H. lia.
Qed.

Lemma fee_of_negative (gross : Z) :
  gross < 0 -> gross - Math.round (Double.mul (inject_Z gross) (Double.lit 2 10)) < 0.
Proof.
  intros Hg.
  assert (H1 : (1 <= - inject_Z gross)%Q).
  { rewrite <- inject_Z_opp. change 1%Q with (inject_Z 1). rewrite <- Zle_Qle. lia. }
  destruct (fee_product _ H1) as [_ Hi].
  assert (E : (Double.mul (inject_Z gross) (Double.lit 2 10)
               == - Double.mul (- inject_Z gross) (Double.lit 2 10))%Q).
  { unfold Double.mul.
    assert (C : Double.rnd (inject_Z gross * Double.lit 2 10)
                = Double.rnd (- (- inject_Z gross * Double.lit 2 10)))
      by (apply rnd_comp; ring).
    rewrite C. apply rnd_opp. }
  unfold Math.round.
  pose proof (Qlt_floor (Double.mul (inject_Z gross) (Double.lit 2 10) + (1 # 2))) as F.
  set (f := Qfloor _) in *.
  rewrite inject_Z_plus in F. change (inject_Z 1) with 1%Q in F.
  assert (H : (inject_Z gross < inject_Z f)%Q) by lra.
  rewrite <- Zlt_Qlt in H. lia.
Qed.

(** The hundredth of an amount in minor units, times 100, on doubles:
    within a half of the amount, for an amount below 2^51. *)
Lemma hundredth_back (n : Z) :
  0 < n < 2 ^ 51 ->
  (inject_Z n - (1 # 2) < Double.mul (Double.div (inject_Z n) 100) 100)%Q /\
  (Double.mul (Double.div (inject_Z n) 100) 100 < inject_Z n + (1 # 2))%Q.
Proof.
  intros [Hpos Hbig]. unfold Double.mul, Double.div.
  assert (Hn1 : (1 <= inject_Z n)%Q)
    by (change 1%Q with (inject_Z 1); rewrite <- Zle_Qle; lia).
  assert (Hn2 : (inject_Z n <= inject_Z (2 ^ 51 - 1))%Q) by (rewrite <- Zle_Qle; lia).
  assert (H22 : (Double.pow2 (-1022) <= 1 # 1000)%Q)
    by (apply Qle_computed; vm_compute; reflexivity).
  assert (U : (Double.pow2 (-53) <= 1 # 9007199254740992)%Q)
    by (apply Qle_computed; vm_compute; reflexivity).
  assert (U0 : (0 < Double.pow2 (-53))%Q) by apply pow2_pos.
  destruct (rnd_near (inject_Z n / 100)) as [A1 A2].
  { apply Qle_trans with (1 # 1000)%Q; [exact H22|].
    apply Qle_shift_div_l; [reflexivity | lra]. }
  set (m := inject_Z n) in *. set (u := Double.pow2 (-53)) in *.
  assert (Eq : (m / 100 * 100 == m)%Q) by field.
  set (q := (m / 100)%Q) in *.
  set (x := Double.rnd q) in *.
  assert (Q0 : (0 <= q)%Q) by lra.
  assert (P1 : (0 <= ((1 # 9007199254740992) - u) * q)%Q)
    by (apply Qmult_le_0_compat; lra).
  destruct (rnd_near (x * 100)) as [B1 B2].
  { apply Qle_trans with (1 # 1000)%Q; [exact H22|]. lra. }
  fold u in B1, B2. set (y := Double.rnd (x * 100)) in *.
  change (inject_Z (2 ^ 51 - 1)) with 2251799813685247%Q in Hn2.
  assert (X0 : (0 <= x)%Q) by (apply rnd_nonneg; exact Q0).
  assert (P2 : (0 <= ((1 # 9007199254740992) - u) * x)%Q)
    by (apply Qmult_le_0_compat; lra).
  split; lra.
Qed.

Lemma parse_filled (s : AppState) :
  0 < availableMinor (wallet s) < 2 ^ 51 ->
  RunControlPanel.parseInvestMinor (PanelView.handleFillAll s) = Some (availableMinor (wallet s)).
Proof.
  intros Ha. unfold RunControlPanel.parseInvestMinor, PanelView.handleFillAll.
  assert (Hq : (0 < Double.div (inject_Z (availableMinor (wallet s))) 100)%Q)
    by (apply amount_positive; lia).
  apply Qle_bool_false in Hq. rewrite Hq. f_equal.
  destruct (hundredth_back _ Ha) as [Lo Hi].
  unfold Math.round. apply floor_unique.
  - lra.
  - rewrite inject_Z_plus. change (inject_Z 1) with 1%Q. lra.
Qed.

End Views.

(** X15. The run panel and the KPI cards show the same earnings.  The
    loop of the run panel, which gives a row to today when it is dated
    today and otherwise to yesterday when it has the date of the instant
    24 hours before today's midnight, and the two filters of the KPI group
    add up the same two figures for every ledger and every instant; the
    panel's figure for yesterday is also the gross of
    [getYesterdayNumbers].  This holds in every orderly time zone, with
    or without clock changes, so in every zone of fixed offset. *)
Theorem panel_and_kpi_earnings_agree :
  forall (now : Z) (ledger : list Store.LedgerEntry),
    let agree := fun tza : LocalDay.Zone =>
      PanelView.earnings tza now ledger
      = (KPIView.todayEarningsMinor tza true now ledger,
         KPIView.yesterdayEarningsMinor tza true now ledger) /\
      snd (PanelView.earnings tza now ledger)
      = WalletKPIGroup.grossMinor (WalletKPIGroup.getYesterdayNumbers tza now ledger) in
    (forall offsetMs : Z, agree (LocalDay.fixed offsetMs)) /\
    (forall tza : LocalDay.Zone, LocalDay.orderly tza -> agree tza).
Proof.
  intros now ledger agree.
  assert (H : forall tza : LocalDay.Zone, LocalDay.orderly tza -> agree tza).
  { intros tza Ho. unfold agree.
    unfold PanelView.earnings, KPIView.todayEarningsMinor, KPIView.yesterdayEarningsMinor,
      WalletKPIGroup.getYesterdayNumbers.
    cbv zeta. cbn [WalletKPIGroup.grossMinor].
    rewrite (earnings_loop tza Ho), !sum_filter_sumWhere. cbn [snd]. split; reflexivity. }
  split; [|exact H].
  intros offsetMs. apply H. apply fixed_orderly.
Qed.

(** New York across the clock change of 10 March 2024: an EARN row of the
    23-hour day is in neither figure of 11 March. *)
Lemma panel_and_kpi_earnings_agree_witness :
  PanelView.earnings LocalDay.newYorkSpring2024 1710172800000
    [ Store.mkEntry "l_1" Store.EARN 10000 "USD" 1710086400000 (Some "run-order"%string) None ]
  = (0, 0).
Proof.
  rewrite (proj1 (proj2 (panel_and_kpi_earnings_agree 1710172800000 _)
                    LocalDay.newYorkSpring2024 newYorkSpring2024_orderly)).
  reflexivity.
Defined.

(** X16. Total earnings never go down.  Over any sequence of operations
    of a session the figure of the total-earnings card, the sum of the
    EARN, COMMISSION and PAYOUT rows with negative amounts counted as
    zero, is at least what it was before. *)
Theorem total_earnings_never_decrease :
  forall (visible : bool) (ops : list (Session.Env * Session.Op)) (st : Session.State),
    KPIView.totalEarningsMinor visible (Store.ledger (snd st))
    <= KPIView.totalEarningsMinor visible (Store.ledger (snd (Session.run ops st))).
Proof.
  intros visible ops st. unfold KPIView.totalEarningsMinor.
  destruct visible; [|lia].
  rewrite !sum_filter_sumPositiveWhere.
  destruct (run_extends ops st) as (added & ->).
  rewrite sumPositiveWhere_app.
  pose proof (sumPositiveWhere_nonneg KPIView.isIncome added). lia.
Qed.

(** X17. The yesterday card never shows a negative return.  The net of
    [getYesterdayNumbers] is never negative; when the gross is not
    negative the fee lies between zero and the gross and fee plus net is
    the gross, and when the gross is negative the net is zero; so the
    percent badge, whatever the running capital, is never of the negative
    kind, and it is of the positive kind exactly when both the running
    capital and the net are positive. *)
Theorem yesterday_badge_never_negative :
  forall (tza : LocalDay.Zone) (now : Z) (ledger : list Store.LedgerEntry) (baseMinor : Z),
    let n := WalletKPIGroup.getYesterdayNumbers tza now ledger in
    let gross := WalletKPIGroup.grossMinor n in
    let fee := WalletKPIGroup.feeMinor n in
    let net := WalletKPIGroup.netMinor n in
    let kind := KPIView.badgeKind (KPIView.badgeRate baseMinor net) in
    0 <= net /\
    (if 0 <=? gross then 0 <= fee <= gross /\ fee + net = gross else net = 0) /\
    kind <> KPIView.neg /\
    (kind = KPIView.pos <-> 0 < baseMinor /\ 0 < net).
Proof.
  intros tza now ledger baseMinor n gross fee net kind.
  assert (Hnet : net = Z.max 0 (gross - fee)) by reflexivity.
  assert (Hfee : fee = Math.round (Double.mul (inject_Z gross) (Double.lit 2 10))) by reflexivity.
  assert (H0 : 0 <= net) by lia.
  split; [exact H0|]. split.
  - destruct (0 <=? gross) eqn:E.
    + apply Z.leb_le in E. pose proof (fee_of_nonneg gross E). lia.
    + apply Z.leb_gt in E. pose proof (fee_of_negative gross E). lia.
  - clearbody net. clear Hnet Hfee n gross fee.
    unfold kind, KPIView.badgeKind, KPIView.badgeRate.
    destruct (baseMinor >? 0) eqn:Eb.
    + assert (Hb : 0 < baseMinor) by lia.
      assert (Hbq : (0 < inject_Z baseMinor)%Q)
        by (change 0%Q with (inject_Z 0); now rewrite <- Zlt_Qlt).
      assert (Hnq : (0 <= inject_Z net)%Q)
        by (change 0%Q with (inject_Z 0); now rewrite <- Zle_Qle).
      assert (Hi : (0 < / inject_Z baseMinor)%Q) by now apply Qinv_lt_0_compat.
      destruct (Z.eq_dec net 0) as [Hz|Hnz].
      * assert (Er : (inject_Z net / inject_Z baseMinor * 100 == 0)%Q)
          by (rewrite Hz; unfold Qdiv; ring).
        assert (E1 : Qle_bool (inject_Z net / inject_Z baseMinor * 100) 0 = true)
          by (apply Qle_bool_iff; rewrite Er; lra).
        assert (E2 : Qle_bool 0 (inject_Z net / inject_Z baseMinor * 100) = true)
          by (apply Qle_bool_iff; rewrite Er; lra).
        rewrite E1, E2. cbn [negb]. split; [discriminate|]. split; [discriminate | lia].
      * assert (Hpos : (0 < inject_Z net / inject_Z baseMinor * 100)%Q).
        { unfold Qdiv. apply Qmult_lt_0_compat; [apply Qmult_lt_0_compat|reflexivity].
          - change 0%Q with (inject_Z 0). rewrite <- Zlt_Qlt. lia.
          - exact Hi. }
        apply Qle_bool_false in Hpos. rewrite Hpos. cbn [negb].
        split; [discriminate|]. split; [lia | reflexivity].
    + split; [discriminate|]. split; [discriminate | lia].
Qed.

(** X18. The below-minimum tip announces the refusal.  With an address
    bound and a non-blank input, the tip under the amount field is shown
    exactly when [handleStart] would refuse the input with the
    [run.min100] toast, leaving panel and store as they are. *)
Theorem below_min_tip_matches_refusal :
  forall (parsed : number Q) (now : Z) (suffix : string)
         (p : RunControlPanel.Panel) (s : Store.AppState),
    PanelView.showBelowMinTip true parsed = true <->
    RunControlPanel.handleStart true parsed now suffix p s
    = (RunControlPanel.toastError "run.min100", p, s).
Proof.
  intros parsed now suffix p s. unfold PanelView.showBelowMinTip. cbn [andb].
  destruct (RunControlPanel.parseInvestMinor parsed) as [m|] eqn:Hv.
  - destruct (Z_lt_le_dec m 10000) as [Hlt|Hge].
    + rewrite (handleStart_below_minimum now suffix parsed m p s Hv Hlt).
      split; [reflexivity|]. intros _. now apply Z.ltb_lt.
    + assert (E : (m <? RunControlPanel.MIN_MINOR) = false) by now apply Z.ltb_ge.
      rewrite E. split; [discriminate|].
      destruct (Z_lt_le_dec (Store.availableMinor (Store.wallet s)) m) as [Hex|Hok].
      * rewrite (handleStart_exceeds now suffix parsed m p s Hv Hge Hex). discriminate.
      * rewrite (handleStart_accepted now suffix parsed m p s Hv Hge Hok). discriminate.
  - rewrite (handleStart_invalid now suffix parsed p s Hv). split; discriminate.
Qed.

(** X19. Fill-all followed by start invests the whole balance.  With an
    address bound and a balance of at least the minimum of 100 major
    units and below 2^51 minor units, starting with the amount
    [handleFillAll] puts in the field succeeds, leaves [availableMinor] at
    zero and adds the whole balance to [pendingMinor]: the balance
    divided by 100 and multiplied by 100 again, both as doubles, rounds
    back to the balance.  The bound is needed: for the balance
    4,186,598,095,492,838 the product rounds to one more, and the start is
    refused as exceeding the balance. *)
Theorem fill_all_then_start :
  forall (now : Z) (suffix : string) (p : RunControlPanel.Panel) (s : Store.AppState),
    RunControlPanel.MIN_MINOR <= Store.availableMinor (Store.wallet s) < 2 ^ 51 ->
    let r := RunControlPanel.handleStart true (PanelView.handleFillAll s) now suffix p s in
    (fst (fst r) = RunControlPanel.toastSuccess "run.running" /\
     RunControlPanel.running (snd (fst r)) = true /\
     Store.availableMinor (Store.wallet (snd r)) = 0 /\
     Store.pendingMinor (Store.wallet (snd r))
     = Store.pendingMinor (Store.wallet s) + Store.availableMinor (Store.wallet s)) /\
    (let big := Store.mkState (Store.mkWallet 4186598095492838 0 "USD" 0)
                              (Store.assets s) (Store.accruedMinor s) (Store.ledger s) in
     RunControlPanel.parseInvestMinor (PanelView.handleFillAll big) = Some 4186598095492839 /\
     RunControlPanel.handleStart true (PanelView.handleFillAll big) now suffix p big
     = (RunControlPanel.toastError "run.investExceed", p, big)).
Proof.
  intros now suffix p s Hmin r.
  assert (Hpos : 0 < Store.availableMinor (Store.wallet s) < 2 ^ 51)
    by (unfold RunControlPanel.MIN_MINOR, RunControlPanel.MIN_MAIN in Hmin; lia).
  split.
  - unfold r.
    rewrite (handleStart_accepted now suffix _ _ p s (parse_filled s Hpos) (proj1 Hmin)
               (Z.le_refl _)).
    cbn. repeat split; lia.
  - cbv zeta.
    assert (E : RunControlPanel.parseInvestMinor
                  (PanelView.handleFillAll
                     (Store.mkState (Store.mkWallet 4186598095492838 0 "USD" 0)
                                    (Store.assets s) (Store.accruedMinor s) (Store.ledger s)))
                = Some 4186598095492839) by (vm_compute; reflexivity).
    split; [exact E|].
    apply (handleStart_exceeds now suffix _ _ p _ E); cbn; lia.
Qed.

Lemma fill_all_then_start_witness :
  let s := Store.initialState [] 0 in
  Store.availableMinor
    (Store.wallet (snd (RunControlPanel.handleStart true (PanelView.handleFillAll s) 7 "x"
                          (RunControlPanel.mkPanel false 0) s))) = 0.
Proof.
  intros s.
  apply (fill_all_then_start 7 "x" (RunControlPanel.mkPanel false 0) s).
  vm_compute. split; [discriminate | reflexivity].
Defined.

(** ** The payout status over a day *)

Section PayoutProgress.

Import Store Session Books WalletKPIGroup.

Variable tza : LocalDay.Zone.

Ltac dated_rows :=
  match goal with
  | |- exists added, ?x :: ?y :: ?l = added ++ ?l /\ _ => exists [x; y]
  | |- exists added, ?x :: ?l = added ++ ?l /\ _ => exists [x]
  | |- exists added, ?l = added ++ ?l /\ _ => exists []
  end; (split; [reflexivity | repeat constructor]).

(** Every row a step writes is dated by the stamp of the operation. *)
Lemma step_stamps (p : RunControlPanel.Panel) (s : AppState) (env : Env) (op : Op) :
  exists added,
    ledger (snd (step (p, s) (env, op))) = added ++ ledger s /\
    Forall (fun e => createdAt e = stamp (env, op)) added.
Proof.
  destruct op as [hasAddress investInput | | o | | amount | symbol amount | params];
    cbn [step snd stamp fst].
  - unfold RunControlPanel.handleStart.
    destruct hasAddress; cbn [negb snd]; [|dated_rows].
    destruct (RunControlPanel.parseInvestMinor investInput) as [m|]; [|cbn [snd]; dated_rows].
    destruct (m <? RunControlPanel.MIN_MINOR); [cbn [snd]; dated_rows|].
    destruct (m >? availableMinor (wallet s)); cbn [snd ledger]; dated_rows.
  - unfold RunControlPanel.doStop. cbn [snd]. dated_rows.
  - unfold RunPage.onOrder. cbn [ledger]. dated_rows.
  - unfold manualPayout. cbv zeta.
    repeat match goal with |- context [match ?x with _ => _ end] => destruct x end;
      cbn [ledger]; dated_rows.
  - unfold requestWithdrawal. cbv zeta.
    repeat match goal with |- context [match ?x with _ => _ end] => destruct x end;
      cbn [snd ledger]; dated_rows.
  - unfold requestCryptoWithdrawal. cbv zeta.
    repeat match goal with |- context [match ?x with _ => _ end] => destruct x end;
      cbn [snd ledger]; dated_rows.
  - unfold exchange. cbv zeta.
    repeat match goal with |- context [match ?x with _ => _ end] => destruct x end;
      cbn [snd ledger]; dated_rows.
Qed.

Lemma run_stamps (P : Z -> Prop) (ops : list (Env * Op)) :
  forall st : State,
    Forall (fun eo => P (stamp eo)) ops ->
    exists added,
      ledger (snd (run ops st)) = added ++ ledger (snd st) /\
      Forall (fun e => P (createdAt e)) added.
Proof.
  induction ops as [|eo ops IH]; intros st Hops.
  - exists []. split; [reflexivity | constructor].
  - cbn [run fold_left]. fold (run ops (step st eo)).
    inversion Hops as [|? ? Heo Hrest]; subst.
    destruct (IH (step st eo) Hrest) as (a1 & H1 & F1).
    destruct st as [p s], eo as [env op].
    destruct (step_stamps p s env op) as (a0 & H0 & F0).
    exists (a1 ++ a0). rewrite H1, H0, app_assoc. split; [reflexivity|].
    apply Forall_app. split; [exact F1|].
    eapply Forall_impl; [|exact F0]. cbv beta. intros e ->. exact Heo.
Qed.

(** Rows dated on another day than [y] add nothing to the sums of day
    [y]. *)
Lemma sumWhere_other_day (y d : Z) (choose : LedgerEntry -> bool) (l : list LedgerEntry) :
  LocalDay.localDay tza y <> d ->
  Forall (fun e => LocalDay.localDay tza (createdAt e) = d) l ->
  Spec.sumWhere (fun e => choose e && LocalDay.isSameDay tza (createdAt e) y) l = 0.
Proof.
  intros Hy Hl. induction Hl as [|e l He _ IH]; [reflexivity|].
  cbn [Spec.sumWhere]. rewrite IH.
  assert (E : LocalDay.isSameDay tza (createdAt e) y = false)
    by (unfold LocalDay.isSameDay; apply Z.eqb_neq; lia).
  rewrite E, Bool.andb_false_r. reflexivity.
Qed.

(** The card reads the instant only through its local day. *)
Lemma yesterdayStatus_day (now now' : Z) (l : list LedgerEntry) :
  LocalDay.localDay tza now' = LocalDay.localDay tza now ->
  yesterdayStatus tza now' l = yesterdayStatus tza now l.
Proof.
  intros H. unfold yesterdayStatus, getYesterdayNumbers, getYesterdayPayoutStatus.
  cbv zeta. cbn [today netMinor].
  unfold LocalDay.isSameDay, LocalDay.startOfDay. now rewrite H.
Qed.

End PayoutProgress.

(** X20. Within a day the payout status never goes back.  When every
    row a sequence of operations writes is dated on the local day of the
    instant the card is drawn at, the status of yesterday's payout after
    the operations is at least as far as before them, in the order
    PENDING, PARTIAL, SENT: yesterday's net is not touched and what was
    paid today only grows.  This holds in every orderly time zone, with
    or without clock changes, so in every zone of fixed offset. *)
Theorem payout_status_never_regresses :
  forall (now now' : Z) (ops : list (Session.Env * Session.Op)) (st : Session.State),
    let holds := fun tza : LocalDay.Zone =>
      Forall (fun eo => LocalDay.localDay tza (Books.stamp eo)
                        = LocalDay.localDay tza now) ops ->
      LocalDay.localDay tza now' = LocalDay.localDay tza now ->
      Books.rank (WalletKPIGroup.yesterdayStatus tza now (Store.ledger (snd st)))
      <= Books.rank (WalletKPIGroup.yesterdayStatus tza now'
                       (Store.ledger (snd (Session.run ops st)))) in
    (forall offsetMs : Z, holds (LocalDay.fixed offsetMs)) /\
    (forall tza : LocalDay.Zone, LocalDay.orderly tza -> holds tza).
Proof.
  intros now now' ops st holds.
  assert (H : forall tza : LocalDay.Zone, LocalDay.orderly tza -> holds tza).
  { intros tza Ho Hops Hday.
    rewrite (yesterdayStatus_day tza now now' _ Hday).
    destruct (run_stamps (fun t => LocalDay.localDay tza t = LocalDay.localDay tza now)
                ops st Hops) as (added & -> & Hadded).
    generalize (Store.ledger (snd st)). intros old.
    unfold WalletKPIGroup.yesterdayStatus, WalletKPIGroup.getYesterdayNumbers. cbv zeta.
    cbn [WalletKPIGroup.today WalletKPIGroup.netMinor].
    rewrite !sum_filter_sumWhere, sumWhere_app.
    rewrite (sumWhere_other_day tza _ (LocalDay.localDay tza now)
               WalletKPIGroup.isEarning added);
      [|pose proof (yesterday_before tza Ho now); lia | exact Hadded].
    rewrite Z.add_0_l.
    set (net := Z.max 0 _).
    destruct (status_cases tza old now net) as (S1 & P1 & _).
    destruct (status_cases tza (added ++ old) now net) as (S2 & P2 & N2).
    cbv zeta in *. rewrite sumPositiveWhere_app in S2, P2, N2.
    pose proof (sumPositiveWhere_nonneg
                  (fun e => WalletKPIGroup.isPayout e
                            && LocalDay.isSameDay tza (Store.createdAt e) now) added) as Hge.
    destruct (WalletKPIGroup.status (WalletKPIGroup.getYesterdayPayoutStatus tza old now net))
      eqn:Eold;
      destruct (WalletKPIGroup.status
                  (WalletKPIGroup.getYesterdayPayoutStatus tza (added ++ old) now net))
        eqn:Enew; cbn [Books.rank]; try lia; exfalso.
    - pose proof (proj1 S1 eq_refl) as Hs.
      assert (Hn : WalletKPIGroup.PARTIAL = WalletKPIGroup.SENT) by (apply S2; lia).
      discriminate Hn.
    - pose proof (proj1 S1 eq_refl) as Hs.
      assert (Hn : WalletKPIGroup.PENDING = WalletKPIGroup.SENT) by (apply S2; lia).
      discriminate Hn.
    - pose proof (proj1 P1 eq_refl) as Hs. pose proof (proj1 N2 eq_refl) as Hn. lia. }
  split; [|exact H].
  intros offsetMs. apply H. apply fixed_orderly.
Qed.

Lemma payout_status_never_regresses_witness :
  let st := (RunControlPanel.mkPanel false 0, Store.initialState [] 0) in
  let env := Session.mkEnv 5 (fun _ => "x"%string) in
  Books.rank (WalletKPIGroup.yesterdayStatus (LocalDay.fixed 0) 5 (Store.ledger (snd st)))
  <= Books.rank (WalletKPIGroup.yesterdayStatus (LocalDay.fixed 0) 6
                   (Store.ledger (snd (Session.run [(env, Session.ManualPayout)] st)))).
Proof.
  intros st env.
  apply (proj1 (payout_status_never_regresses 5 6 [(env, Session.ManualPayout)] st) 0).
  - repeat constructor.
  - reflexivity.
Defined.

(** ** services/platforms.ts *)

Section PlatformLists.

Import Engine Platforms.

Variable trim : string -> string.
Variable parse : string -> option unknown.

Lemma samePlatform_eq (a b : RunPlatform) : samePlatform a b = true <-> a = b.
Proof. destruct a, b; cbn; split; intros H; try reflexivity; discriminate. Qed.

Lemma existsb_samePlatform (p : RunPlatform) (set : list RunPlatform) :
  existsb (samePlatform p) set = true <-> In p set.
Proof.
  rewrite existsb_exists. split.
  - intros (q & Hin & Hs). apply samePlatform_eq in Hs. now subst.
  - intros Hin. exists p. split; [exact Hin | now apply samePlatform_eq].
Qed.

Lemma setAdd_NoDup (p : RunPlatform) (set : list RunPlatform) :
  NoDup set -> NoDup (setAdd p set).
Proof.
  intros Hs. unfold setAdd. destruct (existsb (samePlatform p) set) eqn:E; [exact Hs|].
  assert (Hn : ~ In p set) by (intros Hin; apply existsb_samePlatform in Hin; congruence).
  apply NoDup_rev in Hs. rewrite <- (rev_involutive (set ++ [p])), rev_app_distr.
  apply NoDup_rev. cbn. constructor; [now rewrite <- in_rev | exact Hs].
Qed.

Lemma setAdd_In (p q : RunPlatform) (set : list RunPlatform) :
  In q (setAdd p set) <-> In q set \/ q = p.
Proof.
  unfold setAdd. destruct (existsb (samePlatform p) set) eqn:E.
  - apply existsb_samePlatform in E. split; [now left | intros [H| ->]; assumption].
  - rewrite in_app_iff. cbn. split; intros [H|H]; auto.
    + destruct H as [H|[]]; auto.
Qed.

Lemma collect_items (items : list element) :
  forall set : list RunPlatform,
    NoDup set ->
    NoDup (fold_left (collect trim) items set) /\
    forall p, In p (fold_left (collect trim) items set) <-> In p set \/ named trim items p.
Proof.
  induction items as [|v items IH]; intros set Hs; cbn [fold_left].
  - split; [exact Hs|]. intros p. split; [now left|].
    intros [H|(s & [] & _)]. exact H.
  - assert (Hc : NoDup (collect trim set v)).
    { unfold collect. destruct v as [s|]; [|exact Hs].
      destruct (supported (trim s)); [now apply setAdd_NoDup | exact Hs]. }
    destruct (IH _ Hc) as [Hn Hin]. split; [exact Hn|].
    intros p. rewrite Hin. unfold named. cbn [In]. split.
    + intros [H|(s & Hs1 & Hs2)].
      * unfold collect in H. destruct v as [s|]; [|now left].
        destruct (supported (trim s)) as [q|] eqn:Eq; [|now left].
        apply setAdd_In in H. destruct H as [H| ->]; [now left|].
        right. exists s. split; [now left | exact Eq].
      * right. exists s. split; [now right | exact Hs2].
    + intros [H|(s & [Hv|Hs1] & Hs2)].
      * left. unfold collect. destruct v as [s|]; [|exact H].
        destruct (supported (trim s)); [apply setAdd_In; now left | exact H].
      * left. subst v. unfold collect. rewrite Hs2. apply setAdd_In. now right.
      * right. exists s. split; assumption.
Qed.

Lemma sup_complete (p : RunPlatform) : In p sup.
Proof. destruct p; cbn; auto. Qed.

Lemma sup_NoDup : NoDup sup.
Proof.
  unfold sup. repeat constructor; cbn; intros H;
    repeat match goal with H : _ \/ _ |- _ => destruct H end; try discriminate; assumption.
Qed.

Lemma NoDup_at_most_3 (l : list RunPlatform) : NoDup l -> (List.length l <= 3)%nat.
Proof.
  intros H. apply (NoDup_incl_length H (l' := sup)). intros p _. apply sup_complete.
Qed.

Lemma normalizePlatforms_usable (arr : unknown) :
  normalizePlatforms trim arr <> [] /\ NoDup (normalizePlatforms trim arr).
Proof.
  unfold normalizePlatforms. destruct arr as [items| |]; try (split; [discriminate | apply sup_NoDup]).
  cbv zeta. destruct (collect_items items [] (NoDup_nil _)) as [Hn _].
  destruct (fold_left (collect trim) items []) as [|a l];
    [split; [discriminate | apply sup_NoDup] | split; [discriminate | exact Hn]].
Qed.

End PlatformLists.

(** X21. The platform list is always usable.  Whatever
    [window.__runPlatforms] and [localStorage.run_platforms] hold, and
    whether or not the stored text parses, [getRunPlatforms] returns a
    list that is not empty, has no platform twice and so has at most three
    members. *)
Theorem getRunPlatforms_usable :
  forall (trim : string -> string) (parse : string -> option Platforms.unknown)
         (winList : option Platforms.unknown) (raw : option string),
    let l := Platforms.getRunPlatforms trim parse winList raw in
    l <> [] /\ NoDup l /\ (List.length l <= 3)%nat.
Proof.
  intros trim parse winList raw l.
  assert (H : l <> [] /\ NoDup l).
  { unfold l, Platforms.getRunPlatforms. cbv zeta.
    assert (Hd : [Engine.Binance; Engine.OKX; Engine.Bybit] <> [] /\
                 NoDup [Engine.Binance; Engine.OKX; Engine.Bybit])
      by (split; [discriminate | apply sup_NoDup]).
    assert (Hs : forall r : option string,
               match r with
               | Some r0 =>
                   if negb (String.eqb r0 "") then
                     match parse r0 with
                     | Some arr => Platforms.normalizePlatforms trim arr
                     | None => [Engine.Binance; Engine.OKX; Engine.Bybit]
                     end
                   else [Engine.Binance; Engine.OKX; Engine.Bybit]
               | None => [Engine.Binance; Engine.OKX; Engine.Bybit]
               end <> [] /\
               NoDup match r with
               | Some r0 =>
                   if negb (String.eqb r0 "") then
                     match parse r0 with
                     | Some arr => Platforms.normalizePlatforms trim arr
                     | None => [Engine.Binance; Engine.OKX; Engine.Bybit]
                     end
                   else [Engine.Binance; Engine.OKX; Engine.Bybit]
               | None => [Engine.Binance; Engine.OKX; Engine.Bybit]
               end).
    { intros [r0|]; [|exact Hd]. destruct (negb (String.eqb r0 "")); [|exact Hd].
      destruct (parse r0); [apply normalizePlatforms_usable | exact Hd]. }
    destruct winList as [w|]; [|apply Hs].
    destruct (Platforms.truthy w); [apply normalizePlatforms_usable | apply Hs]. }
  destruct H as [H1 H2]. repeat split; [exact H1 | exact H2 | now apply NoDup_at_most_3].
Qed.

(** X22. What [normalizePlatforms] keeps of an array.  The result has no
    platform twice; when some string item of the array, once trimmed, is
    a supported name, the result holds exactly the platforms so named;
    when none is, it is the default list of all three. *)
Theorem normalizePlatforms_keeps_named :
  forall (trim : string -> string) (items : list Platforms.element),
    let l := Platforms.normalizePlatforms trim (Platforms.UArray items) in
    NoDup l /\
    ((exists q, Platforms.named trim items q) ->
     forall p, In p l <-> Platforms.named trim items p) /\
    ((forall q, ~ Platforms.named trim items q) -> l = Platforms.sup).
Proof.
  intros trim items l.
  split; [apply normalizePlatforms_usable|].
  unfold l, Platforms.normalizePlatforms. cbv zeta.
  destruct (collect_items trim items [] (NoDup_nil _)) as [_ Hin].
  destruct (fold_left (Platforms.collect trim) items []) as [|a rest] eqn:E.
  - split.
    + intros (q & Hq). exfalso. apply (proj2 (Hin q)). now right.
    + reflexivity.
  - split.
    + intros _ p. rewrite Hin. cbn [In]. split; [intros [[]|H]; exact H | now right].
    + intros Hnone. exfalso. destruct (proj1 (Hin a) (or_introl eq_refl)) as [[]|Ha].
      exact (Hnone a Ha).
Qed.

Lemma normalizePlatforms_keeps_named_witness :
  In Engine.OKX
     (Platforms.normalizePlatforms (fun s => s)
        (Platforms.UArray [Platforms.EString "OKX"; Platforms.EOther; Platforms.EString "okx";
                           Platforms.EString "OKX"])).
Proof.
  destruct (normalizePlatforms_keeps_named (fun s => s)
              [Platforms.EString "OKX"; Platforms.EOther; Platforms.EString "okx";
               Platforms.EString "OKX"]) as (_ & H & _).
  assert (Hn : Platforms.named (fun s => s)
                 [Platforms.EString "OKX"; Platforms.EOther; Platforms.EString "okx";
                  Platforms.EString "OKX"] Engine.OKX)
    by (exists "OKX"%string; split; [now left | reflexivity]).
  apply (H (ex_intro _ Engine.OKX Hn)). exact Hn.
Defined.

(** ** pages/Run.tsx, the list on screen *)

Section OrdersOnScreen.

Import Engine RunList.

Variable toFixed2 : Q -> Q.

Lemma pushOrder_listed (prev : list Order) (mo : string * OrderPayload) :
  pushOrder toFixed2 prev mo = firstn 100 (listed toFixed2 mo :: prev).
Proof. now destruct mo. Qed.

Lemma pushOrder_many (mos : list (string * OrderPayload)) :
  forall prev : list Order,
    (List.length prev <= 100)%nat ->
    fold_left (pushOrder toFixed2) mos prev
    = firstn 100 (rev (map (listed toFixed2) mos) ++ prev).
Proof.
  induction mos as [|mo mos IH]; intros prev Hlen; cbn [fold_left map rev app].
  - symmetry. now apply firstn_all2.
  - rewrite IH by (rewrite pushOrder_listed, length_firstn; lia).
    rewrite pushOrder_listed, <- app_assoc. cbn [app].
    set (front := rev (map (listed toFixed2) mos)).
    set (x := listed toFixed2 mo).
    destruct (Nat.le_gt_cases 100 (List.length front)) as [Hbig|Hsmall].
    + rewrite !firstn_app.
      replace (100 - List.length front)%nat with 0%nat by lia. reflexivity.
    + rewrite !firstn_app. rewrite !(firstn_all2 (n := 100) front) by lia. f_equal.
      rewrite firstn_firstn. f_equal. lia.
Qed.

End OrdersOnScreen.

(** X23. The list on screen is the latest hundred orders, newest first.
    Starting from a list of at most 100 items, after the callback has run
    for any sequence of orders the list is the first 100 items of the new
    orders in reverse order of arrival followed by the old items: it
    never holds more than 100 and every item shows the order's time,
    platform and symbol. *)
Theorem order_list_keeps_latest_100 :
  forall (toFixed2 : Q -> Q) (mos : list (string * Engine.OrderPayload))
         (prev : list RunList.Order),
    (List.length prev <= 100)%nat ->
    let shown := fold_left (RunList.pushOrder toFixed2) mos prev in
    shown = firstn 100 (rev (map (RunList.listed toFixed2) mos) ++ prev) /\
    (List.length shown <= 100)%nat /\
    (List.length shown = Nat.min 100 (List.length mos + List.length prev))%nat.
Proof.
  intros toFixed2 mos prev Hlen shown. unfold shown.
  rewrite (pushOrder_many toFixed2 mos prev Hlen).
  split; [reflexivity|].
  rewrite length_firstn, length_app, length_rev, length_map. split; lia.
Qed.

Lemma order_list_keeps_latest_100_witness :
  let o := Engine.mkOrder (Some Engine.OKX) (5 # 100) Engine.BTC_USDT 7 in
  (List.length (fold_left (RunList.pushOrder (fun q => q)) [("a"%string, o); ("b"%string, o)] [])
   <= 100)%nat.
Proof.
  intros o.
  apply (order_list_keeps_latest_100 (fun q => q) [("a"%string, o); ("b"%string, o)] []).
  cbn. lia.
Defined.

(** ** hooks/useAssistedCounts.ts *)

Section Assisted.

Import AssistedCounts.

Lemma floor_ratio (a : Z) (b : positive) :
  Math.floor (inject_Z a / inject_Z (Z.pos b))%Q = a / Z.pos b.
Proof.
  unfold Math.floor, Qdiv, Qmult, Qinv, inject_Z, Qfloor. cbn [Qnum Qden].
  now rewrite Z.mul_1_r, Pos.mul_1_l.
Qed.

Ltac closed := apply Qle_computed; vm_compute; reflexivity.

Lemma seededRandom01_range (seed : Z) : (0 <= seededRandom01 seed < 1)%Q.
Proof. exact (seededRand01_range seed). Qed.

Lemma seededRandom01_top (seed : Z) : (seededRandom01 seed <= 4294967295 # 4294967296)%Q.
Proof. exact (seededRand01_top seed). Qed.

(** The ratio of a platform index, on doubles, lies between 0 and 1. *)
Lemma ratio_unit (index total : Z) :
  0 <= index < total ->
  let ratio := if total >? 1
               then Double.div (inject_Z index) (inject_Z (total - 1)) else 0%Q in
  (0 <= ratio <= 1)%Q.
Proof.
  intros Hi ratio. unfold ratio. destruct (total >? 1) eqn:E; [|lra].
  assert (Ht : 1 < total) by lia.
  assert (Hd : (0 < inject_Z (total - 1))%Q)
    by (change 0%Q with (inject_Z 0); rewrite <- Zlt_Qlt; lia).
  assert (Hn : (0 <= inject_Z index)%Q)
    by (change 0%Q with (inject_Z 0); rewrite <- Zle_Qle; lia).
  assert (Hle : (inject_Z index <= inject_Z (total - 1))%Q) by (rewrite <- Zle_Qle; lia).
  split.
  - now apply div_nonneg.
  - apply Qle_trans with (Double.rnd 1); [|closed].
    unfold Double.div. apply rnd_mono. apply Qle_shift_div_r; [exact Hd | lra].
Qed.

Lemma progress_mono (a b : Q) :
  (a <= b)%Q -> (Math.min 1 (Math.max 0 a) <= Math.min 1 (Math.max 0 b))%Q.
Proof.
  intros H. unfold Math.min, Math.max.
  destruct (Qle_bool 0 a) eqn:Ea; destruct (Qle_bool 0 b) eqn:Eb;
    repeat match goal with
           | H : Qle_bool _ _ = true |- _ => apply Qle_bool_iff in H
           | H : Qle_bool _ _ = false |- _ => apply Qle_bool_false in H
           end;
    repeat match goal with
           | |- context [Qle_bool ?x ?y] =>
               let E := fresh "E" in
               destruct (Qle_bool x y) eqn:E;
               [apply Qle_bool_iff in E | apply Qle_bool_false in E]
           end; lra.
Qed.

Lemma progress_unit (a : Q) : (0 <= Math.min 1 (Math.max 0 a) <= 1)%Q.
Proof.
  unfold Math.min, Math.max.
  destruct (Qle_bool 0 a) eqn:Ea;
    [apply Qle_bool_iff in Ea | apply Qle_bool_false in Ea];
    match goal with
    | |- context [Qle_bool ?x ?y] =>
        let E := fresh "E" in
        destruct (Qle_bool x y) eqn:E;
        [apply Qle_bool_iff in E | apply Qle_bool_false in E]
    end; lra.
Qed.

Lemma target_positive (index total daySeed : Z) : 1 <= getDailyTargetTotal index total daySeed.
Proof. unfold getDailyTargetTotal. cbv zeta. lia. Qed.

Lemma slot_ratio (slot slot' : Z) :
  slot <= slot' ->
  (Double.div (inject_Z slot) (inject_Z 144) <= Double.div (inject_Z slot') (inject_Z 144))%Q.
Proof.
  intros H. apply div_mono; [reflexivity|]. now rewrite <- Zle_Qle.
Qed.

Lemma daily_target_band_of (index total daySeed : Z) :
  0 <= index < total -> 810 <= getDailyTargetTotal index total daySeed <= 2420.
Proof.
  intros Hi. unfold getDailyTargetTotal. cbv zeta.
  pose proof (ratio_unit index total Hi) as Hr. cbv zeta in Hr.
  set (ratio := if total >? 1
                then Double.div (inject_Z index) (inject_Z (total - 1)) else 0%Q) in *.
  pose proof (seededRandom01_range (daySeed + index * 97)) as [Hs0 _].
  pose proof (seededRandom01_top (daySeed + index * 97)) as Hs1.
  destruct (scaled_draw_bounds _ Hs0 Hs1) as [Nlo Nhi].
  set (noise := Double.add (Double.lit 9 10)
                           (Double.mul (seededRandom01 (daySeed + index * 97))
                                       (Double.lit 2 10))) in *.
  assert (P13 : (0 <= Double.sub 2200 900)%Q) by closed.
  assert (Hm0 : (0 <= Double.mul (Double.sub 2200 900) ratio)%Q)
    by (apply mul_nonneg; [exact P13 | lra]).
  assert (Hm1 : (Double.mul (Double.sub 2200 900) ratio
                 <= Double.mul (Double.sub 2200 900) 1)%Q)
    by (apply mul_mono; lra).
  assert (Hl : 900 <= Math.round (Double.sub 2200 (Double.mul (Double.sub 2200 900) ratio))
               <= 2200).
  { split.
    - apply Z.le_trans
        with (Math.round (Double.sub 2200 (Double.mul (Double.sub 2200 900) 1)));
        [vm_compute; discriminate|].
      apply round_mono, sub_mono; [lra | exact Hm1].
    - apply Z.le_trans with (Math.round (Double.sub 2200 0));
        [|vm_compute; discriminate].
      apply round_mono, sub_mono; [lra | exact Hm0]. }
  set (linear := Math.round (Double.sub 2200 (Double.mul (Double.sub 2200 900) ratio))) in *.
  assert (Hq : (900 <= inject_Z linear <= 2200)%Q).
  { change 900%Q with (inject_Z 900). change 2200%Q with (inject_Z 2200).
    rewrite <- !Zle_Qle. exact Hl. }
  assert (P9 : (0 <= Double.lit 9 10)%Q) by closed.
  assert (Hb : 810 <= Math.round (Double.mul (inject_Z linear) noise) <= 2420).
  { split.
    - apply Z.le_trans with (Math.round (Double.mul 900 (Double.lit 9 10)));
        [vm_compute; discriminate|].
      apply round_mono, mul_mono; lra.
    - apply Z.le_trans
        with (Math.round
                (Double.mul 2200
                   (Double.add (Double.lit 9 10)
                      (Double.mul (4294967295 # 4294967296) (Double.lit 2 10)))));
        [|vm_compute; discriminate].
      apply round_mono, mul_mono; lra. }
  lia.
Qed.

(** In an orderly zone the local start of the day is not after the
    instant, so the lower clamp of [getCurrentTenMinSlot] is never
    reached, and the slot is the number of whole ten minutes since the
    start of the day, held at 144. *)
Lemma slot_of_orderly (tza : LocalDay.Zone) (now : Z) :
  LocalDay.orderly tza ->
  let passed := now - getLocalStartOfDay tza now in
  0 <= passed /\ getCurrentTenMinSlot tza now = Z.min (passed / 600000) 144.
Proof.
  intros Ho passed. pose proof (startOfDay_le tza Ho now) as Hs.
  unfold passed, getCurrentTenMinSlot, getLocalStartOfDay. cbv zeta.
  set (sod := LocalDay.startOfDay tza now) in *.
  change 60000%Q with (inject_Z (Z.pos 60000)). change 10%Q with (inject_Z (Z.pos 10)).
  rewrite !floor_ratio.
  split; [lia|]. Z.to_euclidean_division_equations. lia.
Qed.

(** The local time [setMinutes] asks for is the next whole multiple of
    ten minutes. *)
Lemma next_boundary (L : Z) :
  L / 3600000 * 3600000 + ((L / 60000) mod 60 / 10 * 10 + 10) * 60000
  = (L / 600000 + 1) * 600000.
Proof. Z.to_euclidean_division_equations. lia. Qed.

Lemma msToNextTenMinute_same_offset (tza : LocalDay.Zone) (now : Z) :
  let boundary := (LocalDay.localTime tza now / 600000 + 1) * 600000 in
  tza boundary false = tza now true ->
  0 < msToNextTenMinute tza now <= 600000 /\
  now + msToNextTenMinute tza now + tza now true = boundary.
Proof.
  intros boundary H. unfold msToNextTenMinute, getMinutes, setMinutes, LocalDay.utc. cbv zeta.
  change 10%Q with (inject_Z (Z.pos 10)). rewrite floor_ratio.
  rewrite next_boundary. fold boundary. rewrite H.
  unfold boundary, LocalDay.localTime. set (o := tza now true).
  Z.to_euclidean_division_equations. lia.
Qed.

End Assisted.

(** X24. The ten-minute slot names the interval of the local day the
    clock is in.  In a zone of fixed offset [getCurrentTenMinSlot] always
    lies between 0 and 143, neither clamp being reached, and the clock
    reading lies in the slot's own ten minutes counted from the local
    start of the day.  In any orderly zone the start of the day is not
    after the clock reading, the slot is the number of whole ten minutes
    passed since, held at 144, and it names the clock's ten minutes as
    long as less than 24 hours have passed.  On a day of 25 hours the
    upper clamp is reached: in New York on 3 November 2024 at 23:30, 147
    ten-minute intervals into the day, the slot is 144. *)
Theorem ten_minute_slot_in_range :
  forall now : Z,
    (forall offsetMs : Z,
       let slot := AssistedCounts.getCurrentTenMinSlot (LocalDay.fixed offsetMs) now in
       let sod := AssistedCounts.getLocalStartOfDay (LocalDay.fixed offsetMs) now in
       0 <= slot <= 143 /\
       sod + slot * 600000 <= now < sod + (slot + 1) * 600000) /\
    (forall tza : LocalDay.Zone,
       LocalDay.orderly tza ->
       let slot := AssistedCounts.getCurrentTenMinSlot tza now in
       let sod := AssistedCounts.getLocalStartOfDay tza now in
       sod <= now /\
       slot = Z.min ((now - sod) / 600000) 144 /\
       0 <= slot <= 144 /\
       (now - sod < 86400000 ->
        slot <= 143 /\ sod + slot * 600000 <= now < sod + (slot + 1) * 600000) /\
       (86400000 <= now - sod -> slot = 144)) /\
    (let late := 1730694600000 in
     (late - AssistedCounts.getLocalStartOfDay LocalDay.newYorkAutumn2024 late) / 600000 = 147 /\
     AssistedCounts.getCurrentTenMinSlot LocalDay.newYorkAutumn2024 late = 144).
Proof.
  intros now. split; [|split].
  - intros offsetMs slot sod.
    unfold slot, sod, AssistedCounts.getCurrentTenMinSlot, AssistedCounts.getLocalStartOfDay,
      LocalDay.startOfDay, LocalDay.midnight, LocalDay.utc, LocalDay.localDay,
      LocalDay.localTime, LocalDay.fixed, LocalDay.dayMs.
    cbv zeta.
    change 60000%Q with (inject_Z (Z.pos 60000)). change 10%Q with (inject_Z (Z.pos 10)).
    rewrite !floor_ratio.
    change (24 * 60 * 60 * 1000) with 86400000.
    Z.to_euclidean_division_equations. lia.
  - intros tza Ho slot sod.
    destruct (slot_of_orderly tza now Ho) as [Hp Hs]. fold sod in Hp. fold slot sod in Hs.
    rewrite Hs. clearbody sod. clear Hs slot.
    repeat split; try lia; intros; Z.to_euclidean_division_equations; lia.
  - cbv zeta. split; vm_compute; reflexivity.
Qed.

(** New York on 3 November 2024, the day of 25 hours: at 12:34 EST the
    slot is 81, six ten-minute intervals ahead of the clock's 12:30. *)
Lemma ten_minute_slot_in_range_witness :
  AssistedCounts.getCurrentTenMinSlot LocalDay.newYorkAutumn2024 1730655240000 = 81.
Proof.
  destruct (ten_minute_slot_in_range 1730655240000) as (_ & H & _).
  destruct (H LocalDay.newYorkAutumn2024 newYorkAutumn2024_orderly) as (_ & Hs & _).
  rewrite Hs. vm_compute. reflexivity.
Defined.

(** X25. The update timer fires on the next ten-minute boundary.  In a
    zone of fixed offset the delay [msToNextTenMinute] gives is more than
    zero and at most ten minutes, the instant it leads to is a whole
    multiple of ten minutes of local time, and the slot read at that
    instant is the slot after the present one, or slot 0 of the next day
    after slot 143.  In any zone, when the offset in force at the next
    boundary of the local clock is the one in force now, the delay is more
    than zero and at most ten minutes and leads to that boundary.  Across
    a clock change neither holds: in New York on 3 November 2024 at 1:55
    EDT the delay is 65 minutes, and on 10 March 2024, the day of 23
    hours, the slot after slot 137 is slot 0. *)
Theorem next_tick_on_boundary :
  forall now : Z,
    (forall offsetMs : Z,
       let ms := AssistedCounts.msToNextTenMinute (LocalDay.fixed offsetMs) now in
       let slot := AssistedCounts.getCurrentTenMinSlot (LocalDay.fixed offsetMs) now in
       0 < ms <= 600000 /\
       (now + ms + offsetMs) mod 600000 = 0 /\
       AssistedCounts.getCurrentTenMinSlot (LocalDay.fixed offsetMs) (now + ms)
       = (slot + 1) mod 144) /\
    (forall tza : LocalDay.Zone,
       let ms := AssistedCounts.msToNextTenMinute tza now in
       let boundary := (LocalDay.localTime tza now / 600000 + 1) * 600000 in
       tza boundary false = tza now true ->
       0 < ms <= 600000 /\
       now + ms + tza now true = boundary /\
       boundary mod 600000 = 0) /\
    AssistedCounts.msToNextTenMinute LocalDay.newYorkAutumn2024 1730613300000 = 3900000 /\
    (let late := 1710129300000 in
     let ms := AssistedCounts.msToNextTenMinute LocalDay.newYorkSpring2024 late in
     ms = 300000 /\
     AssistedCounts.getCurrentTenMinSlot LocalDay.newYorkSpring2024 late = 137 /\
     AssistedCounts.getCurrentTenMinSlot LocalDay.newYorkSpring2024 (late + ms) = 0).
Proof.
  intros now. split; [|split; [|split]].
  - intros offsetMs ms slot.
    unfold ms, slot, AssistedCounts.msToNextTenMinute, AssistedCounts.getCurrentTenMinSlot,
      AssistedCounts.getMinutes, AssistedCounts.setMinutes, AssistedCounts.getLocalStartOfDay,
      LocalDay.startOfDay, LocalDay.midnight, LocalDay.utc, LocalDay.localDay,
      LocalDay.localTime, LocalDay.fixed, LocalDay.dayMs.
    cbv zeta.
    change 60000%Q with (inject_Z (Z.pos 60000)). change 10%Q with (inject_Z (Z.pos 10)).
    rewrite !floor_ratio.
    change (24 * 60 * 60 * 1000) with 86400000.
    set (L := now + offsetMs). rewrite next_boundary.
    assert (Hms : Z.max 0 ((L / 600000 + 1) * 600000 - offsetMs - now)
                  = (L / 600000 + 1) * 600000 - L).
    { unfold L. Z.to_euclidean_division_equations. lia. }
    rewrite Hms.
    replace (now + ((L / 600000 + 1) * 600000 - L) + offsetMs)
      with ((L / 600000 + 1) * 600000) by (unfold L; lia).
    split; [Z.to_euclidean_division_equations; lia|].
    split; [apply Z.mod_mul; lia|].
    replace (now + ((L / 600000 + 1) * 600000 - L)
             - ((L / 600000 + 1) * 600000 / 86400000 * 86400000 - offsetMs))
      with ((L / 600000 + 1) * 600000 - (L / 600000 + 1) * 600000 / 86400000 * 86400000)
      by (unfold L; lia).
    replace (now - (L / 86400000 * 86400000 - offsetMs)) with (L - L / 86400000 * 86400000)
      by (unfold L; lia).
    generalize L. clear. intros L.
    Z.to_euclidean_division_equations. lia.
  - intros tza ms boundary H.
    destruct (msToNextTenMinute_same_offset tza now H) as (H1 & H2).
    fold ms in H1, H2. fold boundary in H2.
    split; [exact H1|]. split; [exact H2|]. apply Z.mod_mul. lia.
  - vm_compute. reflexivity.
  - cbv zeta. repeat split; vm_compute; reflexivity.
Qed.

(** New York on 3 November 2024 at 12:34 EST, after the change: the timer
    fires in six minutes, at 12:40. *)
Lemma next_tick_on_boundary_witness :
  AssistedCounts.msToNextTenMinute LocalDay.newYorkAutumn2024 1730655240000 = 360000.
Proof.
  destruct (next_tick_on_boundary 1730655240000) as (_ & H & _).
  destruct (H LocalDay.newYorkAutumn2024) as (_ & H2 & _); [vm_compute; reflexivity|].
  cbv zeta in H2.
  assert (E : LocalDay.newYorkAutumn2024 1730655240000 true = -18000000)
    by (vm_compute; reflexivity).
  rewrite E in H2.
  assert (E2 : (LocalDay.localTime LocalDay.newYorkAutumn2024 1730655240000 / 600000 + 1) * 600000
               = 1730637600000) by (vm_compute; reflexivity).
  rewrite E2 in H2. lia.
Defined.

(** X26. The daily target stays in its band.  For a platform index
    within the number of platforms the day's target lies between 810 and
    2420, whatever the day seed; for any arguments at all it is at least
    1. *)
Theorem daily_target_in_band :
  forall (index totalPlatforms daySeed : Z),
    1 <= AssistedCounts.getDailyTargetTotal index totalPlatforms daySeed /\
    (0 <= index < totalPlatforms ->
     810 <= AssistedCounts.getDailyTargetTotal index totalPlatforms daySeed <= 2420).
Proof.
  intros index total daySeed. split; [apply target_positive | apply daily_target_band_of].
Qed.

Lemma daily_target_in_band_witness :
  810 <= AssistedCounts.getDailyTargetTotal 3 9 2631000000 <= 2420.
Proof.
  destruct (daily_target_in_band 3 9 2631000000) as [_ H]. apply H. lia.
Defined.

(** X27. The counts only grow with the slot.  For one day and one number
    of platforms, the count shown for each platform at a later slot is at
    least the count shown at an earlier one; every count is at least zero
    and at most the platform's daily target, which is below 2421. *)
Theorem assisted_counts_grow :
  forall (tza : LocalDay.Zone) (now : Z) (count : nat) (slot slot' : Z),
    slot <= slot' ->
    Forall2 Z.le (AssistedCounts.values tza count slot now)
                 (AssistedCounts.values tza count slot' now) /\
    Forall (fun c => 0 <= c <= 2420) (AssistedCounts.values tza count slot now) /\
    List.length (AssistedCounts.values tza count slot now) = count.
Proof.
  intros tza now count slot slot' Hle.
  unfold AssistedCounts.values. cbv zeta.
  set (daySeed := Math.floor _ * 131542).
  pose proof (progress_mono _ _ (slot_ratio slot slot' Hle)) as Hp.
  pose proof (progress_unit (Double.div (inject_Z slot) (inject_Z 144))) as Hu.
  set (pr := Math.min 1 (Math.max 0 (Double.div (inject_Z slot) (inject_Z 144)))) in *.
  set (pr' := Math.min 1 (Math.max 0 (Double.div (inject_Z slot') (inject_Z 144)))) in *.
  split; [|split].
  - assert (H : forall l : list nat,
               Forall2 Z.le
                 (map (fun i => Math.floor
                                  (Double.mul
                                     (inject_Z (AssistedCounts.getDailyTargetTotal
                                                  (Z.of_nat i) (Z.of_nat count) daySeed)) pr)) l)
                 (map (fun i => Math.floor
                                  (Double.mul
                                     (inject_Z (AssistedCounts.getDailyTargetTotal
                                                  (Z.of_nat i) (Z.of_nat count) daySeed)) pr')) l)).
    { induction l as [|i l IH]; cbn [map]; constructor; [|exact IH].
      pose proof (target_positive (Z.of_nat i) (Z.of_nat count) daySeed) as Ht.
      assert (Hq : (0 <= inject_Z (AssistedCounts.getDailyTargetTotal
                                     (Z.of_nat i) (Z.of_nat count) daySeed))%Q)
        by (change 0%Q with (inject_Z 0); rewrite <- Zle_Qle; lia).
      apply floor_mono, mul_mono; try lra. }
    apply H.
  - apply Forall_forall. intros c Hc. apply in_map_iff in Hc. destruct Hc as (i & <- & Hi).
    apply in_seq in Hi.
    destruct (daily_target_band_of (Z.of_nat i) (Z.of_nat count) daySeed ltac:(lia)) as [Hlo Hhi].
    set (t := AssistedCounts.getDailyTargetTotal (Z.of_nat i) (Z.of_nat count) daySeed) in *.
    assert (Hq : (810 <= inject_Z t <= 2420)%Q).
    { change 810%Q with (inject_Z 810). change 2420%Q with (inject_Z 2420).
      rewrite <- !Zle_Qle. lia. }
    split.
    + apply floor_nonneg, mul_nonneg; lra.
    + apply Z.le_trans with (Math.floor (Double.mul 2420 1)); [|vm_compute; discriminate].
      apply floor_mono, mul_mono; lra.
  - now rewrite length_map, length_seq.
Qed.

Lemma assisted_counts_grow_witness :
  Forall2 Z.le (AssistedCounts.values (LocalDay.fixed 0) 2 10 1700000000000)
               (AssistedCounts.values (LocalDay.fixed 0) 2 20 1700000000000).
Proof.
  destruct (assisted_counts_grow (LocalDay.fixed 0) 1700000000000 2 10 20) as [H _];
    [lia | exact H].
Defined.

(** ** The rate chip of the run panel *)

Section RateChip.

Import PanelView.

Lemma rate_sign (base e : Z) :
  0 < base ->
  let r := (inject_Z e / inject_Z base * 100)%Q in
  (0 < e -> (0 < r)%Q) /\ (e < 0 -> (r < 0)%Q) /\ (e = 0 -> (r == 0)%Q).
Proof.
  intros Hb r.
  assert (Hk : (0 < / inject_Z base * 100)%Q).
  { apply Qmult_lt_0_compat; [|reflexivity]. apply Qinv_lt_0_compat.
    change 0%Q with (inject_Z 0). now rewrite <- Zlt_Qlt. }
  assert (Er : (r == inject_Z e * (/ inject_Z base * 100))%Q) by (unfold r, Qdiv; ring).
  set (k := (/ inject_Z base * 100)%Q) in *.
  repeat split; intros He; rewrite Er.
  - assert ((0 < inject_Z e)%Q) by (change 0%Q with (inject_Z 0); now rewrite <- Zlt_Qlt).
    nra.
  - assert ((inject_Z e < 0)%Q) by (change 0%Q with (inject_Z 0); now rewrite <- Zlt_Qlt).
    nra.
  - subst e. change (inject_Z 0) with 0%Q. ring.
Qed.

End RateChip.

(** X28. The rate chip of the run panel follows the sign of yesterday's
    earnings.  With no running capital the chip shows no rate; with
    running capital it is positive, negative or zero exactly as
    yesterday's earnings are, so a day of net losses shows as negative
    there, which the percent badge of the yesterday card never does. *)
Theorem rate_chip_follows_sign :
  forall (runningBaseMinor yesterdayEarningsMinor : Z),
    let sign := PanelView.rateSign
                  (PanelView.yesterdayRatePct runningBaseMinor yesterdayEarningsMinor) in
    (sign = PanelView.none <-> runningBaseMinor <= 0) /\
    (sign = PanelView.pos <-> 0 < runningBaseMinor /\ 0 < yesterdayEarningsMinor) /\
    (sign = PanelView.neg <-> 0 < runningBaseMinor /\ yesterdayEarningsMinor < 0) /\
    (sign = PanelView.zero <-> 0 < runningBaseMinor /\ yesterdayEarningsMinor = 0).
Proof.
  intros base e sign. unfold sign, PanelView.rateSign, PanelView.yesterdayRatePct.
  destruct (base >? 0) eqn:Eb.
  - assert (Hb : 0 < base) by lia.
    destruct (rate_sign base e Hb) as (Hp & Hn & Hz). cbv zeta in *.
    set (r := (inject_Z e / inject_Z base * 100)%Q) in *.
    destruct (Z_dec e 0) as [[Hlt|Hgt]|Heq].
    + specialize (Hn Hlt).
      assert (E1 : Qle_bool r 0 = true) by (apply Qle_bool_iff; lra).
      assert (E2 : Qle_bool 0 r = false) by (apply Qle_bool_false; lra).
      rewrite E1, E2. cbn [negb].
      repeat split; intros; try congruence; lia.
    + specialize (Hp ltac:(lia)).
      assert (E1 : Qle_bool r 0 = false) by (apply Qle_bool_false; lra).
      rewrite E1. cbn [negb].
      repeat split; intros; try congruence; lia.
    + specialize (Hz Heq).
      assert (E1 : Qle_bool r 0 = true) by (apply Qle_bool_iff; rewrite Hz; lra).
      assert (E2 : Qle_bool 0 r = true) by (apply Qle_bool_iff; rewrite Hz; lra).
      rewrite E1, E2. cbn [negb].
      repeat split; intros; try congruence; lia.
  - repeat split; intros; try congruence; lia.
Qed.

(** ** A stopped engine *)

Section Stopped.

Import Engine EngineRun.

Variable investMinor : Z.
Variable platforms : list RunPlatform.

Lemma stopped_step (w : World) (e : Event) :
  e <> MakeOneOrder ->
  emitted (step false investMinor platforms w e) = emitted w /\
  randoms (step false investMinor platforms w e) = randoms w.
Proof.
  intros He. destruct e; cbn [step].
  - split; reflexivity.
  - unfold runEffect. cbn [andb]. destruct (ensurePlan_frame investMinor w) as (_ & H1 & H2).
    now split.
  - now elim He.
  - unfold timerFired. cbn [negb orb]. split; reflexivity.
  - unfold minuteCheck. cbv zeta. cbn [andb].
    destruct (match planRef w with Some p => negb (String.eqb (day p) (todayKey (clock w)))
                                 | None => true end); split; reflexivity.
Qed.

End Stopped.

(** X29. A stopped engine emits nothing.  While [running] is false, no
    sequence of effect runs, timer callbacks, minute checks and clock
    changes emits an order or draws a random number, whatever is invested
    and whatever plan is in place. *)
Theorem stopped_engine_emits_nothing :
  forall (investMinor : Z) (platforms : list Engine.RunPlatform)
         (es : list EngineRun.Event) (w : Engine.World),
    Forall (fun e => e <> EngineRun.MakeOneOrder) es ->
    Engine.emitted (EngineRun.run false investMinor platforms es w) = Engine.emitted w /\
    Engine.randoms (EngineRun.run false investMinor platforms es w) = Engine.randoms w.
Proof.
  intros investMinor platforms es. induction es as [|e es IH]; intros w Hes.
  - split; reflexivity.
  - inversion Hes as [|? ? He Hrest]; subst.
    cbn [EngineRun.run fold_left].
    fold (EngineRun.run false investMinor platforms es
            (EngineRun.step false investMinor platforms w e)).
    destruct (IH (EngineRun.step false investMinor platforms w e) Hrest) as [H1 H2].
    destruct (stopped_step investMinor platforms w e He) as [H3 H4].
    split; congruence.
Qed.

Lemma stopped_engine_emits_nothing_witness :
  let w := Engine.mkWorld (mkDate 0 2024 0 3) [1 # 2] None [] in
  Engine.emitted (EngineRun.run false 500000 [Engine.OKX]
                    [EngineRun.EffectRan; EngineRun.TimerFired; EngineRun.MinuteCheck] w)
  = Engine.emitted w.
Proof.
  intros w.
  apply (stopped_engine_emits_nothing 500000 [Engine.OKX]
           [EngineRun.EffectRan; EngineRun.TimerFired; EngineRun.MinuteCheck] w).
  repeat constructor; discriminate.
Defined.
